(** * OnlyScrews: caching helpers, request middleware, header rules, Navbar

    A shallow embedding of the executable parts of the repository:
    - [middleware.ts]           (URL normalisation and per-route Cache-Control),
    - the API caching helpers   ([CACHE_POLICIES], [createCachedResponse],
                                 [checkConditionalRequest], [withCache]),
    - [next.config.ts]          (the [headers()] rule list),
    - [components/Navbar.tsx]   (the mobile menu state and the rendered tree).

    Strings are [string] (bytes), HTTP header lists are association lists
    with lower-cased names, numbers that the code only passes around are
    [nat] or [Z]. *)

From Stdlib Require Import String Ascii List ZArith Lia Bool Arith DecimalString.
Import ListNotations.
Open Scope string_scope.
Open Scope bool_scope.

Set Implicit Arguments.

(* ================================================================== *)
(** ** JavaScript string primitives used by the sources *)
(* ================================================================== *)

Module JsString.

(** [s.startsWith(pre)] *)
Fixpoint startsWith (s pre : string) {struct pre} : bool :=
  match pre with
  | EmptyString => true
  | String c pre' =>
      match s with
      | EmptyString => false
      | String d s' => Ascii.eqb c d && startsWith s' pre'
      end
  end.

(** [s.slice(n)] for [0 <= n] *)
Fixpoint drop (n : nat) (s : string) : string :=
  match n with
  | O => s
  | S n' => match s with
            | EmptyString => EmptyString
            | String _ s' => drop n' s'
            end
  end.

(** [s.slice(0, n)] for [0 <= n] *)
Fixpoint take (n : nat) (s : string) : string :=
  match n with
  | O => EmptyString
  | S n' => match s with
            | EmptyString => EmptyString
            | String c s' => String c (take n' s')
            end
  end.

(** [s.includes(pat)]: [pat] occurs at some position of [s]. *)
Fixpoint includes (s pat : string) : bool :=
  startsWith s pat ||
  match s with
  | EmptyString => false
  | String _ s' => includes s' pat
  end.

(** [s.replace(pat, rep)] with a string pattern: only the first (leftmost)
    occurrence is replaced.  The replacement strings of the sources contain
    no [$], so no substitution pattern is expanded. *)
Fixpoint replace (s pat rep : string) : string :=
  if startsWith s pat then rep ++ drop (String.length pat) s
  else match s with
       | EmptyString => EmptyString
       | String c s' => String c (replace s' pat rep)
       end.

(** ASCII lower-casing, as HTTP header names are compared. *)
Definition lower_ascii (c : ascii) : ascii :=
  let n := nat_of_ascii c in
  if ((65 <=? n)%nat && (n <=? 90)%nat) then ascii_of_nat (n + 32) else c.

Fixpoint toLowerCase (s : string) : string :=
  match s with
  | EmptyString => EmptyString
  | String c s' => String (lower_ascii c) (toLowerCase s')
  end.

End JsString.

(* ================================================================== *)
(** ** The fragment of the Fetch / Next.js server API the sources use *)
(* ================================================================== *)

Module Http.

(** A [Headers] object: a list of (lower-cased name, value). *)
Definition Headers := list (string * string).

Definition name_is (name : string) (h : string * string) : bool :=
  String.eqb (fst h) (JsString.toLowerCase name).

(** [headers.get(name)]: [None] is JavaScript's [null]. *)
Definition get (hs : Headers) (name : string) : option string :=
  match filter (name_is name) hs with
  | [] => None
  | h :: _ => Some (snd h)
  end.

(** [headers.set(name, value)]: every entry of that name is dropped and
    one entry is written. *)
Definition set (hs : Headers) (name value : string) : Headers :=
  (filter (fun h => negb (name_is name h)) hs
     ++ [(JsString.toLowerCase name, value)])%list.

(** Number of entries of a given name. *)
Definition count (hs : Headers) (name : string) : nat :=
  List.length (filter (name_is name) hs).

(** [new Headers(init)] from an object literal, keys in source order. *)
Definition of_init (init : list (string * string)) : Headers :=
  fold_left (fun hs kv => set hs (fst kv) (snd kv)) init [].

(** The parts of a URL that [NextURL] exposes and the middleware touches. *)
Record URL := mkURL {
  protocol : string;   (* "https:" *)
  host     : string;
  pathname : string;
  search   : string;   (* "" or "?..." *)
  hash     : string    (* "" or "#..." *)
}.

(** [url.clone()] *)
Definition clone (u : URL) : URL := u.

(** The bytes the URL parser percent-encodes in a path: controls and
    space, the double quote, [#], [<], [>], [?], the backquote, the braces,
    and everything from DEL on. *)
Definition needs_escape (c : ascii) : bool :=
  let n := nat_of_ascii c in
  ((n <=? 32) || (126 <? n)
   || existsb (Nat.eqb n) [34; 35; 60; 62; 63; 96; 123; 125])%nat.

Definition upper_hex_digit (n : nat) : ascii :=
  match String.get n "0123456789ABCDEF" with
  | Some c => c
  | None => "0"%char
  end.

Definition escape (c : ascii) : string :=
  let n := nat_of_ascii c in
  String "%" (String (upper_hex_digit (n / 16))
                     (String (upper_hex_digit (n mod 16)) "")).

Fixpoint percent_encode_path (s : string) : string :=
  match s with
  | EmptyString => EmptyString
  | String c s' =>
      (if needs_escape c then escape c else String c "")
      ++ percent_encode_path s'
  end.

(** A string the path encoding leaves as it is, as every pathname read
    from a URL is. *)
Fixpoint path_safe (s : string) : bool :=
  match s with
  | EmptyString => true
  | String c s' => negb (needs_escape c) && path_safe s'
  end.

(** [url.pathname = p]: the URL parser stores the path percent-encoded.
    (Its handling of dot segments and backslashes is left out: a pathname
    read from a URL has neither, and the middleware adds none.) *)
Definition set_pathname (u : URL) (p : string) : URL :=
  mkURL (protocol u) (host u) (percent_encode_path p) (search u) (hash u).

(** [url.toString()] *)
Definition href (u : URL) : string :=
  protocol u ++ "//" ++ host u ++ pathname u ++ search u ++ hash u.

Record NextRequest := mkRequest {
  nextUrl     : URL;
  req_headers : Headers
}.

(** A response: status, headers, body ([None] is an empty body). *)
Record NextResponse := mkResponse {
  status  : nat;
  headers : Headers;
  body    : option string
}.

(** [NextResponse.next()] *)
Definition NextResponse_next : NextResponse :=
  mkResponse 200 [("x-middleware-next", "1")] None.

(** [NextResponse.redirect(url, status)] *)
Definition NextResponse_redirect (u : URL) (st : nat) : NextResponse :=
  mkResponse st [("location", href u)] None.

(** [response.headers.set(name, value)] *)
Definition set_header (r : NextResponse) (name value : string) : NextResponse :=
  mkResponse (status r) (set (headers r) name value) (body r).

End Http.

(* ================================================================== *)
(** ** middleware.ts *)
(* ================================================================== *)

Module Middleware.
Import JsString Http.

Definition MALFORMED_SPACE   : string := "/self-tapping -screws".
Definition MALFORMED_ENCODED : string := "/self-tapping%20-screws".
Definition CANONICAL         : string := "/self-tapping-screws".

Definition HOME_DIRECTIVE : string :=
  "public, s-maxage=60, stale-while-revalidate=300, stale-if-error=86400".
Definition BLOG_DIRECTIVE : string :=
  "public, s-maxage=3600, stale-while-revalidate=86400, stale-if-error=604800".
Definition PRODUCT_DIRECTIVE : string :=
  "public, s-maxage=1800, stale-while-revalidate=86400, stale-if-error=604800".

(** The test of the first [if]. *)
Definition is_malformed (pathname : string) : bool :=
  includes pathname MALFORMED_SPACE || includes pathname MALFORMED_ENCODED.

(** The right-hand side of [url.pathname = ...]. *)
Definition normalize (pathname : string) : string :=
  replace (replace pathname MALFORMED_SPACE CANONICAL)
          MALFORMED_ENCODED CANONICAL.

(** [export function middleware(request)] *)
Definition middleware (request : NextRequest) : NextResponse :=
  let response := NextResponse_next in
  let pathname := Http.pathname (nextUrl request) in
  if is_malformed pathname then
    let url := clone (nextUrl request) in
    let url := set_pathname url (normalize pathname) in
    NextResponse_redirect url 301
  else
    let response :=
      if String.eqb pathname "/"
      then set_header response "Cache-Control" HOME_DIRECTIVE
      else response in
    let response :=
      if startsWith pathname "/blog"
      then set_header response "Cache-Control" BLOG_DIRECTIVE
      else response in
    let response :=
      if startsWith pathname "/products" || startsWith pathname "/category"
      then set_header response "Cache-Control" PRODUCT_DIRECTIVE
      else response in
    response.

(** The URL the redirect points to. *)
Definition redirect_target (request : NextRequest) : URL :=
  set_pathname (clone (nextUrl request))
               (normalize (pathname (nextUrl request))).

(** [config.matcher] *)
Definition matcher : list string :=
  ["/((?!api|_next/static|_next/image|favicon.ico).*)"].

End Middleware.

(* ================================================================== *)
(** ** The JavaScript runtime pieces the caching helpers call *)
(* ================================================================== *)

Module Js.

Section JsonValues.
(** The numbers of the runtime, and the text [JSON.stringify] writes for
    one of them. *)
Variable Num : Type.
Variable Number_toJSON : Num -> string.

(** JSON data: what [JSON.stringify] serialises without dropping or
    throwing.  An object is its list of properties in enumeration order; a
    string is the UTF-8 bytes of its text. *)
#[local] Unset Elimination Schemes.
Inductive Json : Type :=
| JNull
| JBool (b : bool)
| JNum (n : Num)
| JStr (s : string)
| JArr (items : list Json)
| JObj (props : list (string * Json)).
#[local] Set Elimination Schemes.

(** The double-quote character. *)
Definition dquote : ascii := ascii_of_nat 34.

Definition hex_digit (n : nat) : ascii :=
  match String.get n "0123456789abcdef" with
  | Some c => c
  | None => "0"%char
  end.

(** One character of a quoted JSON string. *)
Definition quote_char (c : ascii) : string :=
  let n := nat_of_ascii c in
  if (n =? 34)%nat then String "\"%char (String dquote "")
  else if (n =? 92)%nat then "\\"
  else if (n =? 8)%nat then "\b"
  else if (n =? 9)%nat then "\t"
  else if (n =? 10)%nat then "\n"
  else if (n =? 12)%nat then "\f"
  else if (n =? 13)%nat then "\r"
  else if (n <? 32)%nat then
    "\u00" ++ String (hex_digit (n / 16)) (String (hex_digit (n mod 16)) "")
  else String c "".

Fixpoint quote_body (s : string) : string :=
  match s with
  | EmptyString => EmptyString
  | String c s' => quote_char c ++ quote_body s'
  end.

Definition quote (s : string) : string :=
  String dquote (quote_body s ++ String dquote "").

(** [JSON.stringify(value)] with no indentation. *)
Fixpoint JSON_stringify (j : Json) : string :=
  match j with
  | JNull => "null"
  | JBool true => "true"
  | JBool false => "false"
  | JNum n => Number_toJSON n
  | JStr s => quote s
  | JArr items =>
      "[" ++
      (fix elems (l : list Json) : string :=
         match l with
         | [] => ""
         | x :: rest =>
             JSON_stringify x ++
             match rest with [] => "" | _ :: _ => "," ++ elems rest end
         end) items
      ++ "]"
  | JObj props =>
      "{" ++
      (fix members (l : list (string * Json)) : string :=
         match l with
         | [] => ""
         | (k, v) :: rest =>
             quote k ++ ":" ++ JSON_stringify v ++
             match rest with [] => "" | _ :: _ => "," ++ members rest end
         end) props
      ++ "}"
  end.
End JsonValues.

Arguments JNull {Num}.
Arguments JBool {Num} b.
Arguments JNum {Num} n.
Arguments JStr {Num} s.
Arguments JArr {Num} items.
Arguments JObj {Num} props.

(** The text of an integer that a double holds exactly. *)
Definition integer_toJSON (z : Z) : string :=
  DecimalString.NilZero.string_of_int (Z.to_int z).

(** [Buffer.from(s)]: the UTF-8 bytes of [s], which [s] already is. *)
Definition Buffer_from (s : string) : list N :=
  map N_of_ascii (list_ascii_of_string s).

Definition base64_alphabet : string :=
  "ABCDEFGHIJKLMNOPQRSTUVWXYZabcdefghijklmnopqrstuvwxyz0123456789+/".

Definition base64_digit (n : N) : ascii :=
  match String.get (N.to_nat n) base64_alphabet with
  | Some c => c
  | None => "="%char
  end.

(** [buf.toString('base64')]: three bytes give four digits, the tail is
    padded with [=]. *)
Fixpoint toString_base64 (buf : list N) : string :=
  match buf with
  | [] => ""
  | [a] =>
      String (base64_digit (N.shiftr a 2))
     (String (base64_digit (N.shiftl (N.land a 3) 4)) "==")
  | [a; b] =>
      String (base64_digit (N.shiftr a 2))
     (String (base64_digit (N.lor (N.shiftl (N.land a 3) 4) (N.shiftr b 4)))
     (String (base64_digit (N.shiftl (N.land b 15) 2)) "="))
  | a :: b :: c :: rest =>
      String (base64_digit (N.shiftr a 2))
     (String (base64_digit (N.lor (N.shiftl (N.land a 3) 4) (N.shiftr b 4)))
     (String (base64_digit (N.lor (N.shiftl (N.land b 15) 2) (N.shiftr c 6)))
     (String (base64_digit (N.land c 63))
             (toString_base64 rest))))
  end.

(** JavaScript truthiness of a [string | null]. *)
Definition truthy (v : option string) : bool :=
  match v with
  | Some s => negb (String.eqb s "")
  | None => false
  end.

(** [a >= b] on numbers where [None] is [NaN]. *)
Definition num_ge (a b : option Z) : bool :=
  match a, b with
  | Some x, Some y => (y <=? x)%Z
  | _, _ => false
  end.

End Js.

(* ================================================================== *)
(** ** The API caching utilities ([CACHE_POLICIES] and its helpers) *)
(* ================================================================== *)

Module Caching.
Import JsString Http Js.

Record CachePolicy := mkPolicy {
  cacheControl : string;
  description  : string
}.

(** [keyof typeof CACHE_POLICIES], in the order of the object literal. *)
Inductive PolicyName : Type :=
| homepage | productList | productDetail | blog
| category | images | noCache | search.

(** The property name of each key. *)
Definition key (p : PolicyName) : string :=
  match p with
  | homepage => "homepage"
  | productList => "productList"
  | productDetail => "productDetail"
  | blog => "blog"
  | category => "category"
  | images => "images"
  | noCache => "noCache"
  | search => "search"
  end.

(** [CACHE_POLICIES[policy]] *)
Definition CACHE_POLICIES (p : PolicyName) : CachePolicy :=
  match p with
  | homepage =>
      mkPolicy "public, s-maxage=60, stale-while-revalidate=300, stale-if-error=86400"
               "Homepage: 1 minute CDN + 5 min stale"
  | productList =>
      mkPolicy "public, s-maxage=1800, stale-while-revalidate=86400, stale-if-error=604800"
               "Product lists: 30 min CDN + 24hr stale"
  | productDetail =>
      mkPolicy "public, s-maxage=3600, stale-while-revalidate=86400, stale-if-error=604800"
               "Product details: 1hr CDN + 24hr stale"
  | blog =>
      mkPolicy "public, s-maxage=3600, stale-while-revalidate=86400, stale-if-error=604800"
               "Blog posts: 1hr CDN + 24hr stale"
  | category =>
      mkPolicy "public, s-maxage=3600, stale-while-revalidate=86400, stale-if-error=604800"
               "Categories: 1hr CDN + 24hr stale"
  | images =>
      mkPolicy "public, max-age=31536000, immutable"
               "Images: 1 year immutable"
  | noCache =>
      mkPolicy "private, no-cache, no-store, must-revalidate"
               "User data: No caching"
  | search =>
      mkPolicy "public, s-maxage=900, stale-while-revalidate=3600"
               "Search: 15 min CDN + 1hr stale"
  end.

Definition all_names : list PolicyName :=
  [homepage; productList; productDetail; blog; category; images; noCache; search].

(** [Object.entries(CACHE_POLICIES)] *)
Definition entries : list (string * CachePolicy) :=
  map (fun p => (key p, CACHE_POLICIES p)) all_names.

(** A parameter with the default value ['productList']: [None] is an
    omitted argument. *)
Definition policy_or_default (policy : option PolicyName) : PolicyName :=
  match policy with
  | Some p => p
  | None => productList
  end.

Section CachedResponse.
Variable Num : Type.
Variable Number_toJSON : Num -> string.

(** [NextResponse.json(data, { headers })]: status 200, the serialised
    body, the given headers, and a JSON content type unless one is given. *)
Definition NextResponse_json (data : Json Num) (init : list (string * string))
  : NextResponse :=
  let hs := of_init init in
  let hs := match get hs "content-type" with
            | Some _ => hs
            | None => set hs "content-type" "application/json"
            end in
  mkResponse 200 hs (Some (JSON_stringify Number_toJSON data)).

(** The template literal of the ['ETag'] header. *)
Definition etag_of (data : Json Num) : string :=
  "W/" ++ String dquote
    (take 20 (toString_base64
                (Buffer_from (JSON_stringify Number_toJSON data)))
     ++ String dquote "").

(** [export function createCachedResponse(data, policy = 'productList')] *)
Definition createCachedResponse (data : Json Num) (policy : option PolicyName)
  : NextResponse :=
  let policy := policy_or_default policy in
  let cachePolicy := CACHE_POLICIES policy in
  NextResponse_json data
    [ ("Cache-Control", cacheControl cachePolicy);
      ("Content-Type", "application/json");
      ("ETag", etag_of data) ].
End CachedResponse.

(** [new NextResponse(null, { status: 304 })] *)
Definition not_modified : NextResponse := mkResponse 304 [] None.

Section ConditionalRequest.
(** [new Date(s).getTime()]: the runtime's date parser, [None] for the
    [NaN] of an invalid date. *)
Variable Date_getTime : string -> option Z.

(** [export function checkConditionalRequest(request, lastModified)];
    [None] is the [null] result. *)
Definition checkConditionalRequest (request : NextRequest)
           (lastModified : string) : option NextResponse :=
  let ifNoneMatch := get (req_headers request) "if-none-match" in
  let ifModifiedSince := get (req_headers request) "if-modified-since" in
  if truthy ifModifiedSince then
    match ifModifiedSince with
    | Some v =>
        let clientDate := Date_getTime v in
        let serverDate := Date_getTime lastModified in
        if num_ge clientDate serverDate then Some not_modified else None
    | None => None
    end
  else None.
End ConditionalRequest.

(** *** Asynchronous code as a state-and-outcome monad *)

Section Async.
(** [W] is whatever the fetch operation reads and writes; [Err] is the
    type of thrown values. *)
Variables (W Err : Type).

(** What awaiting a promise gives. *)
Inductive Outcome (A : Type) : Type :=
| Resolved (a : A)
| Rejected (e : Err)
| Pending.
Arguments Resolved {A} a.
Arguments Rejected {A} e.
Arguments Pending {A}.

(** The observable world: how often the fetch operation was invoked,
    what [console.error] received, and the operation's own state. *)
Record World := mkWorld {
  calls   : nat;
  console : list (string * Err);
  store   : W
}.

Definition M (A : Type) : Type := World -> Outcome A * World.

Definition ret {A} (a : A) : M A := fun w => (Resolved a, w).

Definition throw {A} (e : Err) : M A := fun w => (Rejected e, w).

Definition bind {A B} (m : M A) (k : A -> M B) : M B :=
  fun w =>
    match m w with
    | (Resolved a, w') => k a w'
    | (Rejected e, w') => (Rejected e, w')
    | (Pending, w') => (Pending, w')
    end.

(** [try { m } catch (error) { h error }] *)
Definition try_catch {A} (m : M A) (h : Err -> M A) : M A :=
  fun w =>
    match m w with
    | (Rejected e, w') => h e w'
    | r => r
    end.

(** [console.error(msg, error)] *)
Definition console_error (msg : string) (e : Err) : M unit :=
  fun w => (Resolved tt,
            mkWorld (calls w) (console w ++ [(msg, e)])%list (store w)).

(** [await fetchFn()]: one invocation of the caller's operation. *)
Definition invoke {T} (fetchFn : W -> Outcome T * W) : M T :=
  fun w =>
    let (r, s') := fetchFn (store w) in
    (r, mkWorld (S (calls w)) (console w) s').

Notation "x <- m ;; k" := (bind m (fun x => k))
  (at level 61, m at next level, right associativity).
Notation "m ;;; k" := (bind m (fun _ => k))
  (at level 61, right associativity).

(** [export async function withCache(fetchFn, policy = 'productList')] *)
Definition withCache {T} (fetchFn : W -> Outcome T * W)
           (policy : option PolicyName) : M (T * CachePolicy) :=
  let policy := policy_or_default policy in
  try_catch
    (data <- invoke fetchFn ;;
     ret (data, CACHE_POLICIES policy))
    (fun error =>
       console_error "Cache fetch error:" error ;;;
       throw error).

(** [export async function invalidateCache(paths)]: the placeholder
    only writes to [console.log], which this world does not record. *)
Definition invalidateCache (paths : list string) : M unit := ret tt.
End Async.

Arguments Resolved {Err A} a.
Arguments Rejected {Err A} e.
Arguments Pending {Err A}.

End Caching.

(* ================================================================== *)
(** ** components/Navbar.tsx *)
(* ================================================================== *)

Module Navbar.

(** The two [useState] cells. *)
Record State := mkState {
  open      : bool;
  isMounted : bool
}.

(** [useState(false)] twice. *)
Definition initial : State := mkState false false.

(** A call of one of the two state setters. *)
Inductive Msg : Type :=
| setOpen (b : bool)
| setIsMounted (b : bool).

Definition update (s : State) (m : Msg) : State :=
  match m with
  | setOpen b => mkState b (isMounted s)
  | setIsMounted b => mkState (open s) b
  end.

(** The body of [useEffect(..., [])], run once after the first render. *)
Definition mount_effect : Msg := setIsMounted true.

(** The rendered tree.  An element carries its class, its other
    attributes, the setter call its [onClick] closure makes, and its
    children. *)
#[local] Unset Elimination Schemes.
Inductive VNode : Type :=
| Element (tag className : string) (attrs : list (string * string))
          (onClick : option Msg) (children : list VNode)
| Link (href className : string) (children : list VNode)
| Image (src alt : string) (width height : nat) (className : string)
        (priority : bool)
| Text (s : string).
#[local] Set Elimination Schemes.

Definition bool_attr (b : bool) : string := if b then "true" else "false".

Definition DESKTOP_ROW_CLASS : string :=
  "hidden md:flex gap-8 text-gray-200 font-medium".
Definition MOBILE_PANEL_CLASS : string :=
  "md:hidden bg-dark border-t border-gray-700 text-center pb-4".
Definition TOGGLE_CLASS : string := "md:hidden text-2xl text-white".

(** [{cond && node}]: nothing is rendered when [cond] is false. *)
Definition when (cond : bool) (n : VNode) : list VNode :=
  if cond then [n] else [].

(** The JSX returned by [Navbar()] for the current state. *)
Definition render (s : State) : VNode :=
  Element "nav"
    "fixed top-0 w-full bg-dark/90 backdrop-blur border-b border-gray-800 z-50"
    [] None
    (Element "div"
       "max-w-7xl mx-auto flex justify-between items-center px-4 py-4"
       [] None
       [ Link "/" "text-2xl font-bold text-primary gap-2"
           [ Image "/SB.jpg" "logo" 180 180
                   "h-9 w-auto object-contain" true ];
         Element "div" DESKTOP_ROW_CLASS [] None
           [ Link "/products" "" [Text "Products"];
             Link "/about" "" [Text "About"];
             Link "/contact" "" [Text "Contact"] ];
         Element "button" TOGGLE_CLASS
           [ ("aria-label", if open s then "Close menu" else "Open menu");
             ("aria-expanded", bool_attr (open s));
             ("type", "button") ]
           (Some (setOpen (negb (open s))))
           [Text "☰"] ]
     :: when (open s)
          (Element "div" MOBILE_PANEL_CLASS [] None
             [ Link "/products" "block py-2" [Text "Products"];
               Link "/about" "block py-2" [Text "About"];
               Link "/contact" "block py-2" [Text "Contact"] ])).

(** All elements of a tree, the root first, that carry a given class. *)
Fixpoint by_class (cls : string) (n : VNode) : list VNode :=
  match n with
  | Element _ c _ _ children =>
      ((if String.eqb c cls then [n] else [])
       ++ flat_map (by_class cls) children)%list
  | Link _ _ children => flat_map (by_class cls) children
  | Image _ _ _ _ _ _ => []
  | Text _ => []
  end.

Definition text_of (children : list VNode) : option string :=
  match children with
  | [Text t] => Some t
  | _ => None
  end.

(** The links of a tree in document order, as (label, target). *)
Fixpoint links (n : VNode) : list (string * string) :=
  match n with
  | Element _ _ _ _ children => flat_map links children
  | Link href _ children =>
      match text_of children with
      | Some t => [(t, href)]
      | None => flat_map links children
      end
  | Image _ _ _ _ _ _ => []
  | Text _ => []
  end.

Definition handler (n : VNode) : option Msg :=
  match n with
  | Element _ _ _ h _ => h
  | _ => None
  end.

(** Activating the menu button of the current render: its [onClick]
    closure runs against the state. *)
Definition activate_toggle (s : State) : State :=
  match by_class TOGGLE_CLASS (render s) with
  | button :: _ =>
      match handler button with
      | Some m => update s m
      | None => s
      end
  | [] => s
  end.

Definition desktop_row (s : State) : list VNode :=
  by_class DESKTOP_ROW_CLASS (render s).

Definition mobile_panel (s : State) : list VNode :=
  by_class MOBILE_PANEL_CLASS (render s).

Definition NAV_LINKS : list (string * string) :=
  [("Products", "/products"); ("About", "/about"); ("Contact", "/contact")].

End Navbar.

(* ================================================================== *)
(** ** Route patterns: the framework's reading of a [source] string *)
(* ================================================================== *)

(** The framework turns the [source] of a header rule and the [matcher] of
    the middleware into a regular expression with path-to-regexp: a lexer,
    a parser into tokens, and the translation of the tokens.  The fragment
    below covers what the sources of this repository use: literal text,
    named parameters with a modifier, and groups that are an alternation of
    words or a negative lookahead followed by [.*]. *)
Module PathToRegexp.

(** *** Regular expressions over bytes *)

Inductive regex : Type :=
| Void
| Eps
| Lit (ignoreCase : bool) (c : ascii)   (* one given character *)
| NoneOf (cs : list ascii)              (* one character outside [cs] *)
| Cat (r1 r2 : regex)
| Alt (r1 r2 : regex)
| Star (r : regex)
| And (r1 r2 : regex)
| Not (r : regex).

Definition Opt (r : regex) : regex := Alt r Eps.
Definition Plus (r : regex) : regex := Cat r (Star r).
Definition AnyChar : regex := NoneOf [].
(** [.] matches anything but a line terminator. *)
Definition Dot : regex := NoneOf [ascii_of_nat 10; ascii_of_nat 13].

Definition mem_ascii (c : ascii) (cs : list ascii) : bool :=
  existsb (Ascii.eqb c) cs.

Definition lit_accepts (ignoreCase : bool) (c d : ascii) : bool :=
  if ignoreCase
  then Ascii.eqb (JsString.lower_ascii c) (JsString.lower_ascii d)
  else Ascii.eqb c d.

Fixpoint nullable (r : regex) : bool :=
  match r with
  | Void => false
  | Eps => true
  | Lit _ _ => false
  | NoneOf _ => false
  | Cat r1 r2 => nullable r1 && nullable r2
  | Alt r1 r2 => nullable r1 || nullable r2
  | Star _ => true
  | And r1 r2 => nullable r1 && nullable r2
  | Not r1 => negb (nullable r1)
  end.

(** The derivative of [r] by the character [d]. *)
Fixpoint deriv (d : ascii) (r : regex) : regex :=
  match r with
  | Void => Void
  | Eps => Void
  | Lit ci c => if lit_accepts ci c d then Eps else Void
  | NoneOf cs => if mem_ascii d cs then Void else Eps
  | Cat r1 r2 =>
      if nullable r1
      then Alt (Cat (deriv d r1) r2) (deriv d r2)
      else Cat (deriv d r1) r2
  | Alt r1 r2 => Alt (deriv d r1) (deriv d r2)
  | Star r1 => Cat (deriv d r1) (Star r1)
  | And r1 r2 => And (deriv d r1) (deriv d r2)
  | Not r1 => Not (deriv d r1)
  end.

(** [^r$] tested against the whole string. *)
Fixpoint matchb (r : regex) (s : string) : bool :=
  match s with
  | EmptyString => nullable r
  | String d s' => matchb (deriv d r) s'
  end.

(** The language of a regular expression. *)
Inductive star (L : string -> Prop) : string -> Prop :=
| star_nil : star L ""
| star_app s1 s2 : L s1 -> star L s2 -> star L (s1 ++ s2).

Fixpoint lang (r : regex) (s : string) : Prop :=
  match r with
  | Void => False
  | Eps => s = ""
  | Lit ci c => exists d, s = String d "" /\ lit_accepts ci c d = true
  | NoneOf cs => exists d, s = String d "" /\ mem_ascii d cs = false
  | Cat r1 r2 => exists s1 s2, s = s1 ++ s2 /\ lang r1 s1 /\ lang r2 s2
  | Alt r1 r2 => lang r1 s \/ lang r2 s
  | Star r1 => star (lang r1) s
  | And r1 r2 => lang r1 s /\ lang r2 s
  | Not r1 => ~ lang r1 s
  end.

(** *** The lexer *)

Inductive LexToken : Type :=
| MODIFIER (c : ascii)
| ESCAPED_CHAR (c : ascii)
| OPEN
| CLOSE
| NAME (name : string)
| PATTERN (src : string)
| CHAR (c : ascii)
| END.

Definition is_name_char (c : ascii) : bool :=
  let n := nat_of_ascii c in
  ((48 <=? n) && (n <=? 57) || (65 <=? n) && (n <=? 90)
   || (97 <=? n) && (n <=? 122) || (n =? 95))%nat.

Fixpoint span_name (s : string) : string * string :=
  match s with
  | EmptyString => ("", "")
  | String c s' =>
      if is_name_char c
      then let (n, rest) := span_name s' in (String c n, rest)
      else ("", s)
  end.

Definition cons_fst (c : ascii) (r : option (string * string))
  : option (string * string) :=
  match r with
  | Some (p, rest) => Some (String c p, rest)
  | None => None
  end.

(** The text of a group up to its closing parenthesis, and what follows.
    [None] is a [TypeError] (unbalanced, or a capturing group inside). *)
Fixpoint lex_pattern (count : nat) (s : string) : option (string * string) :=
  match s with
  | EmptyString => None
  | String c rest =>
      if Ascii.eqb c "\" then
        match rest with
        | String d rest' => cons_fst c (cons_fst d (lex_pattern count rest'))
        | EmptyString => None
        end
      else if Ascii.eqb c ")" then
        match count with
        | 1 => Some ("", rest)
        | _ => cons_fst c (lex_pattern (count - 1) rest)
        end
      else if Ascii.eqb c "(" then
        match rest with
        | String "?" _ => cons_fst c (lex_pattern (S count) rest)
        | _ => None
        end
      else cons_fst c (lex_pattern count rest)
  end.

Definition cons_tok (t : LexToken) (r : option (list LexToken))
  : option (list LexToken) :=
  option_map (cons t) r.

Fixpoint lexer_from (fuel : nat) (s : string) : option (list LexToken) :=
  match fuel with
  | O => None
  | S fuel' =>
      match s with
      | EmptyString => Some [END]
      | String c rest =>
          if mem_ascii c ["*"; "+"; "?"]%char then
            cons_tok (MODIFIER c) (lexer_from fuel' rest)
          else if Ascii.eqb c "\" then
            match rest with
            | String d rest' => cons_tok (ESCAPED_CHAR d) (lexer_from fuel' rest')
            | EmptyString => None
            end
          else if Ascii.eqb c "{" then cons_tok OPEN (lexer_from fuel' rest)
          else if Ascii.eqb c "}" then cons_tok CLOSE (lexer_from fuel' rest)
          else if Ascii.eqb c ":" then
            let (name, rest') := span_name rest in
            if String.eqb name "" then None
            else cons_tok (NAME name) (lexer_from fuel' rest')
          else if Ascii.eqb c "(" then
            if JsString.startsWith rest "?" then None
            else match lex_pattern 1 rest with
                 | Some (src, rest') =>
                     if String.eqb src "" then None
                     else cons_tok (PATTERN src) (lexer_from fuel' rest')
                 | None => None
                 end
          else cons_tok (CHAR c) (lexer_from fuel' rest)
      end
  end.

Definition lexer (s : string) : option (list LexToken) :=
  lexer_from (S (String.length s)) s.

(** *** The parser *)

(** A key's pattern: the default one-segment pattern, or the text of a
    group. *)
Inductive KeyPattern : Type :=
| DefaultPattern
| Custom (src : string).

Inductive Token : Type :=
| TStr (s : string)
| TKey (name : string + nat) (prefix : string) (pattern : KeyPattern)
       (modifier : option ascii).

Definition PREFIXES : string := "./".

Definition flush (path : string) : list Token :=
  if String.eqb path "" then [] else [TStr path].

Definition cons_out (ts : list Token) (r : option (list Token))
  : option (list Token) :=
  option_map (app ts) r.

Fixpoint parse_from (fuel : nat) (ts : list LexToken) (key : nat)
         (path : string) : option (list Token) :=
  match fuel with
  | O => None
  | S fuel' =>
      let (char, ts1) :=
        match ts with CHAR c :: r => (Some c, r) | _ => (None, ts) end in
      let (name, ts2) :=
        match ts1 with NAME n :: r => (Some n, r) | _ => (None, ts1) end in
      let (pattern, ts3) :=
        match ts2 with PATTERN p :: r => (Some p, r) | _ => (None, ts2) end in
      match name, pattern with
      | None, None =>
          match char, ts with
          | Some c, _ => parse_from fuel' ts1 key (path ++ String c "")
          | None, ESCAPED_CHAR c :: r =>
              parse_from fuel' r key (path ++ String c "")
          | None, END :: _ => Some (flush path)
          | None, _ => None
          end
      | _, _ =>
          let prefix := match char with Some c => String c "" | None => "" end in
          let keep := JsString.includes PREFIXES prefix in
          let path' := if keep then path else path ++ prefix in
          let prefix' := if keep then prefix else "" in
          let (modifier, ts4) :=
            match ts3 with MODIFIER m :: r => (Some m, r) | _ => (None, ts3) end in
          let k := TKey (match name with Some n => inl n | None => inr key end)
                        prefix'
                        (match pattern with
                         | Some p => Custom p
                         | None => DefaultPattern
                         end)
                        modifier in
          cons_out (flush path' ++ [k])%list
                   (parse_from fuel' ts4
                               (match name with Some _ => key | None => S key end)
                               "")
      end
  end.

Definition parse (src : string) : option (list Token) :=
  match lexer src with
  | Some ts => parse_from (S (List.length ts)) ts 0 ""
  | None => None
  end.

(** *** From tokens to a regular expression *)

Record Options := mkOptions {
  delimiter : string;   (* the characters that end a segment *)
  sensitive : bool;     (* [false] gives the [i] flag *)
  strict    : bool      (* [false] allows one trailing delimiter *)
}.

Definition DEFAULT_OPTIONS : Options := mkOptions "/#?" false false.

Fixpoint lit_string (ci : bool) (s : string) : regex :=
  match s with
  | EmptyString => Eps
  | String c s' => Cat (Lit ci c) (lit_string ci s')
  end.

Fixpoint one_of (cs : list ascii) : regex :=
  match cs with
  | [] => Void
  | c :: cs' => Alt (Lit false c) (one_of cs')
  end.

(** The text of a group, read as a regular expression: an alternation of
    words, or [(?!words).*].  [None] is a group outside this fragment. *)
Inductive Group : Type :=
| GAlts (r : regex)
| GNotAhead (ahead body : regex).

Definition is_word_char (c : ascii) : bool :=
  is_name_char c || mem_ascii c ["-"; "/"]%char.

Fixpoint word_regex (ci : bool) (w : string) : option regex :=
  match w with
  | EmptyString => Some Eps
  | String c w' =>
      match word_regex ci w' with
      | Some r =>
          if Ascii.eqb c "." then Some (Cat Dot r)
          else if is_word_char c then Some (Cat (Lit ci c) r)
          else None
      | None => None
      end
  end.

(** [s.split(sep)] for one separator character. *)
Fixpoint split_at (sep : ascii) (s : string) : list string :=
  match s with
  | EmptyString => [""]
  | String c s' =>
      if Ascii.eqb c sep then "" :: split_at sep s'
      else match split_at sep s' with
           | w :: ws => String c w :: ws
           | [] => [String c ""]
           end
  end.

Fixpoint alts_of (ci : bool) (ws : list string) : option regex :=
  match ws with
  | [] => Some Void
  | [w] => word_regex ci w
  | w :: ws' =>
      match word_regex ci w, alts_of ci ws' with
      | Some r, Some rs => Some (Alt r rs)
      | _, _ => None
      end
  end.

Definition alts_regex (ci : bool) (src : string) : option regex :=
  alts_of ci (split_at "|" src).

Definition group_of (ci : bool) (src : string) : option Group :=
  if JsString.startsWith src "(?!" then
    match split_at ")" (JsString.drop 3 src) with
    | [ahead; rest] =>
        if String.eqb rest ".*" then
          match alts_regex ci ahead with
          | Some a => Some (GNotAhead a (Star Dot))
          | None => None
          end
        else None
    | _ => None
    end
  else option_map GAlts (alts_regex ci src).

Definition pattern_group (o : Options) (p : KeyPattern) : option Group :=
  match p with
  | DefaultPattern =>
      Some (GAlts (Plus (NoneOf (list_ascii_of_string (delimiter o)))))
  | Custom src => group_of (negb (sensitive o)) src
  end.

(** A key whose pattern is [P], as the translation writes it. *)
Definition key_regex (prefix P : regex) (has_prefix : bool)
           (modifier : option ascii) : regex :=
  if has_prefix then
    match modifier with
    | Some "*"%char => Opt (Cat prefix (Cat P (Star (Cat prefix P))))
    | Some "+"%char => Cat prefix (Cat P (Star (Cat prefix P)))
    | Some _ => Opt (Cat prefix P)
    | None => Cat prefix P
    end
  else
    match modifier with
    | Some "*"%char => Star P
    | Some "+"%char => Plus P
    | Some _ => Opt P
    | None => P
    end.

(** What follows the last token. *)
Definition ending (o : Options) : regex :=
  if strict o then Eps
  else Opt (one_of (list_ascii_of_string (delimiter o))).

(** The expression of a token list followed by [tail].  A negative
    lookahead inspects all that remains of the path, so it constrains the
    group together with everything after it. *)
Fixpoint tokens_regex (o : Options) (ts : list Token) (tail : regex)
  : option regex :=
  match ts with
  | [] => Some tail
  | TStr s :: ts' =>
      option_map (Cat (lit_string (negb (sensitive o)) s))
                 (tokens_regex o ts' tail)
  | TKey _ prefix pattern modifier :: ts' =>
      let pre := lit_string (negb (sensitive o)) prefix in
      match pattern_group o pattern, tokens_regex o ts' tail with
      | Some (GAlts P), Some R =>
          Some (Cat (key_regex pre P (negb (String.eqb prefix "")) modifier) R)
      | Some (GNotAhead A B), Some R =>
          match modifier with
          | None =>
              Some (Cat pre (And (Not (Cat A (Star AnyChar))) (Cat B R)))
          | Some _ => None
          end
      | _, _ => None
      end
  end.

(** [pathToRegexp(src, [], options)], followed by [tail] before the
    final [$]. *)
Definition pathToRegexp (o : Options) (src : string) (tail : regex)
  : option regex :=
  match parse src with
  | Some ts => tokens_regex o ts (Cat (ending o) tail)
  | None => None
  end.

End PathToRegexp.

(* ================================================================== *)
(** ** next.config.ts: the rule list of [headers()] *)
(* ================================================================== *)

Module NextConfig.

Record HeaderRule := mkRule {
  source  : string;
  headers : list (string * string)
}.

(** [async headers() { return [...] }] *)
Definition headers_config : list HeaderRule :=
  [ mkRule "/"
      [ ("Cache-Control",
         "public, s-maxage=60, stale-while-revalidate=300, stale-if-error=86400");
        ("X-Content-Type-Options", "nosniff") ];
    mkRule "/blog/:path*"
      [ ("Cache-Control",
         "public, s-maxage=3600, stale-while-revalidate=86400, stale-if-error=604800") ];
    mkRule "/products/:path*"
      [ ("Cache-Control",
         "public, s-maxage=1800, stale-while-revalidate=86400, stale-if-error=604800") ];
    mkRule "/category/:path*"
      [ ("Cache-Control",
         "public, s-maxage=3600, stale-while-revalidate=86400, stale-if-error=604800") ];
    mkRule "/:path*(css|jpg|jpeg|png|gif|ico|webp|svg|woff|woff2|ttf|otf)"
      [ ("Cache-Control", "public, max-age=31536000, immutable") ];
    mkRule "/api/:path*"
      [ ("Cache-Control", "private, no-cache, no-store, must-revalidate") ];
    mkRule "/:path*"
      [ ("X-DNS-Prefetch-Control", "on");
        ("X-Frame-Options", "SAMEORIGIN");
        ("X-Content-Type-Options", "nosniff");
        ("Referrer-Policy", "origin-when-cross-origin");
        ("Permissions-Policy", "geolocation=(), microphone=(), camera=()") ] ].

(** The alternatives of the static-asset rule, as its source lists them. *)
Definition STATIC_EXTENSIONS : list string :=
  ["css"; "jpg"; "jpeg"; "png"; "gif"; "ico"; "webp"; "svg";
   "woff"; "woff2"; "ttf"; "otf"].

End NextConfig.

(* ================================================================== *)
(** ** How the framework applies the rule list and the matcher *)
(* ================================================================== *)

Module Framework.
Import PathToRegexp NextConfig.

(** Header rules are compiled strictly, ignoring case, with [/] as the
    only delimiter, and accept one trailing slash. *)
Definition ROUTE_OPTIONS : Options := mkOptions "/" false true.

Definition route_regex (src : string) : option regex :=
  pathToRegexp ROUTE_OPTIONS src (Opt (Lit false "/")).

Definition route_matches (src path : string) : bool :=
  match route_regex src with
  | Some r => matchb r path
  | None => false
  end.

(** The headers of one rule written onto a header list. *)
Definition add_headers (hs : Http.Headers) (kvs : list (string * string))
  : Http.Headers :=
  fold_left (fun acc kv => Http.set acc (fst kv) (snd kv)) kvs hs.

(** Every matching rule contributes, in the order of the list; a later
    rule overrides an earlier one on the same header name. *)
Definition config_headers (path : string) : Http.Headers :=
  fold_left
    (fun hs r => if route_matches (source r) path
                 then add_headers hs (headers r) else hs)
    headers_config [].

(** A middleware matcher is compiled with the default options and its
    expression is used without the [i] flag. *)
Definition MATCHER_OPTIONS : Options := mkOptions "/#?" true false.

Definition matcher_regex (src : string) : option regex :=
  pathToRegexp MATCHER_OPTIONS src Eps.

(** Whether the middleware is run for a path. *)
Definition middleware_runs (path : string) : bool :=
  existsb
    (fun src => match matcher_regex src with
                | Some r => matchb r path
                | None => false
                end)
    Middleware.matcher.

(** The [Cache-Control] value the middleware stage writes for a request,
    if any: none when the matcher skips the path. *)
Definition middleware_cache_control (request : Http.NextRequest)
  : option string :=
  if middleware_runs (Http.pathname (Http.nextUrl request))
  then Http.get (Http.headers (Middleware.middleware request)) "Cache-Control"
  else None.

(** A pathname as the rules see it: it starts with [/] and has no empty
    segment (the server answers a path with a repeated slash by a redirect
    to the cleaned path before any rule is tried). *)
Definition wf_pathname (p : string) : bool :=
  JsString.startsWith p "/" && negb (JsString.includes p "//").

End Framework.

Unset Implicit Arguments.

(* ================================================================== *)
(** * The vocabulary of the statements *)
(* ================================================================== *)

(** ** Occurrences of a pattern, and the segments of a path *)

Module Occurrence.
Import JsString.

(** [pat] occurs in [p]. *)
Definition occurs (pat p : string) : Prop := exists x y, p = x ++ pat ++ y.

(** [x ++ pat ++ y] shows the leftmost occurrence of [pat]: no
    occurrence starts inside [x]. *)
Definition leftmost (pat x y : string) : Prop :=
  forall x1 c x2, x = x1 ++ String c x2 ->
                  startsWith (String c x2 ++ pat ++ y) pat = false.

Fixpoint no_slash (s : string) : bool :=
  match s with
  | EmptyString => true
  | String c s' => negb (Ascii.eqb c "/") && no_slash s'
  end.

(** A run of slash-led, non-empty segments. *)
Inductive segments : string -> Prop :=
| segments_nil : segments ""
| segments_cons (seg rest : string) :
    seg <> "" -> no_slash seg = true -> segments rest ->
    segments (String "/" (seg ++ rest)).

(** The two malformed variants without their leading slash. *)
Definition SPACE_TAIL   : string := "self-tapping -screws".
Definition ENCODED_TAIL : string := "self-tapping%20-screws".

End Occurrence.

(** ** Classes of paths *)

Module PathClass.

(** The three path classes of the header step of the middleware. *)
Definition is_home (p : string) : Prop := p = "/".
Definition is_blog (p : string) : Prop := exists t, p = "/blog" ++ t.
Definition is_product (p : string) : Prop :=
  (exists t, p = "/products" ++ t) \/ (exists t, p = "/category" ++ t).

(** [p] is [lit] itself or lies below it. *)
Definition under (lit p : string) : Prop :=
  p = lit \/ exists t, p = lit ++ "/" ++ t.

End PathClass.

(** ** The expressions the sources of the configuration compile to *)

Module RouteShape.
Import PathToRegexp.

(** A slash, and one non-empty segment. *)
Definition SL : regex := lit_string true "/".
Definition SEG : regex := Plus (NoneOf ["/"%char]).
(** The key [/:path*]: no segment, or one and more. *)
Definition PATH_KEY : regex := Opt (Cat SL (Cat SEG (Star (Cat SL SEG)))).
(** The strict ending and the one trailing slash a rule accepts. *)
Definition TAIL : regex := Cat Eps (Opt (Lit false "/")).
(** The alternatives of the static-asset rule. *)
Definition EXT : regex :=
  match alts_regex true "css|jpg|jpeg|png|gif|ico|webp|svg|woff|woff2|ttf|otf" with
  | Some r => r
  | None => Void
  end.
(** What the middleware matcher must not see after the first slash. *)
Definition EXCLUDED : regex :=
  match alts_regex false "api|_next/static|_next/image|favicon.ico" with
  | Some r => r
  | None => Void
  end.

Definition STATIC_SOURCE : string :=
  "/:path*(css|jpg|jpeg|png|gif|ico|webp|svg|woff|woff2|ttf|otf)".

End RouteShape.

(** ** Requests and values of the examples *)

(** An instance of the date parser for the examples: the ISO form
    [YYYY-MM-DDTHH:mm:ssZ] gives its milliseconds since the epoch, and any
    other text counts as an invalid date here. *)
Module UtcDate.

Definition digit (c : ascii) : option Z :=
  let n := nat_of_ascii c in
  if ((48 <=? n) && (n <=? 57))%nat then Some (Z.of_nat (n - 48)) else None.

Fixpoint number (s : string) (acc : Z) : option Z :=
  match s with
  | EmptyString => Some acc
  | String c s' =>
      match digit c with
      | Some d => number s' (10 * acc + d)%Z
      | None => None
      end
  end.

Definition field (from len : nat) (s : string) : option Z :=
  number (substring from len s) 0%Z.

Definition days_from_civil (y m d : Z) : Z :=
  let y' := if (m <=? 2)%Z then (y - 1)%Z else y in
  let era := (y' / 400)%Z in
  let yoe := (y' - era * 400)%Z in
  let mp := if (2 <? m)%Z then (m - 3)%Z else (m + 9)%Z in
  let doy := ((153 * mp + 2) / 5 + d - 1)%Z in
  let doe := (yoe * 365 + yoe / 4 - yoe / 100 + doy)%Z in
  (era * 146097 + doe - 719468)%Z.

Definition in_range (lo hi x : Z) : bool := ((lo <=? x) && (x <=? hi))%Z.

Definition getTime (s : string) : option Z :=
  if negb (String.length s =? 20)%nat then None
  else if negb (String.eqb (substring 4 1 s ++ substring 7 1 s
                            ++ substring 10 1 s ++ substring 13 1 s
                            ++ substring 16 1 s ++ substring 19 1 s)
                           "--T::Z") then None
  else
    match field 0 4 s, field 5 2 s, field 8 2 s,
          field 11 2 s, field 14 2 s, field 17 2 s with
    | Some y, Some mo, Some d, Some h, Some mi, Some se =>
        if in_range 1 12 mo && in_range 1 31 d && in_range 0 23 h
           && in_range 0 59 mi && in_range 0 59 se
        then Some ((((days_from_civil y mo d * 24 + h) * 60 + mi) * 60 + se)
                   * 1000)%Z
        else None
    | _, _, _, _, _, _ => None
    end.

End UtcDate.

Module Fixture.
Import Http Js Caching.

(** A request for a path, with a query string. *)
Definition request_for (path : string) : NextRequest :=
  mkRequest (mkURL "https:" "www.onlyscrews.com" path "?ref=nav" "") [].

(** A bare request carrying the given headers. *)
Definition request_with (hs : Headers) : NextRequest :=
  mkRequest (mkURL "https:" "www.onlyscrews.com" "/api/products" "" "") hs.

(** A request with one more header written onto it. *)
Definition with_header (request : NextRequest) (name value : string)
  : NextRequest :=
  mkRequest (nextUrl request) (set (req_headers request) name value).

(** The [ETag] value that wraps [inner]. *)
Definition weak_etag (inner : string) : string :=
  "W/" ++ String dquote (inner ++ String dquote "").

(** A fetch operation that counts its own runs and fails on the first. *)
Definition flaky (n : nat) : Outcome string nat * nat :=
  match n with
  | O => (Rejected "database unreachable", 1)
  | S _ => (Resolved n, S n)
  end.

End Fixture.

(** ** Following redirects, clicking nodes, and the shape of the matcher *)

Module Redirects.
Import JsString Http Middleware.

(** The pathname a client is at after one answer of the middleware: that
    of the redirect target, or the same when the request passes. *)
Definition redirect_step (p : string) : string :=
  if is_malformed p then percent_encode_path (normalize p) else p.

(** The pathname after following [n] answers. *)
Fixpoint follow (n : nat) (p : string) : string :=
  match n with
  | O => p
  | S n' => follow n' (redirect_step p)
  end.

End Redirects.

(** ** Base64 digits read back *)

Module Base64.
Import Js.

(** Every byte. *)
Definition all_ascii : list ascii := map ascii_of_nat (seq 0 256).

Fixpoint index_from (i : N) (alphabet : string) (d : ascii) : N :=
  match alphabet with
  | EmptyString => i
  | String c rest =>
      if Ascii.eqb c d then i else index_from (N.succ i) rest d
  end.

(** The sextet a digit stands for; 64 for a character that is no digit. *)
Definition sextet_of (d : ascii) : N := index_from 0 base64_alphabet d.

(** The four digits of a full group of three bytes, and the digits of a
    last group of one or two bytes, as [toString_base64] writes them. *)
Definition digit1 (a : ascii) : ascii :=
  base64_digit (N.shiftr (N_of_ascii a) 2).
Definition digit2 (a b : ascii) : ascii :=
  base64_digit (N.lor (N.shiftl (N.land (N_of_ascii a) 3) 4)
                      (N.shiftr (N_of_ascii b) 4)).
Definition digit2_last (a : ascii) : ascii :=
  base64_digit (N.shiftl (N.land (N_of_ascii a) 3) 4).
Definition digit3 (b c : ascii) : ascii :=
  base64_digit (N.lor (N.shiftl (N.land (N_of_ascii b) 15) 2)
                      (N.shiftr (N_of_ascii c) 6)).
Definition digit3_last (b : ascii) : ascii :=
  base64_digit (N.shiftl (N.land (N_of_ascii b) 15) 2).
Definition digit4 (c : ascii) : ascii :=
  base64_digit (N.land (N_of_ascii c) 63).

(** The bytes read back from the digits that hold their bits. *)
Definition byte1 (d1 d2 : ascii) : ascii :=
  ascii_of_N (N.lor (N.shiftl (sextet_of d1) 2) (N.shiftr (sextet_of d2) 4)).
Definition byte2 (d2 d3 : ascii) : ascii :=
  ascii_of_N (N.lor (N.shiftl (N.land (sextet_of d2) 15) 4)
                    (N.shiftr (sextet_of d3) 2)).
Definition byte3 (d3 d4 : ascii) : ascii :=
  ascii_of_N (N.lor (N.shiftl (N.land (sextet_of d3) 3) 6) (sextet_of d4)).

(** The base64 text of a string. *)
Definition text64 (s : string) : string := toString_base64 (Buffer_from s).

End Base64.

(** ** Events on the rendered Navbar *)

Module NavbarEvents.
Import Navbar.

Definition children (n : VNode) : list VNode :=
  match n with
  | Element _ _ _ _ cs => cs
  | Link _ _ cs => cs
  | Image _ _ _ _ _ _ => []
  | Text _ => []
  end.

(** The node reached from [n] by a path of child positions. *)
Fixpoint node_at (path : list nat) (n : VNode) : option VNode :=
  match path with
  | [] => Some n
  | i :: rest =>
      match nth_error (children n) i with
      | Some c => node_at rest c
      | None => None
      end
  end.

Definition handlers_of (n : VNode) : list Msg :=
  match handler n with
  | Some m => [m]
  | None => []
  end.

(** The setter calls a click on the node at [path] makes: the [onClick]
    closure of the node, then those of its ancestors as the event bubbles.
    [None] when the tree has no such node. *)
Fixpoint click_handlers (path : list nat) (n : VNode) : option (list Msg) :=
  match path with
  | [] => Some (handlers_of n)
  | i :: rest =>
      match nth_error (children n) i with
      | Some c =>
          option_map (fun ms => (ms ++ handlers_of n)%list)
                     (click_handlers rest c)
      | None => None
      end
  end.

(** A click on a node of the current render. *)
Definition click (s : State) (path : list nat) : State :=
  match click_handlers path (render s) with
  | Some ms => fold_left update ms s
  | None => s
  end.

(** What can happen to a mounted Navbar: a click somewhere in its tree,
    or the run of its mount effect. *)
Inductive Event : Type :=
| Click (path : list nat)
| Effect.

Definition step (s : State) (e : Event) : State :=
  match e with
  | Click path => click s path
  | Effect => update s mount_effect
  end.

Definition run (events : list Event) (s : State) : State :=
  fold_left step events s.

(** The paths of the menu button and of its label. *)
Definition TOGGLE_PATH : list nat := [0; 2].
Definition TOGGLE_LABEL_PATH : list nat := [0; 2; 0].

Definition on_toggle (path : list nat) : bool :=
  match path with
  | [0; 2] => true
  | [0; 2; 0] => true
  | _ => false
  end.

Definition hits_toggle (e : Event) : bool :=
  match e with
  | Click path => on_toggle path
  | Effect => false
  end.

Definition is_effect (e : Event) : bool :=
  match e with
  | Click _ => false
  | Effect => true
  end.

(** The value of an attribute of an element. *)
Definition attribute (name : string) (n : VNode) : option string :=
  match n with
  | Element _ _ attrs _ _ =>
      option_map snd (find (fun kv => String.eqb (fst kv) name) attrs)
  | _ => None
  end.

End NavbarEvents.

(** ** String tests that say what the patterns accept *)

Module RouteTests.
Import JsString PathToRegexp.

(** Empty or slash-led, and without an empty segment. *)
Definition rooted (u : string) : bool :=
  (String.eqb u "" || startsWith u "/") && negb (includes u "//").

(** [p] is [lit], case apart, followed by a rooted rest. *)
Definition under_ci (lit p : string) : bool :=
  String.eqb (toLowerCase (take (String.length lit) p)) lit
  && rooted (drop (String.length lit) p).

(** No line feed and no carriage return. *)
Fixpoint one_line (s : string) : bool :=
  match s with
  | EmptyString => true
  | String c s' =>
      negb (mem_ascii c [ascii_of_nat 10; ascii_of_nat 13]) && one_line s'
  end.

(** [favicon], any one character of a line, [ico]. *)
Definition favicon_ico (s : string) : bool :=
  startsWith s "favicon"
  && match drop 7 s with
     | String c rest => one_line (String c "") && startsWith rest "ico"
     | EmptyString => false
     end.

(** What the matcher of the middleware refuses after the first slash. *)
Definition excluded (rest : string) : bool :=
  startsWith rest "api" || startsWith rest "_next/static"
  || startsWith rest "_next/image" || favicon_ico rest.

(** The last alternative of the matcher's lookahead. *)
Definition FAVICON : regex :=
  match word_regex false "favicon.ico" with
  | Some r => r
  | None => Void
  end.

(** The middleware stage: the answer of the middleware where the
    matcher lets it run. *)
Definition middleware_stage (request : Http.NextRequest)
  : option Http.NextResponse :=
  if Framework.middleware_runs (Http.pathname (Http.nextUrl request))
  then Some (Middleware.middleware request)
  else None.

End RouteTests.

(** Case analysis on every rule test of a goal. *)
Ltac split_rules p :=
  repeat match goal with
         | |- context [Framework.route_matches ?s p] =>
             destruct (Framework.route_matches s p)
         end.

(* ================================================================== *)
(** * Properties *)
(* ================================================================== *)

(** ** Strings: what [startsWith], [includes] and [replace] compute *)

Module JsStringFacts.
Import JsString Occurrence.

Lemma append_nil_r (s : string) : s ++ "" = s.
Proof. induction s; simpl; congruence. Qed.

Lemma append_assoc (a b c : string) : (a ++ b) ++ c = a ++ b ++ c.
Proof. induction a; simpl; congruence. Qed.

Lemma length_append (a b : string) :
  String.length (a ++ b) = String.length a + String.length b.
Proof. induction a; simpl; congruence. Qed.

Lemma startsWith_app (pre t : string) : startsWith (pre ++ t) pre = true.
Proof.
  induction pre as [|c pre IH]; simpl; [reflexivity|].
  now rewrite Ascii.eqb_refl.
Qed.

Lemma startsWith_split (s pre : string) :
  startsWith s pre = true -> s = pre ++ drop (String.length pre) s.
Proof.
  revert s; induction pre as [|c pre IH]; intros s H; simpl in *.
  - reflexivity.
  - destruct s as [|d s]; [discriminate|].
    apply andb_true_iff in H as [Hc Hs].
    apply Ascii.eqb_eq in Hc; subst d.
    simpl. f_equal. now apply IH.
Qed.

Lemma startsWith_iff (s pre : string) :
  startsWith s pre = true <-> exists t, s = pre ++ t.
Proof.
  split.
  - intros H. eexists. now apply startsWith_split.
  - intros [t ->]. apply startsWith_app.
Qed.

Lemma startsWith_length (s pre : string) :
  startsWith s pre = true -> String.length pre <= String.length s.
Proof.
  intros H. apply startsWith_iff in H as [t ->].
  rewrite length_append. lia.
Qed.

Lemma startsWith_app_l (p q pat : string) :
  startsWith p pat = true -> startsWith (p ++ q) pat = true.
Proof.
  intros H. apply startsWith_iff in H as [t ->].
  rewrite append_assoc. apply startsWith_app.
Qed.

(** A prefix no longer than [p] lies inside [p]. *)
Lemma startsWith_app_short (p q pat : string) :
  startsWith (p ++ q) pat = true ->
  String.length pat <= String.length p ->
  startsWith p pat = true.
Proof.
  revert p; induction pat as [|c pat IH]; intros p H L; simpl in *.
  - reflexivity.
  - destruct p as [|d p]; simpl in *; [lia|].
    apply andb_true_iff in H as [Hc Hs]. rewrite Hc. simpl.
    apply IH; [assumption | lia].
Qed.

Lemma drop_app (pre t : string) : drop (String.length pre) (pre ++ t) = t.
Proof. induction pre; simpl; congruence. Qed.

Lemma drop_startsWith_app (p q pat : string) :
  startsWith p pat = true ->
  drop (String.length pat) (p ++ q) = drop (String.length pat) p ++ q.
Proof.
  intros H. apply startsWith_iff in H as [t ->].
  rewrite append_assoc, !drop_app. reflexivity.
Qed.

Lemma includes_cons (c : ascii) (s pat : string) :
  includes (String c s) pat
  = startsWith (String c s) pat || includes s pat.
Proof. reflexivity. Qed.

Lemma includes_here (s pat : string) :
  startsWith s pat = true -> includes s pat = true.
Proof. intros H. destruct s; simpl in *; now rewrite H. Qed.

Lemma includes_later (c : ascii) (s pat : string) :
  includes s pat = true -> includes (String c s) pat = true.
Proof. intros H. simpl. rewrite H. apply orb_true_r. Qed.

Lemma includes_app_r (p q pat : string) :
  includes q pat = true -> includes (p ++ q) pat = true.
Proof.
  intros H. induction p as [|c p IH]; simpl; [assumption|].
  change (includes (p ++ q) pat) with (includes (p ++ q) pat).
  rewrite IH. apply orb_true_r.
Qed.

Lemma includes_intro (x pat y : string) : includes (x ++ pat ++ y) pat = true.
Proof. apply includes_app_r, includes_here, startsWith_app. Qed.

Lemma includes_elim (s pat : string) :
  includes s pat = true -> exists x y, s = x ++ pat ++ y.
Proof.
  induction s as [|c s IH]; simpl; intros H.
  - rewrite orb_false_r in H. apply startsWith_iff in H as [t Ht].
    exists "", t. exact Ht.
  - apply orb_true_iff in H as [H|H].
    + apply startsWith_iff in H as [t Ht]. exists "", t. exact Ht.
    + destruct (IH H) as (x & y & ->). exists (String c x), y. reflexivity.
Qed.

(** [includes] is the substring test. *)
Lemma includes_iff (s pat : string) :
  includes s pat = true <-> exists x y, s = x ++ pat ++ y.
Proof.
  split; [apply includes_elim|].
  intros (x & y & ->). apply includes_intro.
Qed.

Lemma includes_app_l (p q pat : string) :
  includes p pat = true -> includes (p ++ q) pat = true.
Proof.
  intros H. apply includes_elim in H as (x & y & ->).
  rewrite !append_assoc. apply includes_intro.
Qed.

Lemma includes_length (s pat : string) :
  includes s pat = true -> String.length pat <= String.length s.
Proof.
  intros H. apply includes_elim in H as (x & y & ->).
  rewrite !length_append. lia.
Qed.

Lemma replace_absent (s pat rep : string) :
  includes s pat = false -> replace s pat rep = s.
Proof.
  induction s as [|c s IH]; simpl; intros H;
    apply orb_false_iff in H as [H1 H2]; rewrite H1; [reflexivity|].
  f_equal. now apply IH.
Qed.

Lemma replace_here (s pat rep : string) :
  startsWith s pat = true ->
  replace s pat rep = rep ++ drop (String.length pat) s.
Proof. intros H. destruct s; simpl; now rewrite H. Qed.

Lemma replace_next (c : ascii) (s pat rep : string) :
  startsWith (String c s) pat = false ->
  replace (String c s) pat rep = String c (replace s pat rep).
Proof. intros H. cbn [replace]. now rewrite H. Qed.

(** [replace] rewrites exactly the leftmost occurrence. *)
Lemma replace_leftmost (pat rep x y : string) :
  leftmost pat x y -> replace (x ++ pat ++ y) pat rep = x ++ rep ++ y.
Proof.
  induction x as [|c x IH]; intros L.
  - cbn [append]. rewrite replace_here by apply startsWith_app.
    now rewrite drop_app.
  - cbn [append]. rewrite replace_next by apply (L "" c x eq_refl).
    f_equal. apply IH. intros x1 d x2 ->.
    apply (L (String c x1) d x2). reflexivity.
Qed.

Lemma leftmost_exists (s pat : string) :
  includes s pat = true ->
  exists x y, s = x ++ pat ++ y /\ leftmost pat x y.
Proof.
  induction s as [|c s IH]; simpl; intros H.
  - rewrite orb_false_r in H. apply startsWith_iff in H as [t Ht].
    exists "", t. split; [exact Ht|].
    intros x1 d x2 E. destruct x1; discriminate.
  - destruct (startsWith (String c s) pat) eqn:E.
    + apply startsWith_iff in E as [t Ht]. exists "", t.
      split; [exact Ht|]. intros x1 d x2 E'. destruct x1; discriminate.
    + simpl in H. destruct (IH H) as (x & y & -> & L).
      exists (String c x), y. split; [reflexivity|].
      intros x1 d x2 E'. destruct x1 as [|e x1]; simpl in E'.
      * injection E' as <- <-. exact E.
      * injection E' as <- ->. eapply L. reflexivity.
Qed.

(** The first occurrence inside [p] is the one replaced in [p ++ q]. *)
Lemma replace_app_l (p q pat rep : string) :
  includes p pat = true ->
  replace (p ++ q) pat rep = replace p pat rep ++ q.
Proof.
  induction p as [|c p IH]; intros H.
  - simpl in H. rewrite orb_false_r in H.
    destruct pat; [|discriminate].
    rewrite !replace_here by reflexivity. simpl.
    now rewrite append_assoc.
  - destruct (startsWith (String c p) pat) eqn:E.
    + rewrite !replace_here by (try apply startsWith_app_l; exact E).
      rewrite (drop_startsWith_app _ q _ E).
      now rewrite append_assoc.
    + cbn [includes] in H. rewrite E in H. simpl in H.
      assert (E' : startsWith (String c p ++ q) pat = false).
      { destruct (startsWith (String c p ++ q) pat) eqn:E2; [|reflexivity].
        apply startsWith_app_short in E2; [congruence|].
        apply includes_length in H. simpl. lia. }
      rewrite (replace_next _ _ _ rep E).
      cbn [append] in *. rewrite (replace_next _ _ _ rep E').
      f_equal. now apply IH.
Qed.

End JsStringFacts.

(** ** Patterns that start with the only slash they contain *)

Module SlashWords.
Import JsString Occurrence JsStringFacts.

(** A slash-free word that is a prefix of [w ++ "/" ++ t] ends before
    the slash. *)
Lemma fits_before_slash (q w t : string) :
  no_slash q = true ->
  startsWith (w ++ String "/" t) q = true ->
  startsWith w q = true.
Proof.
  revert w; induction q as [|c q IH]; intros w N H; [reflexivity|].
  simpl in N. apply andb_true_iff in N as [Nc Nq].
  destruct w as [|d w]; simpl in *.
  - apply andb_true_iff in H as [Hc _].
    apply Ascii.eqb_eq in Hc. subst c. discriminate.
  - apply andb_true_iff in H as [Hc Hq]. rewrite Hc. simpl.
    now apply IH.
Qed.

Lemma startsWith_before_slash (q u v : string) (c : ascii) :
  no_slash q = true ->
  startsWith (String c u ++ String "/" v) (String "/" q)
  = startsWith (String c u) (String "/" q).
Proof.
  intros N. cbn [append startsWith].
  destruct (Ascii.eqb "/" c); cbn [andb]; [|reflexivity].
  destruct (startsWith u q) eqn:E.
  - now apply startsWith_app_l.
  - destruct (startsWith (u ++ String "/" v) q) eqn:E'; [|reflexivity].
    apply fits_before_slash in E'; congruence.
Qed.

(** An occurrence of a slash word in [u ++ "/" ++ v] lies in [u] or
    starts at or after the slash. *)
Lemma includes_slash_split (q u v : string) :
  no_slash q = true ->
  includes (u ++ String "/" v) (String "/" q)
  = includes u (String "/" q) || includes (String "/" v) (String "/" q).
Proof.
  intros N. induction u as [|c u IH]; [reflexivity|].
  rewrite (includes_cons c u), <- orb_assoc, <- IH.
  cbn [append]. rewrite includes_cons.
  change (String c (u ++ String "/" v)) with (String c u ++ String "/" v).
  rewrite startsWith_before_slash by assumption.
  reflexivity.
Qed.

(** When [p] holds no occurrence, the replacement happens at or after
    the slash that follows [p]. *)
Lemma replace_app_r (q p v rep : string) :
  no_slash q = true ->
  includes p (String "/" q) = false ->
  replace (p ++ String "/" v) (String "/" q) rep
  = p ++ replace (String "/" v) (String "/" q) rep.
Proof.
  intros N. induction p as [|c p IH]; intros H; [reflexivity|].
  rewrite includes_cons in H. apply orb_false_iff in H as [H1 H2].
  rewrite <- (startsWith_before_slash q p v c N) in H1.
  cbn [append] in *. rewrite (replace_next _ _ _ rep H1).
  f_equal. now apply IH.
Qed.

End SlashWords.

(** ** middleware.ts *)

Module MiddlewareFacts.
Import JsString Occurrence JsStringFacts SlashWords Http Middleware.

Lemma encode_app (a b : string) :
  percent_encode_path (a ++ b)
  = percent_encode_path a ++ percent_encode_path b.
Proof.
  induction a as [|c a IH]; [reflexivity|].
  cbn [append percent_encode_path]. now rewrite IH, append_assoc.
Qed.

Lemma path_safe_encode (s : string) :
  path_safe s = true -> percent_encode_path s = s.
Proof.
  induction s as [|c s IH]; [reflexivity|].
  cbn [path_safe percent_encode_path]. intros H.
  apply andb_true_iff in H as [Hc Hs]. apply negb_true_iff in Hc.
  now rewrite Hc, (IH Hs).
Qed.

Lemma path_safe_app (a b : string) :
  path_safe (a ++ b) = path_safe a && path_safe b.
Proof.
  induction a as [|c a IH]; [reflexivity|].
  cbn [append path_safe]. now rewrite IH, andb_assoc.
Qed.

Lemma path_safe_drop (n : nat) (s : string) :
  path_safe s = true -> path_safe (drop n s) = true.
Proof.
  revert s. induction n as [|n IH]; intros [|c s] H; cbn [drop]; try assumption.
  cbn [path_safe] in H. apply andb_true_iff in H as [_ H]. now apply IH.
Qed.

(** Replacing inside a URL-form path by a URL-form text gives one. *)
Lemma path_safe_replace (s pat rep : string) :
  path_safe s = true -> path_safe rep = true ->
  path_safe (replace s pat rep) = true.
Proof.
  intros Hs Hr. induction s as [|c s IH].
  - cbn [replace]. destruct (startsWith "" pat); [|reflexivity].
    rewrite path_safe_app, Hr. now destruct (String.length pat).
  - cbn [replace]. destruct (startsWith (String c s) pat).
    + rewrite path_safe_app, Hr. now apply path_safe_drop.
    + cbn [path_safe] in *. apply andb_true_iff in Hs as [Hc Hs].
      now rewrite Hc, (IH Hs).
Qed.

Lemma path_safe_normalize (p : string) :
  path_safe p = true -> percent_encode_path (normalize p) = normalize p.
Proof.
  intros H. apply path_safe_encode. unfold normalize.
  apply path_safe_replace; [|reflexivity].
  apply path_safe_replace; [assumption | reflexivity].
Qed.

(** The path encoding turns the variant with a space into the encoded
    variant and leaves the encoded one alone. *)
Lemma encode_keeps_occurrence (s : string) :
  includes s MALFORMED_SPACE = true \/ includes s MALFORMED_ENCODED = true ->
  includes (percent_encode_path s) MALFORMED_ENCODED = true.
Proof.
  intros [H|H]; apply includes_elim in H as (u & v & ->);
    rewrite !encode_app; apply includes_intro.
Qed.

Lemma malformed_iff (p : string) :
  is_malformed p = true <->
  (exists x y, p = x ++ "/self-tapping -screws" ++ y) \/
  (exists x y, p = x ++ "/self-tapping%20-screws" ++ y).
Proof.
  unfold is_malformed. rewrite orb_true_iff, !includes_iff. reflexivity.
Qed.

Lemma middleware_redirect (request : NextRequest) :
  is_malformed (pathname (nextUrl request)) = true ->
  middleware request = NextResponse_redirect (redirect_target request) 301.
Proof. intros H. unfold middleware. now rewrite H. Qed.

(** The canonical text is neither malformed variant, whatever follows. *)
Lemma canonical_not_encoded (y : string) :
  includes (CANONICAL ++ y) MALFORMED_ENCODED = includes y MALFORMED_ENCODED.
Proof. reflexivity. Qed.

Lemma canonical_not_space (y : string) :
  includes (CANONICAL ++ y) MALFORMED_SPACE = includes y MALFORMED_SPACE.
Proof. reflexivity. Qed.

Lemma space_skips_encoded (z : string) :
  replace (MALFORMED_SPACE ++ z) MALFORMED_ENCODED CANONICAL
  = MALFORMED_SPACE ++ replace z MALFORMED_ENCODED CANONICAL.
Proof. reflexivity. Qed.

Lemma encoded_skips_space (z : string) :
  replace (MALFORMED_ENCODED ++ z) MALFORMED_SPACE CANONICAL
  = MALFORMED_ENCODED ++ replace z MALFORMED_SPACE CANONICAL.
Proof. reflexivity. Qed.

(** Replacing one variant leaves an occurrence of the other in place. *)
Lemma replace_encoded_keeps_space (s : string) :
  includes s MALFORMED_SPACE = true ->
  includes (replace s MALFORMED_ENCODED CANONICAL) MALFORMED_SPACE = true.
Proof.
  intros H. apply includes_elim in H as (u & v & ->).
  destruct (includes u MALFORMED_ENCODED) eqn:E.
  - rewrite replace_app_l by assumption. apply includes_intro.
  - change (MALFORMED_SPACE ++ v) with (String "/" (SPACE_TAIL ++ v)).
    unfold MALFORMED_ENCODED.
    rewrite (replace_app_r ENCODED_TAIL) by (reflexivity || assumption).
    change (String "/" (SPACE_TAIL ++ v)) with (MALFORMED_SPACE ++ v).
    fold MALFORMED_ENCODED.
    rewrite space_skips_encoded. apply includes_intro.
Qed.

Lemma replace_space_keeps_encoded (s : string) :
  includes s MALFORMED_ENCODED = true ->
  includes (replace s MALFORMED_SPACE CANONICAL) MALFORMED_ENCODED = true.
Proof.
  intros H. apply includes_elim in H as (u & v & ->).
  destruct (includes u MALFORMED_SPACE) eqn:E.
  - rewrite replace_app_l by assumption. apply includes_intro.
  - change (MALFORMED_ENCODED ++ v) with (String "/" (ENCODED_TAIL ++ v)).
    unfold MALFORMED_SPACE.
    rewrite (replace_app_r SPACE_TAIL) by (reflexivity || assumption).
    change (String "/" (ENCODED_TAIL ++ v)) with (MALFORMED_ENCODED ++ v).
    fold MALFORMED_SPACE.
    rewrite encoded_skips_space. apply includes_intro.
Qed.

End MiddlewareFacts.

Module MiddlewareSpec.
Import JsString Occurrence PathClass Fixture.
Import JsStringFacts SlashWords Http Middleware MiddlewareFacts.

Lemma occurs_includes (pat p : string) :
  occurs pat p <-> includes p pat = true.
Proof. unfold occurs. symmetry. apply includes_iff. Qed.

Lemma not_occurs_includes (pat p : string) :
  ~ occurs pat p <-> includes p pat = false.
Proof.
  rewrite occurs_includes. destruct (includes p pat); split; congruence.
Qed.

Lemma not_occurs_app (pat x m y : string) :
  ~ occurs pat (x ++ m ++ y) ->
  includes x pat = false /\ includes y pat = false.
Proof.
  intros H. apply not_occurs_includes in H. split.
  - destruct (includes x pat) eqn:E; [|reflexivity].
    now rewrite (includes_app_l x (m ++ y) pat E) in H.
  - destruct (includes y pat) eqn:E; [|reflexivity].
    rewrite <- append_assoc in H.
    now rewrite (includes_app_r (x ++ m) y pat E) in H.
Qed.

(** With only the space variant present, its leftmost occurrence is the
    one thing that changes. *)
Lemma normalize_space_only (x y : string) :
  leftmost "/self-tapping -screws" x y ->
  ~ occurs "/self-tapping%20-screws" (x ++ "/self-tapping -screws" ++ y) ->
  normalize (x ++ "/self-tapping -screws" ++ y)
  = x ++ "/self-tapping-screws" ++ y.
Proof.
  intros L N. unfold normalize.
  change MALFORMED_SPACE with "/self-tapping -screws".
  rewrite (replace_leftmost _ CANONICAL _ _ L).
  apply replace_absent. apply not_occurs_app in N as [Nx Ny].
  change (includes (x ++ String "/" ("self-tapping-screws" ++ y))
                   (String "/" ENCODED_TAIL) = false).
  rewrite (includes_slash_split ENCODED_TAIL) by reflexivity.
  change (includes x MALFORMED_ENCODED
          || includes (CANONICAL ++ y) MALFORMED_ENCODED = false).
  rewrite canonical_not_encoded.
  apply orb_false_iff. split; assumption.
Qed.

Lemma normalize_encoded_only (x y : string) :
  leftmost "/self-tapping%20-screws" x y ->
  ~ occurs "/self-tapping -screws" (x ++ "/self-tapping%20-screws" ++ y) ->
  normalize (x ++ "/self-tapping%20-screws" ++ y)
  = x ++ "/self-tapping-screws" ++ y.
Proof.
  intros L N. unfold normalize.
  rewrite (replace_absent _ MALFORMED_SPACE CANONICAL)
    by now apply not_occurs_includes.
  change MALFORMED_ENCODED with "/self-tapping%20-screws".
  apply (replace_leftmost _ CANONICAL _ _ L).
Qed.

(** Two occurrences of one variant: the second one stays. *)
Lemma normalize_keeps_second_space (x y z : string) :
  includes (normalize (x ++ MALFORMED_SPACE ++ y ++ MALFORMED_SPACE ++ z))
           MALFORMED_SPACE = true.
Proof.
  unfold normalize. apply replace_encoded_keeps_space.
  replace (x ++ MALFORMED_SPACE ++ y ++ MALFORMED_SPACE ++ z)
    with ((x ++ MALFORMED_SPACE ++ y) ++ MALFORMED_SPACE ++ z)
    by now rewrite !append_assoc.
  rewrite replace_app_l by apply includes_intro.
  apply includes_intro.
Qed.

Lemma normalize_keeps_second_encoded (x y z : string) :
  includes (normalize (x ++ MALFORMED_ENCODED ++ y ++ MALFORMED_ENCODED ++ z))
           MALFORMED_ENCODED = true.
Proof.
  unfold normalize.
  set (p := x ++ MALFORMED_ENCODED ++ y).
  replace (x ++ MALFORMED_ENCODED ++ y ++ MALFORMED_ENCODED ++ z)
    with (p ++ MALFORMED_ENCODED ++ z)
    by (unfold p; now rewrite !append_assoc).
  assert (Hp : includes p MALFORMED_ENCODED = true) by apply includes_intro.
  destruct (includes p MALFORMED_SPACE) eqn:E.
  - rewrite (replace_app_l p _ _ CANONICAL E).
    rewrite replace_app_l by now apply replace_space_keeps_encoded.
    apply includes_intro.
  - change (MALFORMED_ENCODED ++ z) with (String "/" (ENCODED_TAIL ++ z)).
    unfold MALFORMED_SPACE at 1.
    rewrite (replace_app_r SPACE_TAIL) by (reflexivity || assumption).
    change (String "/" (ENCODED_TAIL ++ z)) with (MALFORMED_ENCODED ++ z).
    fold MALFORMED_SPACE. rewrite encoded_skips_space.
    rewrite replace_app_l by assumption.
    apply includes_intro.
Qed.

Lemma home_not_blog (p : string) : is_home p -> ~ is_blog p.
Proof. intros -> [t H]. discriminate. Qed.

Lemma home_not_product (p : string) : is_home p -> ~ is_product p.
Proof. intros -> [[t H]|[t H]]; discriminate. Qed.

Lemma blog_not_product (p : string) : is_blog p -> ~ is_product p.
Proof. intros [t ->] [[u H]|[u H]]; discriminate. Qed.

Lemma is_home_eqb (p : string) : is_home p <-> String.eqb p "/" = true.
Proof. unfold is_home. symmetry. apply String.eqb_eq. Qed.

Lemma is_blog_startsWith (p : string) :
  is_blog p <-> startsWith p "/blog" = true.
Proof. unfold is_blog. symmetry. apply startsWith_iff. Qed.

Lemma is_product_startsWith (p : string) :
  is_product p <->
  startsWith p "/products" || startsWith p "/category" = true.
Proof.
  unfold is_product. rewrite orb_true_iff, !startsWith_iff. reflexivity.
Qed.

End MiddlewareSpec.

Module MiddlewareClaims.
Import JsString Occurrence PathClass Fixture.
Import JsStringFacts Http Middleware MiddlewareFacts MiddlewareSpec.

(** C2.  For a request whose path is not redirected, the response of the
    middleware carries at most one [Cache-Control] entry, chosen by the
    class of the path: exactly ["/"] gives the 60-second directive, a path
    starting with ["/blog"] the 3600-second one, a path starting with
    ["/products"] or ["/category"] the 1800-second one, and in each of
    these classes exactly one entry is present; any other path gets none.
    The three classes are pairwise disjoint. *)
Theorem C2_cache_control_by_path_class (request : NextRequest) :
  let p := pathname (nextUrl request) in
  let hs := headers (middleware request) in
  is_malformed p = false ->
  count hs "Cache-Control" <= 1
  /\ (is_home p ->
      get hs "Cache-Control"
      = Some "public, s-maxage=60, stale-while-revalidate=300, stale-if-error=86400"
      /\ count hs "Cache-Control" = 1)
  /\ (is_blog p ->
      get hs "Cache-Control"
      = Some "public, s-maxage=3600, stale-while-revalidate=86400, stale-if-error=604800"
      /\ count hs "Cache-Control" = 1)
  /\ (is_product p ->
      get hs "Cache-Control"
      = Some "public, s-maxage=1800, stale-while-revalidate=86400, stale-if-error=604800"
      /\ count hs "Cache-Control" = 1)
  /\ (~ is_home p -> ~ is_blog p -> ~ is_product p ->
      get hs "Cache-Control" = None /\ count hs "Cache-Control" = 0)
  /\ ~ (is_home p /\ is_blog p)
  /\ ~ (is_home p /\ is_product p)
  /\ ~ (is_blog p /\ is_product p).
Proof.
  intros p hs M. subst hs. unfold middleware. fold p. rewrite M.
  pose proof (is_home_eqb p) as Hh.
  pose proof (is_blog_startsWith p) as Hb.
  pose proof (is_product_startsWith p) as Hp.
  pose proof (home_not_blog p) as X1.
  pose proof (home_not_product p) as X2.
  pose proof (blog_not_product p) as X3.
  set (home := is_home p) in *. set (blog := is_blog p) in *.
  set (product := is_product p) in *. clearbody home blog product.
  destruct (String.eqb p "/");
    destruct (startsWith p "/blog");
    destruct (startsWith p "/products" || startsWith p "/category");
    vm_compute;
    repeat split; intros; try reflexivity; try lia; try tauto.
Qed.

(** The blog example of the spec, obtained from C2. *)
Lemma C2_witness :
  get (headers (middleware (request_for "/blog/latest"))) "Cache-Control"
  = Some "public, s-maxage=3600, stale-while-revalidate=86400, stale-if-error=604800"
  /\ get (headers (middleware (request_for "/contact"))) "Cache-Control" = None.
Proof.
  split.
  - apply (C2_cache_control_by_path_class (request_for "/blog/latest") eq_refl).
    exists "/latest". reflexivity.
  - apply (C2_cache_control_by_path_class (request_for "/contact") eq_refl).
    + intros H. discriminate H.
    + intros [t H]. discriminate H.
    + intros [[t H]|[t H]]; discriminate H.
Defined.

(** C6.  A request whose path contains ["/self-tapping -screws"] or
    ["/self-tapping%20-screws"] is answered by a 301 redirect that carries
    only a [Location] header (so no [Cache-Control]); the path of the
    target is the request path with the leftmost occurrence of each
    variant replaced by ["/self-tapping-screws"], as the URL stores it
    (percent-encoded, which changes nothing in a path that is in URL
    form); when only one variant occurs, that is
    [x ++ "/self-tapping-screws" ++ y] for the leftmost occurrence
    [x ++ variant ++ y].  A path that contains neither variant is not
    redirected. *)
Theorem C6_malformed_path_redirects (request : NextRequest) :
  let p := pathname (nextUrl request) in
  let r := middleware request in
  (occurs "/self-tapping -screws" p \/ occurs "/self-tapping%20-screws" p ->
     status r = 301
     /\ headers r = [("location", href (redirect_target request))]
     /\ get (headers r) "Cache-Control" = None
     /\ pathname (redirect_target request)
        = percent_encode_path
            (replace (replace p "/self-tapping -screws" "/self-tapping-screws")
                     "/self-tapping%20-screws" "/self-tapping-screws"))
  /\ (path_safe p = true ->
      pathname (redirect_target request)
      = replace (replace p "/self-tapping -screws" "/self-tapping-screws")
                "/self-tapping%20-screws" "/self-tapping-screws")
  /\ (forall x y,
        p = x ++ "/self-tapping -screws" ++ y ->
        leftmost "/self-tapping -screws" x y ->
        ~ occurs "/self-tapping%20-screws" p ->
        pathname (redirect_target request)
        = percent_encode_path x ++ "/self-tapping-screws"
          ++ percent_encode_path y)
  /\ (forall x y,
        p = x ++ "/self-tapping%20-screws" ++ y ->
        leftmost "/self-tapping%20-screws" x y ->
        ~ occurs "/self-tapping -screws" p ->
        pathname (redirect_target request)
        = percent_encode_path x ++ "/self-tapping-screws"
          ++ percent_encode_path y)
  /\ (~ occurs "/self-tapping -screws" p ->
      ~ occurs "/self-tapping%20-screws" p ->
      status r = 200 /\ get (headers r) "Location" = None).
Proof.
  intros p r. subst r. split; [|split; [|split; [|split]]].
  - intros H. apply malformed_iff in H.
    rewrite (middleware_redirect request H). repeat split.
  - intros S. unfold redirect_target. cbn [pathname set_pathname].
    fold p. now apply path_safe_normalize.
  - intros x y E L N. unfold redirect_target. cbn [pathname set_pathname].
    fold p. rewrite E in *. rewrite (normalize_space_only x y L N).
    now rewrite !encode_app.
  - intros x y E L N. unfold redirect_target. cbn [pathname set_pathname].
    fold p. rewrite E in *. rewrite (normalize_encoded_only x y L N).
    now rewrite !encode_app.
  - intros H H0. apply not_occurs_includes in H, H0.
    unfold middleware, is_malformed. fold p.
    change MALFORMED_SPACE with "/self-tapping -screws".
    change MALFORMED_ENCODED with "/self-tapping%20-screws".
    rewrite H, H0. cbn [orb].
    destruct (String.eqb p "/"); destruct (startsWith p "/blog");
      destruct (startsWith p "/products" || startsWith p "/category");
      split; reflexivity.
Qed.

(** The three paths of the spec: both malformed forms of
    [/self-tapping-screws-set] redirect to it, and the canonical
    [/self-tapping-screws] passes through. *)
Lemma C6_witness :
  (status (middleware (request_for "/self-tapping -screws-set")) = 301
   /\ pathname (redirect_target (request_for "/self-tapping -screws-set"))
      = "/self-tapping-screws-set")
  /\ (status (middleware (request_for "/self-tapping%20-screws-set")) = 301
      /\ pathname (redirect_target (request_for "/self-tapping%20-screws-set"))
         = "/self-tapping-screws-set")
  /\ status (middleware (request_for "/self-tapping-screws")) = 200.
Proof.
  split; [split | split; [split|]].
  - apply (C6_malformed_path_redirects (request_for "/self-tapping -screws-set")).
    left. exists "", "-set". reflexivity.
  - apply (proj1 (proj2 (proj2 (C6_malformed_path_redirects
                           (request_for "/self-tapping -screws-set"))))
             "" "-set" eq_refl).
    + intros x1 c x2 E. destruct x1; discriminate E.
    + intros H. apply not_occurs_includes in H; [exact H | reflexivity].
  - apply (C6_malformed_path_redirects (request_for "/self-tapping%20-screws-set")).
    right. exists "", "-set". reflexivity.
  - apply (proj1 (proj2 (proj2 (proj2 (C6_malformed_path_redirects
                           (request_for "/self-tapping%20-screws-set")))))
             "" "-set" eq_refl).
    + intros x1 c x2 E. destruct x1; discriminate E.
    + intros H. apply not_occurs_includes in H; [exact H | reflexivity].
  - apply (C6_malformed_path_redirects (request_for "/self-tapping-screws"));
      apply not_occurs_includes; reflexivity.
Defined.

(** C10.  The URL a redirect points to is the request URL with another
    pathname: protocol, host, query string and fragment are those of the
    request.  Within the pathname only the first occurrence of a variant
    is rewritten: for a path with two occurrences of the same variant, the
    string assigned to [url.pathname] still contains that variant, and so
    does the pathname of the target, where the URL writes a space as
    [%20]; when the leftmost occurrence is shown and the other variant is
    absent, the target is the path with that one occurrence rewritten and
    the second one in place. *)
Theorem C10_redirect_keeps_rest_of_url (request : NextRequest) :
  let p := pathname (nextUrl request) in
  let target := redirect_target request in
  is_malformed p = true ->
  middleware request = NextResponse_redirect target 301
  /\ protocol target = protocol (nextUrl request)
  /\ host target = host (nextUrl request)
  /\ search target = search (nextUrl request)
  /\ hash target = hash (nextUrl request)
  /\ pathname target = percent_encode_path (normalize p)
  /\ (forall x y z,
        p = x ++ "/self-tapping -screws" ++ y ++ "/self-tapping -screws" ++ z ->
        occurs "/self-tapping -screws" (normalize p)
        /\ occurs "/self-tapping%20-screws" (pathname target))
  /\ (forall x y z,
        p = x ++ "/self-tapping%20-screws" ++ y ++ "/self-tapping%20-screws" ++ z ->
        occurs "/self-tapping%20-screws" (normalize p)
        /\ occurs "/self-tapping%20-screws" (pathname target))
  /\ (forall x y z,
        p = x ++ "/self-tapping%20-screws" ++ y ++ "/self-tapping%20-screws" ++ z ->
        leftmost "/self-tapping%20-screws" x (y ++ "/self-tapping%20-screws" ++ z) ->
        ~ occurs "/self-tapping -screws" p ->
        pathname target
        = percent_encode_path x ++ "/self-tapping-screws"
          ++ percent_encode_path y ++ "/self-tapping%20-screws"
          ++ percent_encode_path z).
Proof.
  intros p target M. subst target.
  split; [now apply middleware_redirect|].
  do 5 (split; [reflexivity|]).
  split; [|split]; intros x y z E.
  - rewrite !occurs_includes.
    unfold redirect_target; cbn [pathname set_pathname]; fold p; rewrite E.
    pose proof (normalize_keeps_second_space x y z) as K.
    split; [exact K|]. apply encode_keeps_occurrence. now left.
  - rewrite !occurs_includes.
    unfold redirect_target; cbn [pathname set_pathname]; fold p; rewrite E.
    pose proof (normalize_keeps_second_encoded x y z) as K.
    split; [exact K|]. apply encode_keeps_occurrence. now right.
  - intros L N.
    unfold redirect_target; cbn [pathname set_pathname]; fold p.
    rewrite E in *. rewrite (normalize_encoded_only x _ L N).
    now rewrite !encode_app.
Qed.

(** A doubled malformed segment: only the first one is rewritten, and
    the query string of the request is still there. *)
Lemma C10_witness :
  occurs "/self-tapping%20-screws"
    (pathname (redirect_target
       (request_for "/self-tapping%20-screws/self-tapping%20-screws")))
  /\ search (redirect_target
       (request_for "/self-tapping%20-screws/self-tapping%20-screws"))
     = "?ref=nav"
  /\ pathname (redirect_target
       (request_for "/self-tapping%20-screws/self-tapping%20-screws"))
     = "/self-tapping-screws/self-tapping%20-screws"
  /\ pathname (redirect_target
       (request_for "/self-tapping -screws/self-tapping -screws"))
     = "/self-tapping-screws/self-tapping%20-screws".
Proof.
  split; [|split; [|split]].
  - apply (proj1 (proj2 (proj2 (proj2 (proj2 (proj2 (proj2 (proj2
             (C10_redirect_keeps_rest_of_url
                (request_for "/self-tapping%20-screws/self-tapping%20-screws")
                eq_refl))))))))
             "" "" "").
    reflexivity.
  - apply (C10_redirect_keeps_rest_of_url
             (request_for "/self-tapping%20-screws/self-tapping%20-screws")
             eq_refl).
  - reflexivity.
  - reflexivity.
Defined.

End MiddlewareClaims.

(** ** Header lists *)

Module HeaderFacts.
Import JsString Http.

Lemma filter_other (n m : string) (hs : Headers) :
  toLowerCase n <> toLowerCase m ->
  filter (name_is m) (filter (fun h => negb (name_is n h)) hs)
  = filter (name_is m) hs.
Proof.
  intros D. induction hs as [|h hs IH]; [reflexivity|].
  cbn [filter].
  destruct (name_is n h) eqn:En; destruct (name_is m h) eqn:Em;
    cbn [negb filter]; rewrite ?Em, ?IH; try reflexivity.
  unfold name_is in En, Em. apply String.eqb_eq in En, Em. congruence.
Qed.

(** Writing one header leaves the reading of another name as it was. *)
Lemma get_set_other (hs : Headers) (n m v : string) :
  toLowerCase n <> toLowerCase m ->
  get (set hs n v) m = get hs m.
Proof.
  intros D. unfold get, set.
  rewrite filter_app, (filter_other n m hs D).
  cbn [filter].
  destruct (name_is m (toLowerCase n, v)) eqn:E.
  - unfold name_is in E. cbn [fst] in E.
    apply String.eqb_eq in E. contradiction.
  - now rewrite app_nil_r.
Qed.

Lemma filter_self (n : string) (hs : Headers) :
  filter (name_is n) (filter (fun h => negb (name_is n h)) hs) = [].
Proof.
  induction hs as [|h hs IH]; [reflexivity|].
  cbn [filter]. destruct (name_is n h) eqn:E; cbn [negb filter].
  - exact IH.
  - now rewrite E.
Qed.

(** A written header is read back, once. *)
Lemma get_set_same (hs : Headers) (n v : string) :
  get (set hs n v) n = Some v /\ count (set hs n v) n = 1.
Proof.
  unfold get, count, set. rewrite filter_app, filter_self.
  cbn [filter app].
  assert (E : name_is n (toLowerCase n, v) = true)
    by apply String.eqb_refl.
  rewrite E. split; reflexivity.
Qed.

End HeaderFacts.

(** ** The caching helpers *)

Module CachingClaims.
Import JsString Http Js Caching Fixture HeaderFacts.

Section CachedResponseFacts.
Variable Num : Type.
Variable toJSON : Num -> string.

Lemma cached_response_headers (data : Json Num) (policy : option PolicyName) :
  headers (createCachedResponse toJSON data policy)
  = [ ("cache-control", cacheControl (CACHE_POLICIES (policy_or_default policy)));
      ("content-type", "application/json");
      ("etag", etag_of toJSON data) ].
Proof. reflexivity. Qed.
End CachedResponseFacts.

(** C1.  The policy table has exactly the eight entries [homepage],
    [productList], [productDetail], [blog], [category], [images],
    [noCache], [search], and for each of them the response built by
    [createCachedResponse] carries, as its one [Cache-Control] value, the
    directive of the table of the spec, character for character. *)
Theorem C1_policy_directives :
  map fst entries
  = ["homepage"; "productList"; "productDetail"; "blog";
     "category"; "images"; "noCache"; "search"]
  /\ (forall p : PolicyName, In p all_names)
  /\ NoDup all_names
  /\ forall (Num : Type) (toJSON : Num -> string)
            (data : Json Num) (p : PolicyName),
       count (headers (createCachedResponse toJSON data (Some p)))
             "Cache-Control" = 1
       /\ get (headers (createCachedResponse toJSON data (Some p)))
              "Cache-Control"
          = Some
              match p with
              | homepage =>
                  "public, s-maxage=60, stale-while-revalidate=300, stale-if-error=86400"
              | productList =>
                  "public, s-maxage=1800, stale-while-revalidate=86400, stale-if-error=604800"
              | productDetail =>
                  "public, s-maxage=3600, stale-while-revalidate=86400, stale-if-error=604800"
              | blog =>
                  "public, s-maxage=3600, stale-while-revalidate=86400, stale-if-error=604800"
              | category =>
                  "public, s-maxage=3600, stale-while-revalidate=86400, stale-if-error=604800"
              | images => "public, max-age=31536000, immutable"
              | noCache => "private, no-cache, no-store, must-revalidate"
              | search => "public, s-maxage=900, stale-while-revalidate=3600"
              end.
Proof.
  split; [reflexivity|]. split; [intros []; cbn; tauto|].
  split.
  - repeat constructor; cbn; intuition discriminate.
  - intros Num toJSON data p. rewrite cached_response_headers.
    generalize (etag_of toJSON data). intros e. destruct p; split; reflexivity.
Qed.

Lemma take_length (n : nat) (s : string) : String.length (take n s) <= n.
Proof.
  revert s. induction n as [|n IH]; intros [|c s]; cbn [take String.length];
    try lia.
  specialize (IH s). lia.
Qed.

(** C4.  Whatever the runtime writes for a number, [createCachedResponse]
    answers with status 200, the JSON text of the data as body,
    [Content-Type: application/json], the directive of the named policy as
    [Cache-Control] (that of [productList] when the name is omitted), and
    as [ETag] the letters [W/], a double quote, the first 20 characters of
    the base64 form of the JSON text, and a double quote.  The [ETag] is a
    function of the data alone; for [{"a":1}] it wraps [eyJhIjoxfQ==]. *)
Theorem C4_cached_response (Num : Type) (toJSON : Num -> string)
        (data : Json Num) (policy : option PolicyName) :
  let r := createCachedResponse toJSON data policy in
  status r = 200
  /\ body r = Some (JSON_stringify toJSON data)
  /\ get (headers r) "Content-Type" = Some "application/json"
  /\ get (headers r) "Cache-Control"
     = Some (cacheControl
               (CACHE_POLICIES
                  match policy with Some p => p | None => productList end))
  /\ get (headers (createCachedResponse toJSON data None)) "Cache-Control"
     = Some "public, s-maxage=1800, stale-while-revalidate=86400, stale-if-error=604800"
  /\ get (headers r) "ETag"
     = Some (weak_etag
               (take 20 (toString_base64
                           (Buffer_from (JSON_stringify toJSON data)))))
  /\ (forall policy' : option PolicyName,
        get (headers (createCachedResponse toJSON data policy')) "ETag"
        = get (headers r) "ETag")
  /\ (forall one : Num,
        toJSON one = "1" ->
        get (headers (createCachedResponse toJSON (JObj [("a", JNum one)]) policy))
            "ETag"
        = Some (weak_etag "eyJhIjoxfQ=="))
  /\ String.length
       (take 20 (toString_base64 (Buffer_from (JSON_stringify toJSON data))))
     <= 20.
Proof.
  intros r. subst r. rewrite !cached_response_headers.
  split; [reflexivity|]. split; [reflexivity|].
  remember (etag_of toJSON data) as e eqn:He.
  remember (cacheControl (CACHE_POLICIES (policy_or_default policy)))
    as c eqn:Hc.
  split; [reflexivity|].
  split; [transitivity (Some c); [reflexivity | now subst c]|].
  split; [reflexivity|].
  split; [transitivity (Some e); [reflexivity | now subst e]|].
  split; [intros policy'; rewrite cached_response_headers, <- He;
          reflexivity|].
  split.
  - intros one H1. rewrite cached_response_headers.
    unfold etag_of. cbn [JSON_stringify]. rewrite H1. reflexivity.
  - apply take_length.
Qed.

(** The object [{"a":1}] with integers as numbers, and a text long enough
    for its base64 form to be cut at 20 characters. *)
Lemma C4_witness :
  get (headers (createCachedResponse integer_toJSON
                  (JObj [("a", JNum 1%Z)]) None)) "ETag"
  = Some (weak_etag "eyJhIjoxfQ==")
  /\ get (headers (createCachedResponse integer_toJSON
                     (JArr [JStr "M6 hex bolt"; JNum 25%Z; JBool true; JNull])
                     (Some search))) "ETag"
     = Some (weak_etag "WyJNNiBoZXggYm9sdCIs").
Proof.
  split.
  - apply (C4_cached_response Z integer_toJSON (JObj [("a", JNum 1%Z)]) None).
    reflexivity.
  - reflexivity.
Defined.

End CachingClaims.

(** ** Conditional requests *)

Module ConditionalClaims.
Import JsString Http Js Caching Fixture HeaderFacts.

Lemma check_depends_on_if_modified_since
      (D : string -> option Z) (r1 r2 : NextRequest) (lm : string) :
  get (req_headers r1) "if-modified-since"
  = get (req_headers r2) "if-modified-since" ->
  checkConditionalRequest D r1 lm = checkConditionalRequest D r2 lm.
Proof. intros H. unfold checkConditionalRequest. now rewrite H. Qed.

Lemma num_ge_true (a b : option Z) :
  num_ge a b = true <-> exists c s, a = Some c /\ b = Some s /\ (s <= c)%Z.
Proof.
  unfold num_ge. destruct a as [x|], b as [y|]; split;
    try discriminate; try (intros (c & s & H1 & H2 & _); discriminate).
  - intros H. exists x, y. repeat split. now apply Z.leb_le.
  - intros (c & s & [= ->] & [= ->] & H). now apply Z.leb_le.
Qed.

(** C5.  With a date parser that rejects the empty string (as the
    runtime's does), [checkConditionalRequest] returns the empty 304
    response exactly when the request has an [if-modified-since] header
    whose time and the time of [lastModified] both parse and the former
    is not earlier; in every other case it returns [null].  It never
    returns anything else; a header value that does not parse gives
    [null]; and the result is the same for two requests that agree on
    [if-modified-since], so writing any [if-none-match] value changes
    nothing. *)
Theorem C5_conditional_request
        (Date_getTime : string -> option Z) (request : NextRequest)
        (lastModified : string) :
  Date_getTime "" = None ->
  let result := checkConditionalRequest Date_getTime request lastModified in
  let ims := get (req_headers request) "if-modified-since" in
  (result = Some (mkResponse 304 [] None) <->
     exists v c s, ims = Some v /\ Date_getTime v = Some c
                   /\ Date_getTime lastModified = Some s /\ (s <= c)%Z)
  /\ (result = Some (mkResponse 304 [] None) \/ result = None)
  /\ (forall v, ims = Some v -> Date_getTime v = None -> result = None)
  /\ (ims = None -> result = None)
  /\ (forall v,
        checkConditionalRequest Date_getTime
          (with_header request "if-none-match" v) lastModified
        = result)
  /\ (forall request',
        get (req_headers request') "if-modified-since" = ims ->
        checkConditionalRequest Date_getTime request' lastModified = result).
Proof.
  intros Hempty result ims.
  assert (R : result =
              if truthy ims then
                match ims with
                | Some v => if num_ge (Date_getTime v) (Date_getTime lastModified)
                            then Some not_modified else None
                | None => None
                end
              else None) by reflexivity.
  split; [|split; [|split; [|split; [|split]]]].
  - rewrite R. split.
    + destruct ims as [v|]; [|discriminate]. cbn [truthy].
      destruct (String.eqb v ""); cbn [negb]; [discriminate|].
      destruct (num_ge _ _) eqn:E; [|discriminate]. intros _.
      apply num_ge_true in E as (c & s & Hc & Hs & L).
      now exists v, c, s.
    + intros (v & c & s & -> & Hc & Hs & L). cbn [truthy].
      destruct (String.eqb v "") eqn:Ev.
      * apply String.eqb_eq in Ev. subst v. congruence.
      * cbn [negb].
        assert (E : num_ge (Date_getTime v) (Date_getTime lastModified) = true)
          by (apply num_ge_true; now exists c, s).
        now rewrite E.
  - rewrite R. destruct ims as [v|]; [|now right]. cbn [truthy].
    destruct (negb _); [|now right].
    destruct (num_ge _ _); [now left | now right].
  - intros v Hv Hn. rewrite R, Hv. cbn [truthy].
    destruct (negb _); [|reflexivity]. now rewrite Hn.
  - intros Hn. rewrite R, Hn. reflexivity.
  - intros v. apply check_depends_on_if_modified_since.
    cbn [with_header req_headers]. apply get_set_other.
    intros H. discriminate H.
  - intros request' H. now apply check_depends_on_if_modified_since.
Qed.

(** The two dated requests of the spec, with the ISO parser: a later
    [if-modified-since] gives the 304 response, an earlier one [null]. *)
Lemma C5_witness :
  UtcDate.getTime "" = None
  /\ checkConditionalRequest UtcDate.getTime
       (request_with [("if-modified-since", "2024-01-02T00:00:00Z");
                      ("if-none-match", "W/anything")])
       "2024-01-01T00:00:00Z"
     = Some (mkResponse 304 [] None)
  /\ checkConditionalRequest UtcDate.getTime
       (request_with [("if-modified-since", "2023-12-31T00:00:00Z")])
       "2024-01-01T00:00:00Z"
     = None
  /\ checkConditionalRequest UtcDate.getTime
       (request_with [("if-modified-since", "yesterday")])
       "2024-01-01T00:00:00Z"
     = None.
Proof.
  split; [reflexivity|]. split; [|split].
  - apply (proj2 (proj1
             (C5_conditional_request UtcDate.getTime
                (request_with [("if-modified-since", "2024-01-02T00:00:00Z");
                               ("if-none-match", "W/anything")])
                "2024-01-01T00:00:00Z" eq_refl))).
    exists "2024-01-02T00:00:00Z", 1704153600000%Z, 1704067200000%Z.
    split; [reflexivity|]. split; [reflexivity|]. split; [reflexivity|].
    apply Z.leb_le. reflexivity.
  - reflexivity.
  - apply (proj1 (proj2 (proj2
             (C5_conditional_request UtcDate.getTime
                (request_with [("if-modified-since", "yesterday")])
                "2024-01-01T00:00:00Z" eq_refl)))
             "yesterday"); reflexivity.
Defined.

End ConditionalClaims.

(** ** The with-cache wrapper *)

Module WithCacheClaims.
Import Caching Fixture.

(** C8.  Whatever the fetch operation does, [withCache] invokes it
    exactly once (the call counter grows by one and the state of the
    operation is the state after one run).  If it resolves with [v], the
    wrapper resolves with the pair of [v] and the policy object of the
    given name, [productList] when the name is omitted, and writes
    nothing to the error console; if it rejects with [e], the wrapper
    writes one line ["Cache fetch error:"] with [e] to the error console
    and rejects with the same [e]. *)
Theorem C8_with_cache (W Err T : Type)
        (fetchFn : W -> Outcome Err T * W) (policy : option PolicyName)
        (w : World W Err) :
  let run := withCache fetchFn policy w in
  calls (snd run) = S (calls w)
  /\ store (snd run) = snd (fetchFn (store w))
  /\ match fst (fetchFn (store w)) with
     | Resolved v =>
         fst run
         = Resolved (v, CACHE_POLICIES
                          match policy with Some p => p | None => productList end)
         /\ console (snd run) = console w
     | Rejected e =>
         fst run = Rejected e
         /\ console (snd run)
            = (console w ++ [("Cache fetch error:", e)])%list
     | Pending =>
         fst run = Pending /\ console (snd run) = console w
     end.
Proof.
  intros run. subst run.
  unfold withCache, try_catch, bind, invoke, ret, throw, console_error.
  destruct (fetchFn (store w)) as [[v|e|] s']; cbn;
    repeat split; destruct policy; reflexivity.
Qed.

(** On the failing run the error comes back as thrown, after one call and
    one console line; on the next run the value comes with [productList]. *)
Example with_cache_flaky :
  withCache flaky None (mkWorld 0 [] 0)
  = (Rejected "database unreachable",
     mkWorld 1 [("Cache fetch error:", "database unreachable")] 1)
  /\ withCache flaky None (mkWorld 1 [] 1)
     = (Resolved (1, CACHE_POLICIES productList), mkWorld 2 [] 2).
Proof. split; reflexivity. Qed.

End WithCacheClaims.

(** ** The Navbar *)

Module NavbarClaims.
Import Navbar.

Lemma toggle_flips (s : State) :
  activate_toggle s = mkState (negb (open s)) (isMounted s).
Proof. destruct s as [[] m]; reflexivity. Qed.

(** C9.  The menu starts closed; activating the toggle flips [open] and
    nothing else, so two activations give back the state they started
    from; the mobile panel is in the rendered tree exactly when [open] is
    true; the desktop row, and the mobile panel when it is rendered,
    hold exactly the links Products to [/products], About to [/about] and
    Contact to [/contact], in that order. *)
Theorem C9_navbar_menu :
  open initial = false
  /\ (forall s, open (activate_toggle s) = negb (open s))
  /\ (forall s, isMounted (activate_toggle s) = isMounted s)
  /\ (forall s, activate_toggle (activate_toggle s) = s)
  /\ activate_toggle (activate_toggle initial) = initial
  /\ (forall s, mobile_panel s <> [] <-> open s = true)
  /\ (forall s, List.length (mobile_panel s) = if open s then 1 else 0)
  /\ (forall s,
        map links (desktop_row s)
        = [[("Products", "/products"); ("About", "/about");
            ("Contact", "/contact")]])
  /\ (forall s,
        map links (mobile_panel s)
        = if open s
          then [[("Products", "/products"); ("About", "/about");
                 ("Contact", "/contact")]]
          else [])
  /\ (forall s, open (update s mount_effect) = open s).
Proof.
  split; [reflexivity|].
  split; [intros s; now rewrite toggle_flips|].
  split; [intros s; now rewrite toggle_flips|].
  split; [intros [[] m]; reflexivity|].
  split; [reflexivity|].
  split; [intros [[] m]; cbn; split; congruence|].
  split; [intros [[] m]; reflexivity|].
  split; [intros [[] m]; reflexivity|].
  split; [intros [[] m]; reflexivity|].
  intros s; reflexivity.
Qed.

End NavbarClaims.

(** ** Regular expressions: the matcher decides the language *)

Module RegexFacts.
Import PathToRegexp JsStringFacts.

Lemma append_eq_nil (a b : string) : a ++ b = "" -> a = "" /\ b = "".
Proof. destruct a; [auto | discriminate]. Qed.

Lemma nullable_lang (r : regex) : nullable r = true <-> lang r "".
Proof.
  induction r as [| |ci c|cs|r1 IH1 r2 IH2|r1 IH1 r2 IH2|r IH
                  |r1 IH1 r2 IH2|r IH]; cbn [nullable lang].
  - split; [discriminate | contradiction].
  - split; reflexivity.
  - split; [discriminate | intros (d & H & _); discriminate].
  - split; [discriminate | intros (d & H & _); discriminate].
  - rewrite andb_true_iff, IH1, IH2. split.
    + intros [H1 H2]. now exists "", "".
    + intros (s1 & s2 & E & H1 & H2).
      symmetry in E. apply append_eq_nil in E as [-> ->]. now split.
  - rewrite orb_true_iff, IH1, IH2. reflexivity.
  - split; [constructor | reflexivity].
  - rewrite andb_true_iff, IH1, IH2. reflexivity.
  - rewrite negb_true_iff. split.
    + intros H L. apply IH in L. congruence.
    + intros H. destruct (nullable r); [|reflexivity].
      exfalso. apply H, IH. reflexivity.
Qed.

(** A starred word that starts with [d] starts with one factor that
    starts with [d]. *)
Lemma star_cons (L : string -> Prop) (d : ascii) (s : string) :
  star L (String d s) ->
  exists s1 s2, s = s1 ++ s2 /\ L (String d s1) /\ star L s2.
Proof.
  intros H. remember (String d s) as w eqn:E.
  induction H as [|s1 s2 H1 H2 IH]; [discriminate|].
  destruct s1 as [|c s1]; cbn [append] in E.
  - now apply IH.
  - injection E as -> <-. now exists s1, s2.
Qed.

Lemma deriv_lang (r : regex) (d : ascii) (s : string) :
  lang (deriv d r) s <-> lang r (String d s).
Proof.
  revert s.
  induction r as [| |ci c|cs|r1 IH1 r2 IH2|r1 IH1 r2 IH2|r IH
                  |r1 IH1 r2 IH2|r IH]; intros s; cbn [deriv lang].
  - reflexivity.
  - split; [contradiction | discriminate].
  - destruct (lit_accepts ci c d) eqn:E; cbn [lang]; split.
    + intros ->. now exists d.
    + intros (d' & [= <- ->] & _). reflexivity.
    + contradiction.
    + intros (d' & [= <- ->] & A). congruence.
  - destruct (mem_ascii d cs) eqn:E; cbn [lang]; split.
    + contradiction.
    + intros (d' & [= <- ->] & A). congruence.
    + intros ->. now exists d.
    + intros (d' & [= <- ->] & _). reflexivity.
  - destruct (nullable r1) eqn:N; cbn [lang]; split.
    + intros [(s1 & s2 & -> & H1 & H2) | H].
      * exists (String d s1), s2. split; [reflexivity|].
        split; [now apply IH1 | assumption].
      * exists "", (String d s). split; [reflexivity|].
        split; [now apply nullable_lang | now apply IH2].
    + intros (s1 & s2 & E & H1 & H2). destruct s1 as [|c s1]; cbn [append] in E.
      * right. subst s2. now apply IH2.
      * injection E as <- ->. left. exists s1, s2.
        split; [reflexivity|]. split; [now apply IH1 | assumption].
    + intros (s1 & s2 & -> & H1 & H2).
      exists (String d s1), s2. split; [reflexivity|].
      split; [now apply IH1 | assumption].
    + intros (s1 & s2 & E & H1 & H2). destruct s1 as [|c s1]; cbn [append] in E.
      * apply nullable_lang in H1. congruence.
      * injection E as <- ->. exists s1, s2.
        split; [reflexivity|]. split; [now apply IH1 | assumption].
  - rewrite IH1, IH2. reflexivity.
  - split.
    + intros (s1 & s2 & -> & H1 & H2).
      apply (@star_app (lang r) (String d s1) s2); [now apply IH | assumption].
    + intros H. apply star_cons in H as (s1 & s2 & -> & H1 & H2).
      exists s1, s2. split; [reflexivity|]. split; [now apply IH | assumption].
  - rewrite IH1, IH2. reflexivity.
  - rewrite IH. reflexivity.
Qed.

(** [matchb] decides membership in the language. *)
Theorem matchb_lang (r : regex) (s : string) :
  matchb r s = true <-> lang r s.
Proof.
  revert r. induction s as [|d s IH]; intros r; cbn [matchb].
  - apply nullable_lang.
  - rewrite IH. apply deriv_lang.
Qed.

Lemma matchb_false (r : regex) (s : string) :
  matchb r s = false <-> ~ lang r s.
Proof.
  rewrite <- matchb_lang. destruct (matchb r s); split; congruence.
Qed.

(** *** Languages of the building blocks *)

Lemma lang_cat (r1 r2 : regex) (s1 s2 : string) :
  lang r1 s1 -> lang r2 s2 -> lang (Cat r1 r2) (s1 ++ s2).
Proof. intros H1 H2. now exists s1, s2. Qed.

Lemma lang_opt_nil (r : regex) : lang (Opt r) "".
Proof. right. reflexivity. Qed.

Lemma lang_opt (r : regex) (s : string) : lang r s -> lang (Opt r) s.
Proof. intros H. now left. Qed.

Lemma lang_any_star (s : string) : lang (Star AnyChar) s.
Proof.
  induction s as [|c s IH]; [constructor|].
  apply (@star_app _ (String c "") s); [|exact IH].
  exists c. split; reflexivity.
Qed.

Lemma lit_accepts_refl (ci : bool) (c : ascii) : lit_accepts ci c c = true.
Proof. unfold lit_accepts. destruct ci; apply Ascii.eqb_refl. Qed.

(** A literal matches itself, with or without the [i] flag. *)
Lemma lang_lit_string (ci : bool) (s : string) : lang (lit_string ci s) s.
Proof.
  induction s as [|c s IH]; [reflexivity|].
  apply (lang_cat _ _ (String c "") s); [|exact IH].
  exists c. split; [reflexivity | apply lit_accepts_refl].
Qed.

(** What a literal matches has the lower-cased letters of the literal. *)
Lemma lang_lit_string_inv (ci : bool) (s t : string) :
  lang (lit_string ci s) t ->
  JsString.toLowerCase t = JsString.toLowerCase s.
Proof.
  revert t. induction s as [|c s IH]; intros t H; cbn [lit_string lang] in H.
  - now subst t.
  - destruct H as (s1 & s2 & -> & (d & -> & A) & H2).
    cbn [append JsString.toLowerCase]. rewrite (IH _ H2). f_equal.
    unfold lit_accepts in A. destruct ci.
    + apply Ascii.eqb_eq in A. congruence.
    + apply Ascii.eqb_eq in A. congruence.
Qed.

Lemma lang_lit_string_sensitive (s t : string) :
  lang (lit_string false s) t -> t = s.
Proof.
  revert t. induction s as [|c s IH]; intros t H; cbn [lit_string lang] in H.
  - assumption.
  - destruct H as (s1 & s2 & -> & (d & -> & A) & H2).
    apply Ascii.eqb_eq in A. subst d. cbn [append]. f_equal. now apply IH.
Qed.

End RegexFacts.

(** ** Paths and the rules they match *)

Module RouteFacts.
Import JsString Occurrence RouteShape.
Import JsStringFacts SlashWords PathToRegexp RegexFacts.
Import NextConfig Framework.

Lemma route_regex_all : route_regex "/:path*" = Some (Cat PATH_KEY TAIL).
Proof. reflexivity. Qed.

Lemma route_regex_prefixed (lit : string) :
  lit = "/api" \/ lit = "/category" \/ lit = "/blog" \/ lit = "/products" ->
  route_regex (lit ++ "/:path*")
  = Some (Cat (lit_string true lit) (Cat PATH_KEY TAIL)).
Proof. intros [->|[->|[->| ->]]]; reflexivity. Qed.

Lemma route_regex_static :
  route_regex STATIC_SOURCE = Some (Cat PATH_KEY (Cat EXT TAIL)).
Proof. reflexivity. Qed.

Lemma matcher_regex_eq :
  matcher_regex "/((?!api|_next/static|_next/image|favicon.ico).*)"
  = Some (Cat (lit_string false "/")
              (And (Not (Cat EXCLUDED (Star AnyChar)))
                   (Cat (Star Dot)
                        (Cat (Opt (one_of ["/"; "#"; "?"]%char)) Eps)))).
Proof. reflexivity. Qed.

(** The tokens of the static-asset source: the [:path*] key, then a group
    with no prefix, whose alternatives are the listed extensions. *)
Example static_source_tokens :
  parse STATIC_SOURCE
  = Some [ TKey (inl "path") "/" DefaultPattern (Some "*"%char);
           TKey (inr 0) ""
                (Custom "css|jpg|jpeg|png|gif|ico|webp|svg|woff|woff2|ttf|otf")
                None ]
  /\ split_at "|" "css|jpg|jpeg|png|gif|ico|webp|svg|woff|woff2|ttf|otf"
     = STATIC_EXTENSIONS.
Proof. split; reflexivity. Qed.

(** The tokens of the middleware matcher: one group after the slash. *)
Example matcher_tokens :
  map parse Middleware.matcher
  = [ Some [ TKey (inr 0) "/"
                  (Custom "(?!api|_next/static|_next/image|favicon.ico).*")
                  None ] ].
Proof. reflexivity. Qed.

(** *** The shape of a pathname *)

Lemma no_slash_head (c : ascii) (s : string) :
  no_slash (String c s) = true -> c <> "/"%char /\ no_slash s = true.
Proof.
  cbn [no_slash]. intros H. apply andb_true_iff in H as [H1 H2].
  split; [|assumption]. intros ->. discriminate.
Qed.

Lemma includes_tail (c : ascii) (s pat : string) :
  includes (String c s) pat = false -> includes s pat = false.
Proof.
  rewrite includes_cons. intros H. now apply orb_false_iff in H.
Qed.

(** Without a doubled slash, a string is a slash-free head, a run of
    segments, and perhaps one last slash. *)
Lemma shape (s : string) :
  includes s "//" = false ->
  exists seg body,
    no_slash seg = true /\ segments body
    /\ (s = seg ++ body \/ s = seg ++ body ++ "/").
Proof.
  induction s as [|c s IH]; intros H.
  - exists "", "". repeat split; [constructor | now left].
  - destruct (IH (includes_tail _ _ _ H)) as (seg & body & N & B & E).
    destruct (Ascii.eqb c "/") eqn:Ec.
    + apply Ascii.eqb_eq in Ec. subst c.
      destruct seg as [|d seg].
      * cbn [append] in E. destruct B as [|sg rest Hsg Nsg Brest].
        -- destruct E as [->| ->].
           ++ exists "", "". repeat split; [constructor | now right].
           ++ discriminate H.
        -- destruct E as [->| ->]; discriminate H.
      * exists "", (String "/" (String d seg ++ body)).
        split; [reflexivity|]. split.
        -- constructor; [discriminate | assumption | assumption].
        -- destruct E as [->| ->]; [left | right]; cbn [append];
             rewrite ?append_assoc; reflexivity.
    + exists (String c seg), body. split.
      * cbn [no_slash]. now rewrite Ec, N.
      * split; [assumption|]. destruct E as [->| ->]; [left | right]; reflexivity.
Qed.

(** The same for a string that is empty or starts with a slash: there
    is no head. *)
Lemma shape_rooted (s : string) :
  includes s "//" = false ->
  s = "" \/ startsWith s "/" = true ->
  exists body, segments body /\ (s = body \/ s = body ++ "/").
Proof.
  intros H R. destruct (shape s H) as (seg & body & N & B & E).
  destruct seg as [|d seg]; [now exists body|].
  exfalso. apply no_slash_head in N as [Nd _].
  destruct R as [->|R].
  - destruct E as [E|E]; discriminate E.
  - assert (S : startsWith s "/" = true) by exact R.
    destruct E as [->| ->]; cbn [append startsWith] in S;
      apply andb_true_iff in S as [S _];
      apply Ascii.eqb_eq in S; congruence.
Qed.

Lemma not_slash_mem (c : ascii) :
  c <> "/"%char -> mem_ascii c ["/"%char] = false.
Proof.
  intros H. unfold mem_ascii. cbn [existsb]. rewrite orb_false_r.
  now apply Ascii.eqb_neq.
Qed.

Lemma lang_seg (seg : string) :
  seg <> "" -> no_slash seg = true -> lang SEG seg.
Proof.
  intros Hne N. destruct seg as [|c seg]; [contradiction|]. clear Hne.
  apply no_slash_head in N as [Nc N].
  apply (lang_cat _ _ (String c "") seg).
  - exists c. split; [reflexivity | now apply not_slash_mem].
  - induction seg as [|d seg IH]; [constructor|].
    apply no_slash_head in N as [Nd N].
    apply (@star_app _ (String d "") seg); [|now apply IH].
    exists d. split; [reflexivity | now apply not_slash_mem].
Qed.

Lemma lang_segments (body : string) :
  segments body -> lang (Star (Cat SL SEG)) body.
Proof.
  induction 1 as [|seg rest Hne N B IH]; [constructor|].
  change (String "/" (seg ++ rest)) with (String "/" seg ++ rest).
  apply (@star_app _ (String "/" seg) rest); [|exact IH].
  apply (lang_cat _ _ "/" seg); [apply lang_lit_string | now apply lang_seg].
Qed.

Lemma lang_path_key (body : string) : segments body -> lang PATH_KEY body.
Proof.
  intros [|seg rest Hne N B]; [apply lang_opt_nil|].
  apply lang_opt.
  apply (lang_cat _ _ "/" (seg ++ rest)); [apply lang_lit_string|].
  apply lang_cat; [now apply lang_seg | now apply lang_segments].
Qed.

Lemma lang_tail_nil : lang TAIL "".
Proof. apply (lang_cat _ _ "" ""); [reflexivity | apply lang_opt_nil]. Qed.

Lemma lang_tail_slash : lang TAIL "/".
Proof.
  apply (lang_cat _ _ "" "/"); [reflexivity|]. apply lang_opt.
  exists "/"%char. split; reflexivity.
Qed.

(** A rooted string without a doubled slash is what [/:path*] accepts. *)
Lemma lang_rooted (s : string) :
  includes s "//" = false ->
  s = "" \/ startsWith s "/" = true ->
  lang (Cat PATH_KEY TAIL) s.
Proof.
  intros H R. destruct (shape_rooted s H R) as (body & B & [->| ->]).
  - rewrite <- (append_nil_r body).
    apply lang_cat; [now apply lang_path_key | apply lang_tail_nil].
  - apply lang_cat; [now apply lang_path_key | apply lang_tail_slash].
Qed.

Lemma wf_parts (p : string) :
  wf_pathname p = true ->
  startsWith p "/" = true /\ includes p "//" = false.
Proof.
  unfold wf_pathname. intros H. apply andb_true_iff in H as [H1 H2].
  now apply negb_true_iff in H2.
Qed.

Lemma includes_false_app (p q pat : string) :
  includes (p ++ q) pat = false ->
  includes p pat = false /\ includes q pat = false.
Proof.
  intros H. split.
  - destruct (includes p pat) eqn:E; [|reflexivity].
    now rewrite (includes_app_l p q pat E) in H.
  - destruct (includes q pat) eqn:E; [|reflexivity].
    now rewrite (includes_app_r p q pat E) in H.
Qed.

(** Every well-formed pathname matches the catch-all rule. *)
Lemma all_matches (p : string) :
  wf_pathname p = true -> route_matches "/:path*" p = true.
Proof.
  intros W. apply wf_parts in W as [R D].
  unfold route_matches. rewrite route_regex_all.
  apply matchb_lang, lang_rooted; [assumption | now right].
Qed.

(** A well-formed pathname that is [lit], or [lit] and a slash and more,
    matches [lit/:path*]. *)
Lemma prefixed_matches (lit u : string) :
  lit = "/api" \/ lit = "/category" \/ lit = "/blog" \/ lit = "/products" ->
  wf_pathname (lit ++ u) = true ->
  u = "" \/ startsWith u "/" = true ->
  route_matches (lit ++ "/:path*") (lit ++ u) = true.
Proof.
  intros L W R. apply wf_parts in W as [_ D].
  apply includes_false_app in D as [_ D].
  unfold route_matches. rewrite (route_regex_prefixed lit L).
  apply matchb_lang, lang_cat; [apply lang_lit_string | now apply lang_rooted].
Qed.

End RouteFacts.

Module RuleFacts.
Import JsString Occurrence RouteShape.
Import JsStringFacts SlashWords PathToRegexp RegexFacts.
Import NextConfig Framework RouteFacts.

Lemma last_char (a b : string) (c d : ascii) :
  a ++ String c "" = b ++ String d "" -> c = d.
Proof.
  revert b. induction a as [|e a IH]; intros [|e' b] H; cbn [append] in H.
  - now injection H.
  - injection H as _ H. destruct b; discriminate H.
  - injection H as _ H. destruct a; discriminate H.
  - injection H as _ H. now apply (IH b).
Qed.

Lemma lang_ext (ext : string) : In ext STATIC_EXTENSIONS -> lang EXT ext.
Proof.
  intros H. apply matchb_lang.
  repeat (destruct H as [<-|H]; [reflexivity|]). destruct H.
Qed.

Lemma EXT_alternatives :
  EXT = Alt (lit_string true "css")
       (Alt (lit_string true "jpg")
       (Alt (lit_string true "jpeg")
       (Alt (lit_string true "png")
       (Alt (lit_string true "gif")
       (Alt (lit_string true "ico")
       (Alt (lit_string true "webp")
       (Alt (lit_string true "svg")
       (Alt (lit_string true "woff")
       (Alt (lit_string true "woff2")
       (Alt (lit_string true "ttf")
            (lit_string true "otf"))))))))))).
Proof. reflexivity. Qed.

(** What the group of the static-asset rule matches is one of the listed
    words, case apart. *)
Lemma lang_ext_inv (w : string) :
  lang EXT w -> In (toLowerCase w) STATIC_EXTENSIONS.
Proof.
  rewrite EXT_alternatives. cbn [lang]. intros H.
  repeat (destruct H as [H|H];
          [apply lang_lit_string_inv in H; rewrite H; vm_compute;
           repeat (first [left; reflexivity | right])|]).
  apply lang_lit_string_inv in H. rewrite H. vm_compute.
  repeat (first [left; reflexivity | right]).
Qed.

Lemma lang_tail_inv (t : string) : lang TAIL t -> t = "" \/ t = "/".
Proof.
  intros (s1 & s2 & -> & H1 & H2). cbn [lang] in H1. subst s1.
  destruct H2 as [(d & -> & A)|H2]; [right | now left].
  apply Ascii.eqb_eq in A. now subst d.
Qed.

(** A path that matches the static-asset rule ends in one of the listed
    words, case apart, or in one of them and a slash. *)
Lemma static_match_ending (p : string) :
  route_matches STATIC_SOURCE p = true ->
  exists stem w, (p = stem ++ w \/ p = stem ++ w ++ "/")
                 /\ In (toLowerCase w) STATIC_EXTENSIONS.
Proof.
  unfold route_matches. rewrite route_regex_static. intros H.
  apply matchb_lang in H.
  destruct H as (stem & rest & -> & _ & (w & t & -> & Hw & Ht)).
  exists stem, w. split; [|now apply lang_ext_inv].
  apply lang_tail_inv in Ht as [->| ->]; [left | right]; [|reflexivity].
  now rewrite append_nil_r.
Qed.

(** A well-formed pathname that ends in a dot and a listed extension
    matches the static-asset rule. *)
Lemma static_matches (stem ext : string) :
  In ext STATIC_EXTENSIONS ->
  wf_pathname (stem ++ "." ++ ext) = true ->
  route_matches STATIC_SOURCE (stem ++ "." ++ ext) = true.
Proof.
  intros X W. apply wf_parts in W as [R D].
  replace (stem ++ "." ++ ext) with ((stem ++ ".") ++ ext ++ "") in *
    by now rewrite append_assoc, append_nil_r.
  apply includes_false_app in D as [D _].
  assert (R' : startsWith (stem ++ ".") "/" = true).
  { destruct stem as [|c stem]; [discriminate R|].
    cbn [append startsWith] in *. apply andb_true_iff in R as [R _].
    now rewrite R. }
  destruct (shape_rooted _ D (or_intror R')) as (body & B & [E|E]).
  - unfold route_matches. rewrite route_regex_static.
    apply matchb_lang, lang_cat; [rewrite E; now apply lang_path_key|].
    apply lang_cat; [now apply lang_ext | apply lang_tail_nil].
  - apply last_char in E. discriminate E.
Qed.

Lemma toLowerCase_length (s : string) :
  String.length (toLowerCase s) = String.length s.
Proof. induction s; cbn [toLowerCase String.length]; congruence. Qed.

Lemma take_app_length (a b : string) (n : nat) :
  n = String.length a -> take n (a ++ b) = a.
Proof.
  intros ->. induction a as [|c a IH]; cbn [String.length take append].
  - reflexivity.
  - now rewrite IH.
Qed.

(** A path whose first letters are not those of [lit], case apart, does
    not match [lit/:path*]. *)
Lemma prefixed_rejects (lit p : string) :
  lit = "/api" \/ lit = "/category" \/ lit = "/blog" \/ lit = "/products" ->
  toLowerCase (take (String.length lit) p) <> toLowerCase lit ->
  route_matches (lit ++ "/:path*") p = false.
Proof.
  intros L N. unfold route_matches. rewrite (route_regex_prefixed lit L).
  apply matchb_false. intros (s1 & s2 & -> & H1 & _).
  apply lang_lit_string_inv in H1. apply N.
  rewrite take_app_length; [assumption|].
  now rewrite <- (toLowerCase_length s1), H1, toLowerCase_length.
Qed.


(** Outside the API routes the static-asset rule is. *)
Lemma static_rule_wins (p : string) :
  route_matches STATIC_SOURCE p = true ->
  route_matches "/api/:path*" p = false ->
  Http.get (config_headers p) "Cache-Control"
  = Some "public, max-age=31536000, immutable".
Proof.
  intros S A. unfold config_headers, headers_config.
  cbn [fold_left source headers]. fold STATIC_SOURCE. rewrite S, A.
  split_rules p; vm_compute; reflexivity.
Qed.

Lemma category_rule_wins (p : string) :
  route_matches "/category/:path*" p = true ->
  route_matches STATIC_SOURCE p = false ->
  route_matches "/api/:path*" p = false ->
  Http.get (config_headers p) "Cache-Control"
  = Some "public, s-maxage=3600, stale-while-revalidate=86400, stale-if-error=604800".
Proof.
  intros C S A. unfold config_headers, headers_config.
  cbn [fold_left source headers]. fold STATIC_SOURCE. rewrite C, S, A.
  split_rules p; vm_compute; reflexivity.
Qed.

(** The catch-all rule is last, so its five headers are final. *)
Lemma global_headers (p : string) :
  route_matches "/:path*" p = true ->
  Http.get (config_headers p) "X-DNS-Prefetch-Control" = Some "on"
  /\ Http.get (config_headers p) "X-Frame-Options" = Some "SAMEORIGIN"
  /\ Http.get (config_headers p) "X-Content-Type-Options" = Some "nosniff"
  /\ Http.get (config_headers p) "Referrer-Policy"
     = Some "origin-when-cross-origin"
  /\ Http.get (config_headers p) "Permissions-Policy"
     = Some "geolocation=(), microphone=(), camera=()".
Proof.
  intros G. unfold config_headers, headers_config.
  cbn [fold_left source headers]. rewrite G.
  split_rules p; vm_compute; repeat split.
Qed.



(** On a product or category path that is not redirected the middleware
    writes the 1800-second directive. *)
Lemma middleware_product_directive (request : Http.NextRequest) :
  Middleware.is_malformed (Http.pathname (Http.nextUrl request)) = false ->
  startsWith (Http.pathname (Http.nextUrl request)) "/products"
  || startsWith (Http.pathname (Http.nextUrl request)) "/category" = true ->
  Http.get (Http.headers (Middleware.middleware request)) "Cache-Control"
  = Some "public, s-maxage=1800, stale-while-revalidate=86400, stale-if-error=604800".
Proof.
  intros M P. unfold Middleware.middleware. rewrite M, P.
  destruct (String.eqb _ "/"); destruct (startsWith _ "/blog"); reflexivity.
Qed.

End RuleFacts.

(** ** The header rules and the matcher *)

Module RuleClaims.
Import JsString Occurrence PathClass RouteShape.
Import JsStringFacts Http PathToRegexp.
Import NextConfig Framework RouteFacts RuleFacts.

Lemma under_category_matches (p : string) :
  wf_pathname p = true -> under "/category" p ->
  route_matches "/category/:path*" p = true
  /\ route_matches "/api/:path*" p = false
  /\ startsWith p "/products" || startsWith p "/category" = true.
Proof.
  intros W [->|[t ->]].
  - repeat split; reflexivity.
  - split; [|split].
    + apply (prefixed_matches "/category" ("/" ++ t)); [tauto | exact W | now right].
    + apply (prefixed_rejects "/api"); [tauto|]. vm_compute. discriminate.
    + reflexivity.
Qed.

(** X1.  The rule list of [headers()] has the seven sources of the
    configuration, and among its rules [/category/:path*] carries the
    3600-second directive, the static-asset rule the one-year immutable
    directive, and [/:path*] the five security headers.  For a
    well-formed pathname [p] (a leading slash, no empty segment):
    under [/category] the category rule matches and, unless [p] also
    matches the static-asset rule, the configuration gives the 3600-second
    directive, where the middleware, on a request it does not redirect
    ([p] holds neither malformed self-tapping text), gives the 1800-second
    one, and on a request it redirects answers 301 with no
    [Cache-Control]; if [p] ends in a dot and one of the twelve listed extensions, the
    static-asset rule matches and, outside [/api], the configuration
    gives the immutable directive; [/data.json] does not match that
    rule; and the catch-all rule matches [p], so the configuration gives
    [p] the five security headers. *)
Theorem header_rules_on_wellformed_paths (p : string) :
  wf_pathname p = true ->
  map source headers_config
  = ["/"; "/blog/:path*"; "/products/:path*"; "/category/:path*";
     "/:path*(css|jpg|jpeg|png|gif|ico|webp|svg|woff|woff2|ttf|otf)";
     "/api/:path*"; "/:path*"]
  /\ In (mkRule "/category/:path*"
           [("Cache-Control",
             "public, s-maxage=3600, stale-while-revalidate=86400, stale-if-error=604800")])
        headers_config
  /\ In (mkRule "/:path*(css|jpg|jpeg|png|gif|ico|webp|svg|woff|woff2|ttf|otf)"
           [("Cache-Control", "public, max-age=31536000, immutable")])
        headers_config
  /\ In (mkRule "/:path*"
           [("X-DNS-Prefetch-Control", "on");
            ("X-Frame-Options", "SAMEORIGIN");
            ("X-Content-Type-Options", "nosniff");
            ("Referrer-Policy", "origin-when-cross-origin");
            ("Permissions-Policy", "geolocation=(), microphone=(), camera=()")])
        headers_config
  /\ (under "/category" p ->
      route_matches "/category/:path*" p = true
      /\ (route_matches
            "/:path*(css|jpg|jpeg|png|gif|ico|webp|svg|woff|woff2|ttf|otf)" p
          = false ->
          get (config_headers p) "Cache-Control"
          = Some "public, s-maxage=3600, stale-while-revalidate=86400, stale-if-error=604800"))
  /\ (forall request : NextRequest,
        pathname (nextUrl request) = p -> under "/category" p ->
        Middleware.is_malformed p = false ->
        get (Http.headers (Middleware.middleware request)) "Cache-Control"
        = Some "public, s-maxage=1800, stale-while-revalidate=86400, stale-if-error=604800")
  /\ (forall request : NextRequest,
        pathname (nextUrl request) = p -> under "/category" p ->
        Middleware.is_malformed p = true ->
        status (Middleware.middleware request) = 301
        /\ get (Http.headers (Middleware.middleware request)) "Cache-Control"
           = None)
  /\ (forall stem ext : string,
        In ext ["css"; "jpg"; "jpeg"; "png"; "gif"; "ico"; "webp"; "svg";
                "woff"; "woff2"; "ttf"; "otf"] ->
        p = stem ++ "." ++ ext ->
        route_matches
          "/:path*(css|jpg|jpeg|png|gif|ico|webp|svg|woff|woff2|ttf|otf)" p
        = true
        /\ (route_matches "/api/:path*" p = false ->
            get (config_headers p) "Cache-Control"
            = Some "public, max-age=31536000, immutable"))
  /\ route_matches
       "/:path*(css|jpg|jpeg|png|gif|ico|webp|svg|woff|woff2|ttf|otf)"
       "/data.json"
     = false
  /\ route_matches "/:path*" p = true
  /\ get (config_headers p) "X-DNS-Prefetch-Control" = Some "on"
  /\ get (config_headers p) "X-Frame-Options" = Some "SAMEORIGIN"
  /\ get (config_headers p) "X-Content-Type-Options" = Some "nosniff"
  /\ get (config_headers p) "Referrer-Policy" = Some "origin-when-cross-origin"
  /\ get (config_headers p) "Permissions-Policy"
     = Some "geolocation=(), microphone=(), camera=()".
Proof.
  intros W.
  split; [reflexivity|].
  split; [cbn; tauto|]. split; [cbn; tauto|]. split; [cbn; tauto|].
  split.
  { intros U. destruct (under_category_matches p W U) as (C & A & _).
    split; [exact C|]. intros S. now apply category_rule_wins. }
  split.
  { intros request E U M.
    destruct (under_category_matches p W U) as (_ & _ & P).
    apply middleware_product_directive; rewrite E; assumption. }
  split.
  { intros request E U M. unfold Middleware.middleware.
    rewrite E, M. split; reflexivity. }
  split.
  { intros stem ext X E. subst p.
    pose proof (static_matches stem ext X W) as S.
    split; [exact S|]. intros A. now apply static_rule_wins. }
  split; [reflexivity|].
  split; [now apply all_matches|].
  apply global_headers. now apply all_matches.
Qed.

(** A category page, a stylesheet below it, and the security headers. *)
Lemma header_rules_witness :
  get (config_headers "/category/bolts") "Cache-Control"
  = Some "public, s-maxage=3600, stale-while-revalidate=86400, stale-if-error=604800"
  /\ get (config_headers "/category/style.css") "Cache-Control"
     = Some "public, max-age=31536000, immutable"
  /\ get (config_headers "/contact") "X-Frame-Options" = Some "SAMEORIGIN".
Proof.
  split; [|split].
  - apply (header_rules_on_wellformed_paths "/category/bolts" eq_refl).
    + right. exists "bolts". reflexivity.
    + reflexivity.
  - apply (proj1 (proj2 (proj2 (proj2 (proj2 (proj2 (proj2 (proj2
             (header_rules_on_wellformed_paths "/category/style.css" eq_refl))))))))
             "/category/style" "css").
    + cbn. tauto.
    + reflexivity.
    + reflexivity.
  - apply (header_rules_on_wellformed_paths "/contact" eq_refl).
Defined.

(** X2.  A path that matches the static-asset rule ends, case apart, in
    one of the twelve listed words, or in one of them and a slash: a path
    with any other ending, such as [/data.json], does not match. *)
Theorem static_rule_needs_listed_ending (p : string) :
  route_matches
    "/:path*(css|jpg|jpeg|png|gif|ico|webp|svg|woff|woff2|ttf|otf)" p = true ->
  exists stem w,
    (p = stem ++ w \/ p = stem ++ w ++ "/")
    /\ In (toLowerCase w)
          ["css"; "jpg"; "jpeg"; "png"; "gif"; "ico"; "webp"; "svg";
           "woff"; "woff2"; "ttf"; "otf"].
Proof. apply static_match_ending. Qed.

Lemma static_rule_needs_listed_ending_witness :
  exists stem w,
    ("/img/Logo.PNG" = stem ++ w \/ "/img/Logo.PNG" = stem ++ w ++ "/")
    /\ In (toLowerCase w)
          ["css"; "jpg"; "jpeg"; "png"; "gif"; "ico"; "webp"; "svg";
           "woff"; "woff2"; "ttf"; "otf"].
Proof. apply (static_rule_needs_listed_ending "/img/Logo.PNG" eq_refl). Defined.

(** C3.  The static-asset rule is not tied to the extension of a path: its
    group follows the [:path*] key with no dot in between, so a path whose
    extension is outside the listed set, [/styles/main.scss], and a blog
    page with no extension at all, [/blog/intro-to-css], match the rule
    and are given the one-year immutable directive, against the blog rule
    in the second case. *)
Theorem C3_static_rule_beyond_extensions :
  ~ In "scss" STATIC_EXTENSIONS
  /\ route_matches
       "/:path*(css|jpg|jpeg|png|gif|ico|webp|svg|woff|woff2|ttf|otf)"
       "/styles/main.scss" = true
  /\ get (config_headers "/styles/main.scss") "Cache-Control"
     = Some "public, max-age=31536000, immutable"
  /\ route_matches "/blog/:path*" "/blog/intro-to-css" = true
  /\ route_matches
       "/:path*(css|jpg|jpeg|png|gif|ico|webp|svg|woff|woff2|ttf|otf)"
       "/blog/intro-to-css" = true
  /\ get (config_headers "/blog/intro-to-css") "Cache-Control"
     = Some "public, max-age=31536000, immutable"
  /\ route_matches
       "/:path*(css|jpg|jpeg|png|gif|ico|webp|svg|woff|woff2|ttf|otf)"
       "/data.json" = false.
Proof.
  split.
  - cbn. intros H.
    repeat (destruct H as [H|H]; [discriminate H|]). exact H.
  - repeat split; vm_compute; reflexivity.
Qed.




End RuleClaims.

(* ================================================================== *)
(** * Further properties *)
(* ================================================================== *)

(** ** More on the middleware *)

Module RedirectFacts.
Import JsString Occurrence Http Middleware Redirects.
Import JsStringFacts SlashWords MiddlewareFacts MiddlewareSpec.

Lemma replace_length (s pat rep : string) :
  includes s pat = true ->
  String.length (replace s pat rep) + String.length pat
  = String.length s + String.length rep.
Proof.
  intros H. apply leftmost_exists in H as (x & y & -> & L).
  rewrite (replace_leftmost pat rep x y L), !length_append. lia.
Qed.

(** The rewrite removes one character for the variant with a space and
    three for the encoded one. *)
Lemma normalize_length (p : string) :
  is_malformed p = true ->
  String.length (normalize p) < String.length p
  /\ String.length p <= String.length (normalize p) + 4.
Proof.
  unfold is_malformed, normalize. intros H.
  destruct (includes p MALFORMED_SPACE) eqn:A.
  - pose proof (replace_length p MALFORMED_SPACE CANONICAL A) as LA.
    cbn [String.length MALFORMED_SPACE CANONICAL] in LA.
    destruct (includes (replace p MALFORMED_SPACE CANONICAL) MALFORMED_ENCODED)
      eqn:B.
    + pose proof (replace_length _ MALFORMED_ENCODED CANONICAL B) as LB.
      cbn [String.length MALFORMED_ENCODED CANONICAL] in LB.
      unfold MALFORMED_SPACE, MALFORMED_ENCODED, CANONICAL in *. lia.
    + rewrite (replace_absent _ MALFORMED_ENCODED CANONICAL B).
      unfold MALFORMED_SPACE, CANONICAL in *. lia.
  - cbn [orb] in H.
    rewrite (replace_absent p MALFORMED_SPACE CANONICAL A).
    pose proof (replace_length p MALFORMED_ENCODED CANONICAL H) as LB.
    cbn [String.length MALFORMED_ENCODED CANONICAL] in LB.
    unfold MALFORMED_ENCODED, CANONICAL in *. lia.
Qed.

Lemma path_safe_normalized (p : string) :
  path_safe p = true -> path_safe (normalize p) = true.
Proof.
  intros H. unfold normalize.
  apply path_safe_replace; [|reflexivity].
  apply path_safe_replace; [assumption | reflexivity].
Qed.

Lemma redirect_step_safe (p : string) :
  path_safe p = true -> path_safe (redirect_step p) = true.
Proof.
  intros H. unfold redirect_step. destruct (is_malformed p); [|assumption].
  rewrite (path_safe_normalize p H). now apply path_safe_normalized.
Qed.

Lemma follow_safe (n : nat) (p : string) :
  path_safe p = true -> path_safe (follow n p) = true.
Proof.
  revert p. induction n as [|n IH]; intros p S; [assumption|].
  cbn [follow]. apply IH. now apply redirect_step_safe.
Qed.

Lemma follow_passed (n : nat) (p : string) :
  is_malformed p = false -> follow n p = p.
Proof.
  intros H. induction n as [|n IH]; [reflexivity|].
  cbn [follow]. unfold redirect_step. now rewrite H.
Qed.

Lemma follow_ends (n : nat) (p : string) :
  path_safe p = true -> String.length p <= n ->
  is_malformed (follow n p) = false.
Proof.
  revert p. induction n as [|n IH]; intros p S L.
  - destruct p; [reflexivity | cbn in L; lia].
  - destruct (is_malformed p) eqn:M.
    + cbn [follow]. apply IH; [now apply redirect_step_safe|].
      unfold redirect_step. rewrite M, (path_safe_normalize p S).
      pose proof (normalize_length p M). lia.
    + now rewrite follow_passed.
Qed.

(** A slash word that does not occur in [x] has its leftmost occurrence
    in [x ++ word ++ y] right after [x]. *)
Lemma leftmost_after (q x y : string) :
  no_slash q = true ->
  includes x (String "/" q) = false ->
  leftmost (String "/" q) x y.
Proof.
  intros N H x1 c x2 ->.
  change (String "/" q ++ y) with (String "/" (q ++ y)).
  rewrite (startsWith_before_slash q x2 (q ++ y) c N).
  destruct (startsWith (String c x2) (String "/" q)) eqn:E; [|reflexivity].
  apply includes_here in E.
  now rewrite (includes_app_r x1 _ _ E) in H.
Qed.

Lemma space_not_encoded (y : string) :
  includes (MALFORMED_SPACE ++ y) MALFORMED_ENCODED
  = includes y MALFORMED_ENCODED.
Proof. reflexivity. Qed.

Lemma encoded_not_space (y : string) :
  includes (MALFORMED_ENCODED ++ y) MALFORMED_SPACE
  = includes y MALFORMED_SPACE.
Proof. reflexivity. Qed.

Lemma includes_space_split (u v : string) :
  includes (u ++ String "/" v) MALFORMED_SPACE
  = includes u MALFORMED_SPACE || includes (String "/" v) MALFORMED_SPACE.
Proof. apply (includes_slash_split SPACE_TAIL). reflexivity. Qed.

Lemma includes_encoded_split (u v : string) :
  includes (u ++ String "/" v) MALFORMED_ENCODED
  = includes u MALFORMED_ENCODED || includes (String "/" v) MALFORMED_ENCODED.
Proof. apply (includes_slash_split ENCODED_TAIL). reflexivity. Qed.

(** Around the canonical text, a string is malformed only through what is
    before or after it. *)
Lemma malformed_around_canonical (x y : string) :
  is_malformed (x ++ CANONICAL ++ y) = is_malformed x || is_malformed y.
Proof.
  unfold is_malformed.
  change (CANONICAL ++ y) with (String "/" ("self-tapping-screws" ++ y)).
  rewrite includes_space_split, includes_encoded_split.
  change (String "/" ("self-tapping-screws" ++ y)) with (CANONICAL ++ y).
  rewrite canonical_not_space, canonical_not_encoded.
  destruct (includes x MALFORMED_SPACE), (includes x MALFORMED_ENCODED),
    (includes y MALFORMED_SPACE), (includes y MALFORMED_ENCODED); reflexivity.
Qed.

(** One occurrence of one variant, nothing malformed around it: the
    rewrite gives the canonical text in its place. *)
Lemma normalize_single (V x y : string) :
  V = MALFORMED_SPACE \/ V = MALFORMED_ENCODED ->
  is_malformed x = false -> is_malformed y = false ->
  normalize (x ++ V ++ y) = x ++ CANONICAL ++ y.
Proof.
  unfold is_malformed. intros HV Hx Hy.
  apply orb_false_iff in Hx as [XA XB], Hy as [YA YB].
  destruct HV as [->| ->].
  - apply normalize_space_only.
    + now apply (leftmost_after SPACE_TAIL).
    + apply not_occurs_includes.
      change ("/self-tapping -screws" ++ y)
        with (String "/" (SPACE_TAIL ++ y)).
      change "/self-tapping%20-screws" with MALFORMED_ENCODED.
      rewrite includes_encoded_split.
      change (String "/" (SPACE_TAIL ++ y)) with (MALFORMED_SPACE ++ y).
      now rewrite space_not_encoded, XB, YB.
  - apply normalize_encoded_only.
    + now apply (leftmost_after ENCODED_TAIL).
    + apply not_occurs_includes.
      change ("/self-tapping%20-screws" ++ y)
        with (String "/" (ENCODED_TAIL ++ y)).
      change "/self-tapping -screws" with MALFORMED_SPACE.
      rewrite includes_space_split.
      change (String "/" (ENCODED_TAIL ++ y)) with (MALFORMED_ENCODED ++ y).
      now rewrite encoded_not_space, XA, YA.
Qed.

End RedirectFacts.

Module RedirectExtras.
Import JsString Occurrence Fixture Http Middleware Redirects.
Import JsStringFacts MiddlewareFacts MiddlewareSpec RedirectFacts HeaderFacts.

(** X3.  Redirects of the middleware never loop: for a pathname in URL
    form, each redirect points to a strictly shorter pathname (by one to
    four characters) that is again in URL form, so a client that follows
    the answers of the middleware, for as many hops as the path has
    characters, ends at a path the middleware passes through. *)
Theorem redirects_end (request : NextRequest) :
  let p := pathname (nextUrl request) in
  path_safe p = true ->
  (is_malformed p = true ->
     redirect_step p = pathname (redirect_target request)
     /\ path_safe (pathname (redirect_target request)) = true
     /\ String.length (pathname (redirect_target request)) < String.length p
     /\ String.length p
        <= String.length (pathname (redirect_target request)) + 4)
  /\ is_malformed (follow (String.length p) p) = false
  /\ status (middleware
               (mkRequest (set_pathname (nextUrl request)
                                        (follow (String.length p) p))
                          (req_headers request))) = 200.
Proof.
  intros p S. split; [|split].
  - intros M. unfold redirect_target, redirect_step.
    cbn [pathname set_pathname]. fold p.
    rewrite M, (path_safe_normalize p S).
    split; [reflexivity|].
    split; [now apply path_safe_normalized | now apply normalize_length].
  - now apply follow_ends.
  - pose proof (follow_ends (String.length p) p S (le_n _)) as E.
    pose proof (follow_safe (String.length p) p S) as F.
    unfold middleware. cbn [nextUrl pathname set_pathname].
    rewrite (path_safe_encode _ F), E.
    destruct (String.eqb _ "/"); destruct (startsWith _ "/blog");
      destruct (startsWith _ "/products" || startsWith _ "/category");
      reflexivity.
Qed.

Lemma redirects_end_witness :
  follow 3 "/shop/self-tapping%20-screws/self-tapping%20-screws/m4"
  = "/shop/self-tapping-screws/self-tapping-screws/m4"
  /\ is_malformed
       (follow (String.length
                  "/shop/self-tapping%20-screws/self-tapping%20-screws/m4")
               "/shop/self-tapping%20-screws/self-tapping%20-screws/m4")
     = false.
Proof.
  split; [reflexivity|].
  apply (redirects_end
           (request_for "/shop/self-tapping%20-screws/self-tapping%20-screws/m4")
           eq_refl).
Defined.

(** X4.  When a path holds one occurrence of one malformed variant and
    nothing malformed before or after it, a single redirect suffices: the
    target has the canonical text in its place and is itself passed
    through by the middleware. *)
Theorem single_occurrence_one_hop (request : NextRequest) (V x y : string) :
  V = "/self-tapping -screws" \/ V = "/self-tapping%20-screws" ->
  pathname (nextUrl request) = x ++ V ++ y ->
  is_malformed x = false -> is_malformed y = false ->
  status (middleware request) = 301
  /\ pathname (redirect_target request)
     = percent_encode_path x ++ "/self-tapping-screws"
       ++ percent_encode_path y
  /\ is_malformed (x ++ "/self-tapping-screws" ++ y) = false
  /\ (path_safe (x ++ y) = true ->
      is_malformed (pathname (redirect_target request)) = false).
Proof.
  intros HV E Hx Hy.
  assert (M : is_malformed (pathname (nextUrl request)) = true).
  { rewrite E. apply malformed_iff.
    destruct HV as [->| ->]; [left | right]; now exists x, y. }
  assert (N : normalize (x ++ V ++ y) = x ++ CANONICAL ++ y)
    by now apply normalize_single.
  assert (C : is_malformed (x ++ CANONICAL ++ y) = false)
    by now rewrite malformed_around_canonical, Hx, Hy.
  split; [now rewrite (middleware_redirect request M)|].
  assert (T : pathname (redirect_target request)
              = percent_encode_path x ++ CANONICAL ++ percent_encode_path y).
  { unfold redirect_target. cbn [pathname set_pathname].
    rewrite E, N. now rewrite !encode_app. }
  split; [exact T|]. split; [exact C|].
  intros S. rewrite path_safe_app in S. apply andb_true_iff in S as [Sx Sy].
  rewrite T, (path_safe_encode x Sx), (path_safe_encode y Sy). exact C.
Qed.

Lemma single_occurrence_one_hop_witness :
  status (middleware (request_for "/shop/self-tapping%20-screws/m4")) = 301
  /\ pathname (redirect_target (request_for "/shop/self-tapping%20-screws/m4"))
     = "/shop/self-tapping-screws/m4"
  /\ is_malformed "/shop/self-tapping-screws/m4" = false.
Proof.
  pose proof (single_occurrence_one_hop
                (request_for "/shop/self-tapping%20-screws/m4")
                "/self-tapping%20-screws" "/shop" "/m4"
                (or_intror eq_refl) eq_refl eq_refl eq_refl) as (A & B & C & _).
  split; [exact A|]. split; [exact B | exact C].
Defined.

(** X5.  On a request that is not redirected the middleware touches
    nothing but [Cache-Control]: the response is the pass-through response
    ([x-middleware-next: 1], status 200, no body), and every header of
    another name reads as in [NextResponse.next()]. *)
Theorem pass_through_frame (request : NextRequest) (name : string) :
  is_malformed (pathname (nextUrl request)) = false ->
  toLowerCase name <> "cache-control" ->
  status (middleware request) = 200
  /\ body (middleware request) = None
  /\ get (headers (middleware request)) "x-middleware-next" = Some "1"
  /\ get (headers (middleware request)) name
     = get (headers NextResponse_next) name.
Proof.
  intros M D. unfold middleware. rewrite M.
  assert (K : forall r v,
             get (headers (set_header r "Cache-Control" v)) name
             = get (headers r) name).
  { intros r v. cbn [set_header headers]. apply get_set_other.
    intros H. apply D. symmetry. exact H. }
  destruct (String.eqb _ "/"); destruct (startsWith _ "/blog");
    destruct (startsWith _ "/products" || startsWith _ "/category");
    (split; [reflexivity|]); (split; [reflexivity|]);
    (split; [reflexivity|]); rewrite ?K; reflexivity.
Qed.

Lemma pass_through_frame_witness :
  get (headers (middleware (request_for "/blog/latest"))) "Location" = None
  /\ get (headers (middleware (request_for "/blog/latest"))) "x-middleware-next"
     = Some "1".
Proof.
  pose proof (pass_through_frame (request_for "/blog/latest") "Location"
                eq_refl) as H.
  destruct H as (_ & _ & A & B); [intros E; discriminate E|].
  split; [exact B | exact A].
Defined.

End RedirectExtras.

(** ** More on the caching helpers *)

Module EtagFacts.
Import JsString Js.

Lemma Buffer_from_take (n : nat) (s : string) :
  Buffer_from (take n s) = firstn n (Buffer_from s).
Proof.
  revert s. induction n as [|n IH]; intros [|c s]; try reflexivity.
  unfold Buffer_from in *.
  cbn [take list_ascii_of_string map firstn]. now rewrite IH.
Qed.

(** The first [4 * n] digits are those of the first [3 * n] bytes. *)
Lemma base64_groups (n : nat) (buf : list N) :
  take (4 * n) (toString_base64 buf)
  = take (4 * n) (toString_base64 (firstn (3 * n) buf)).
Proof.
  revert buf. induction n as [|n IH]; intros buf; [reflexivity|].
  replace (4 * S n) with (S (S (S (S (4 * n))))) by lia.
  replace (3 * S n) with (S (S (S (3 * n)))) by lia.
  destruct buf as [|a [|b [|c rest]]]; try reflexivity.
  cbn [firstn toString_base64 take]. now rewrite IH.
Qed.

Lemma base64_take_15 (s : string) :
  take 20 (toString_base64 (Buffer_from s))
  = take 20 (toString_base64 (Buffer_from (take 15 s))).
Proof.
  rewrite Buffer_from_take. apply (base64_groups 5).
Qed.

End EtagFacts.

Module Base64Facts.
Import JsString Js Base64 EtagFacts.

Lemma all_ascii_complete (a : ascii) : In a all_ascii.
Proof.
  unfold all_ascii. rewrite <- (ascii_nat_embedding a).
  apply in_map, in_seq. pose proof (nat_ascii_bounded a). lia.
Qed.

Lemma forall_ascii (P : ascii -> bool) :
  forallb P all_ascii = true -> forall a, P a = true.
Proof.
  intros H a. rewrite forallb_forall in H. apply H, all_ascii_complete.
Qed.

Lemma forall_ascii2 (P : ascii -> ascii -> bool) :
  forallb (fun a => forallb (P a) all_ascii) all_ascii = true ->
  forall a b, P a b = true.
Proof.
  intros H a b. apply (forall_ascii (P a)).
  apply (forall_ascii (fun a => forallb (P a) all_ascii) H a).
Qed.

Ltac by_bytes :=
  match goal with
  | |- forall a b : ascii, @?P a b = true =>
      apply (forall_ascii2 P); vm_compute; reflexivity
  | |- forall a : ascii, @?P a = true =>
      apply (forall_ascii P); vm_compute; reflexivity
  end.

(** What each digit holds of the bytes of its group. *)
Lemma byte1_digits :
  forall a b, Ascii.eqb (byte1 (digit1 a) (digit2 a b)) a = true.
Proof. by_bytes. Qed.

Lemma byte1_digits_last :
  forall a, Ascii.eqb (byte1 (digit1 a) (digit2_last a)) a = true.
Proof. by_bytes. Qed.

Lemma digit2_low :
  forall a b,
    N.eqb (N.land (sextet_of (digit2 a b)) 15) (N.shiftr (N_of_ascii b) 4)
    = true.
Proof. by_bytes. Qed.

Lemma digit3_high :
  forall b c,
    N.eqb (N.shiftr (sextet_of (digit3 b c)) 2) (N.land (N_of_ascii b) 15)
    = true.
Proof. by_bytes. Qed.

Lemma digit3_last_high :
  forall b,
    N.eqb (N.shiftr (sextet_of (digit3_last b)) 2) (N.land (N_of_ascii b) 15)
    = true.
Proof. by_bytes. Qed.

Lemma digit3_low :
  forall b c,
    N.eqb (N.land (sextet_of (digit3 b c)) 3) (N.shiftr (N_of_ascii c) 6)
    = true.
Proof. by_bytes. Qed.

Lemma digit4_sextet :
  forall c, N.eqb (sextet_of (digit4 c)) (N.land (N_of_ascii c) 63) = true.
Proof. by_bytes. Qed.

Lemma nibbles :
  forall b,
    Ascii.eqb (ascii_of_N (N.lor (N.shiftl (N.shiftr (N_of_ascii b) 4) 4)
                                 (N.land (N_of_ascii b) 15))) b = true.
Proof. by_bytes. Qed.

Lemma top_and_sextet :
  forall c,
    Ascii.eqb (ascii_of_N (N.lor (N.shiftl (N.shiftr (N_of_ascii c) 6) 6)
                                 (N.land (N_of_ascii c) 63))) c = true.
Proof. by_bytes. Qed.

Lemma digit3_not_pad :
  forall b c, negb (Ascii.eqb (digit3 b c) "=") = true.
Proof. by_bytes. Qed.

Lemma digit3_last_not_pad :
  forall b, negb (Ascii.eqb (digit3_last b) "=") = true.
Proof. by_bytes. Qed.

Lemma digit4_not_pad :
  forall c, negb (Ascii.eqb (digit4 c) "=") = true.
Proof. by_bytes. Qed.

Lemma byte1_of (a b : ascii) : byte1 (digit1 a) (digit2 a b) = a.
Proof. apply Ascii.eqb_eq, byte1_digits. Qed.

Lemma byte1_of_last (a : ascii) : byte1 (digit1 a) (digit2_last a) = a.
Proof. apply Ascii.eqb_eq, byte1_digits_last. Qed.

Lemma byte2_of (a b c : ascii) : byte2 (digit2 a b) (digit3 b c) = b.
Proof.
  unfold byte2.
  rewrite (proj1 (N.eqb_eq _ _) (digit2_low a b)),
          (proj1 (N.eqb_eq _ _) (digit3_high b c)).
  apply Ascii.eqb_eq, nibbles.
Qed.

Lemma byte2_of_last (a b : ascii) : byte2 (digit2 a b) (digit3_last b) = b.
Proof.
  unfold byte2.
  rewrite (proj1 (N.eqb_eq _ _) (digit2_low a b)),
          (proj1 (N.eqb_eq _ _) (digit3_last_high b)).
  apply Ascii.eqb_eq, nibbles.
Qed.

Lemma byte3_of (b c : ascii) : byte3 (digit3 b c) (digit4 c) = c.
Proof.
  unfold byte3.
  rewrite (proj1 (N.eqb_eq _ _) (digit3_low b c)),
          (proj1 (N.eqb_eq _ _) (digit4_sextet c)).
  apply Ascii.eqb_eq, top_and_sextet.
Qed.

Lemma not_pad (d : ascii) : negb (Ascii.eqb d "=") = true -> d <> "="%char.
Proof.
  intros H E. subst d. discriminate H.
Qed.

Lemma cons_inj (a b : ascii) (s t : string) :
  String a s = String b t -> a = b /\ s = t.
Proof. intros E. now injection E. Qed.

Lemma text64_three (a b c : ascii) (r : string) :
  text64 (String a (String b (String c r)))
  = String (digit1 a) (String (digit2 a b) (String (digit3 b c)
      (String (digit4 c) (text64 r)))).
Proof. reflexivity. Qed.

Lemma text64_two (a b : ascii) :
  text64 (String a (String b ""))
  = String (digit1 a) (String (digit2 a b) (String (digit3_last b) "=")).
Proof. reflexivity. Qed.

Lemma text64_one (a : ascii) :
  text64 (String a "")
  = String (digit1 a) (String (digit2_last a) "==").
Proof. reflexivity. Qed.

(** Equal first [4 * n] digits come from equal first [3 * n] bytes. *)
Lemma base64_groups_inj (n : nat) (s1 s2 : string) :
  take (4 * n) (text64 s1) = take (4 * n) (text64 s2) ->
  take (3 * n) s1 = take (3 * n) s2.
Proof.
  revert s1 s2. induction n as [|n IH]; intros s1 s2; [reflexivity|].
  replace (4 * S n) with (S (S (S (S (4 * n))))) by lia.
  replace (3 * S n) with (S (S (S (3 * n)))) by lia.
  destruct s1 as [|a1 [|b1 [|c1 r1]]], s2 as [|a2 [|b2 [|c2 r2]]];
    rewrite ?text64_three, ?text64_two, ?text64_one;
    cbn [take]; intros E; try reflexivity; try discriminate E;
    apply cons_inj in E as [E1 E]; apply cons_inj in E as [E2 E];
    apply cons_inj in E as [E3 E]; apply cons_inj in E as [E4 E5].
  - now rewrite <- (byte1_of_last a1), <- (byte1_of_last a2), E1, E2.
  - symmetry in E3. now apply (not_pad _ (digit3_last_not_pad b2)) in E3.
  - symmetry in E3. now apply (not_pad _ (digit3_not_pad b2 c2)) in E3.
  - now apply (not_pad _ (digit3_last_not_pad b1)) in E3.
  - rewrite <- (byte1_of a1 b1), <- (byte1_of a2 b2), E1, E2.
    now rewrite <- (byte2_of_last a1 b1), <- (byte2_of_last a2 b2), E2, E3.
  - symmetry in E4. now apply (not_pad _ (digit4_not_pad c2)) in E4.
  - now apply (not_pad _ (digit3_not_pad b1 c1)) in E3.
  - now apply (not_pad _ (digit4_not_pad c1)) in E4.
  - rewrite <- (byte1_of a1 b1), <- (byte1_of a2 b2), E1, E2.
    rewrite <- (byte2_of a1 b1 c1), <- (byte2_of a2 b2 c2), E2, E3.
    rewrite <- (byte3_of b1 c1), <- (byte3_of b2 c2), E3, E4.
    now rewrite (IH r1 r2 E5).
Qed.

End Base64Facts.

Module CachingExtras.
Import JsString Http Js Caching Fixture Base64.
Import JsStringFacts HeaderFacts EtagFacts Base64Facts.

Lemma append_cancel_r (x y z : string) : x ++ z = y ++ z -> x = y.
Proof.
  revert y. induction x as [|a x IH]; intros [|b y] E.
  - reflexivity.
  - apply (f_equal String.length) in E.
    cbn [append String.length] in E. rewrite length_append in E. lia.
  - apply (f_equal String.length) in E.
    cbn [append String.length] in E. rewrite length_append in E. lia.
  - cbn [append] in E. injection E as -> E. now rewrite (IH y E).
Qed.

Lemma etag_of_eq (Num : Type) (toJSON : Num -> string) (d1 d2 : Json Num) :
  etag_of toJSON d1 = etag_of toJSON d2
  <-> take 15 (JSON_stringify toJSON d1) = take 15 (JSON_stringify toJSON d2).
Proof.
  unfold etag_of. split.
  - intros E. cbn [append] in E. injection E as E.
    apply append_cancel_r in E. now apply (base64_groups_inj 5).
  - intros E. do 2 f_equal. f_equal.
    etransitivity; [exact (base64_take_15 _)|]. rewrite E.
    symmetry. exact (base64_take_15 _).
Qed.

(** X6.  The [ETag] of [createCachedResponse] reads the first 15 bytes of
    the JSON text and nothing else: two responses carry the same [ETag]
    exactly when the JSON texts of their data agree on the first 15 bytes,
    whatever follows and whatever the policies. *)
Theorem etag_reads_15_bytes (Num : Type) (toJSON : Num -> string)
        (d1 d2 : Json Num) (p1 p2 : option PolicyName) :
  get (headers (createCachedResponse toJSON d1 p1)) "ETag"
  = get (headers (createCachedResponse toJSON d2 p2)) "ETag"
  <-> take 15 (JSON_stringify toJSON d1) = take 15 (JSON_stringify toJSON d2).
Proof.
  rewrite !CachingClaims.cached_response_headers.
  change (Some (etag_of toJSON d1) = Some (etag_of toJSON d2)
          <-> take 15 (JSON_stringify toJSON d1)
              = take 15 (JSON_stringify toJSON d2)).
  split; intros E.
  - apply etag_of_eq.
    exact (f_equal (fun o => match o with Some e => e | None => "" end) E).
  - apply etag_of_eq in E. exact (f_equal Some E).
Qed.

(** Two product lists that differ after the name key of their first item:
    the bodies differ, the [ETag]s do not. *)
Lemma etag_reads_15_bytes_witness :
  let bolts := JArr [JObj [("id", JNum 1%Z); ("name", JStr "M6 hex bolt")]] in
  let nuts := JArr [JObj [("id", JNum 1%Z); ("name", JStr "M8 wing nut")];
                    JObj [("id", JNum 2%Z); ("name", JStr "M8 washer")]] in
  get (headers (createCachedResponse integer_toJSON bolts None)) "ETag"
  = get (headers (createCachedResponse integer_toJSON nuts (Some search)))
        "ETag"
  /\ String.eqb (JSON_stringify integer_toJSON bolts)
                (JSON_stringify integer_toJSON nuts) = false.
Proof.
  intros bolts nuts. split; [|reflexivity].
  apply (proj2 (etag_reads_15_bytes Z integer_toJSON bolts nuts
                  None (Some search))).
  reflexivity.
Defined.

Lemma check_value (D : string -> option Z) (request : NextRequest)
      (lastModified : string) :
  D "" = None ->
  checkConditionalRequest D request lastModified
  = match get (req_headers request) "if-modified-since" with
    | Some v => if num_ge (D v) (D lastModified)
                then Some not_modified else None
    | None => None
    end.
Proof.
  intros H. unfold checkConditionalRequest.
  destruct (get (req_headers request) "if-modified-since") as [v|];
    [|reflexivity].
  cbn [truthy]. destruct (String.eqb v "") eqn:E; [|reflexivity].
  apply String.eqb_eq in E. subst v. cbn [negb]. now rewrite H.
Qed.

(** X7.  With a date parser that rejects the empty string, the answer of
    [checkConditionalRequest] follows the order of the two instants: a
    request that gets the 304 response keeps getting it when the client's
    date moves later or the date of the last change moves earlier; equal
    instants give the 304 response; and a [lastModified] that does not
    parse gives [null] to every request. *)
Theorem conditional_request_follows_time (D : string -> option Z) :
  D "" = None ->
  (forall (r r' : NextRequest) (lm lm' v v' : string) (c c' s s' : Z),
      get (req_headers r) "If-Modified-Since" = Some v ->
      D v = Some c -> D lm = Some s ->
      get (req_headers r') "If-Modified-Since" = Some v' ->
      D v' = Some c' -> D lm' = Some s' ->
      (c <= c')%Z -> (s' <= s)%Z ->
      checkConditionalRequest D r lm = Some (mkResponse 304 [] None) ->
      checkConditionalRequest D r' lm' = Some (mkResponse 304 [] None))
  /\ (forall (r : NextRequest) (lm v : string) (c : Z),
        get (req_headers r) "If-Modified-Since" = Some v ->
        D v = Some c -> D lm = Some c ->
        checkConditionalRequest D r lm = Some (mkResponse 304 [] None))
  /\ (forall (r : NextRequest) (lm : string),
        D lm = None -> checkConditionalRequest D r lm = None).
Proof.
  intros H. split; [|split].
  - intros r r' lm lm' v v' c c' s s' Hv Hc Hs Hv' Hc' Hs' Lc Ls.
    rewrite !(check_value D _ _ H).
    change (get (req_headers r) "if-modified-since") with
      (get (req_headers r) "If-Modified-Since").
    change (get (req_headers r') "if-modified-since") with
      (get (req_headers r') "If-Modified-Since").
    rewrite Hv, Hv', Hc, Hc', Hs, Hs'. cbn [num_ge].
    destruct (s <=? c)%Z eqn:E; [|discriminate]. intros _.
    apply Z.leb_le in E.
    assert (E' : (s' <=? c')%Z = true) by (apply Z.leb_le; lia).
    now rewrite E'.
  - intros r lm v c Hv Hc Hs. rewrite (check_value D _ _ H).
    change (get (req_headers r) "if-modified-since") with
      (get (req_headers r) "If-Modified-Since").
    rewrite Hv, Hc, Hs. cbn [num_ge]. now rewrite Z.leb_refl.
  - intros r lm Hs. rewrite (check_value D _ _ H), Hs.
    destruct (get (req_headers r) "if-modified-since") as [v|];
      [|reflexivity].
    now destruct (D v).
Qed.

Lemma conditional_request_follows_time_witness :
  checkConditionalRequest UtcDate.getTime
    (request_with [("if-modified-since", "2024-03-01T00:00:00Z")])
    "2024-03-01T00:00:00Z"
  = Some (mkResponse 304 [] None)
  /\ checkConditionalRequest UtcDate.getTime
       (request_with [("if-modified-since", "2024-03-01T00:00:00Z")])
       "last week"
     = None.
Proof.
  pose proof (conditional_request_follows_time UtcDate.getTime eq_refl)
    as (_ & Same & Invalid).
  split.
  - apply (Same _ _ "2024-03-01T00:00:00Z" 1709251200000%Z);
      reflexivity.
  - apply Invalid. reflexivity.
Defined.

(** X8.  [createCachedResponse] sends an [ETag] and no [Last-Modified],
    and [checkConditionalRequest] reads [If-Modified-Since] only.  So a
    request that revalidates such a response with the validators it
    carries ([If-None-Match] from its [ETag], [If-Modified-Since] from its
    [Last-Modified]) never gets the 304 response, whatever the date parser
    and the date of the last change. *)
Theorem cached_response_never_revalidates
        (Num : Type) (toJSON : Num -> string) (data : Json Num)
        (policy : option PolicyName) (D : string -> option Z)
        (request : NextRequest) (lastModified : string) :
  let response := createCachedResponse toJSON data policy in
  get (req_headers request) "If-None-Match" = get (headers response) "ETag" ->
  get (req_headers request) "If-Modified-Since"
  = get (headers response) "Last-Modified" ->
  get (headers response) "ETag" = Some (etag_of toJSON data)
  /\ get (headers response) "Last-Modified" = None
  /\ checkConditionalRequest D request lastModified = None.
Proof.
  intros response _ H. subst response.
  rewrite CachingClaims.cached_response_headers in *.
  split; [reflexivity|]. split; [reflexivity|].
  unfold checkConditionalRequest.
  change (get (req_headers request) "if-modified-since") with
    (get (req_headers request) "If-Modified-Since").
  rewrite H. reflexivity.
Qed.

Lemma cached_response_never_revalidates_witness :
  checkConditionalRequest UtcDate.getTime
    (request_with [("if-none-match", weak_etag "eyJhIjoxfQ==")])
    "2024-01-01T00:00:00Z"
  = None.
Proof.
  apply (cached_response_never_revalidates Z integer_toJSON
           (JObj [("a", JNum 1%Z)]) None UtcDate.getTime
           (request_with [("if-none-match", weak_etag "eyJhIjoxfQ==")])
           "2024-01-01T00:00:00Z" eq_refl eq_refl).
Defined.

End CachingExtras.

(** ** More on the Navbar *)

Module NavbarExtras.
Import Navbar NavbarEvents.

Ltac descend path :=
  destruct path as [|[|[|[|[|?]]]] path]; cbn; try easy.

Lemma click_elsewhere (s : State) (path : list nat) :
  on_toggle path = false -> click s path = s.
Proof.
  unfold click. destruct s as [[|] m];
    descend path; descend path; descend path; descend path; descend path.
Qed.

Lemma click_toggle (s : State) (path : list nat) :
  on_toggle path = true ->
  click s path = mkState (negb (open s)) (isMounted s).
Proof.
  unfold click. destruct s as [[|] m];
    descend path; descend path; descend path; descend path.
Qed.

Lemma on_toggle_true (path : list nat) :
  on_toggle path = true -> path = TOGGLE_PATH \/ path = TOGGLE_LABEL_PATH.
Proof.
  descend path; descend path; descend path; [now left|].
  descend path. now right.
Qed.

Lemma step_state (s : State) (e : Event) :
  step s e = mkState (xorb (open s) (hits_toggle e))
                     (isMounted s || is_effect e).
Proof.
  destruct e as [path|]; cbn [step hits_toggle is_effect].
  - destruct (on_toggle path) eqn:E.
    + rewrite (click_toggle s path E).
      destruct s as [[|] [|]]; reflexivity.
    + rewrite (click_elsewhere s path E).
      destruct s as [[|] [|]]; reflexivity.
  - destruct s as [[|] [|]]; reflexivity.
Qed.

Lemma run_state (events : list Event) (s : State) :
  run events s
  = mkState (xorb (open s)
                  (Nat.odd (List.length (filter hits_toggle events))))
            (isMounted s || existsb is_effect events).
Proof.
  revert s. induction events as [|e events IH]; intros s.
  - destruct s as [[|] [|]]; reflexivity.
  - change (run (e :: events) s) with (run events (step s e)).
    rewrite IH, step_state. cbn [open isMounted filter existsb].
    destruct (hits_toggle e); cbn [List.length].
    + rewrite Nat.odd_succ, <- Nat.negb_odd.
      destruct (open s), (Nat.odd _), (isMounted s), (is_effect e);
        reflexivity.
    + destruct (open s), (Nat.odd _), (isMounted s), (is_effect e);
        reflexivity.
Qed.

(** X9.  In the rendered Navbar only the menu button reacts to a click:
    a click on the button or on its label flips [open] (it is the toggle
    of the menu), and a click on any other node of the tree, the links of
    the desktop row and of the mobile panel among them, runs no setter and
    leaves the state as it is.  So no click inside the open mobile panel
    closes the menu. *)
Theorem only_the_toggle_reacts (s : State) (path : list nat) :
  (exists button,
      by_class TOGGLE_CLASS (render s) = [button]
      /\ node_at TOGGLE_PATH (render s) = Some button
      /\ node_at TOGGLE_LABEL_PATH (render s) = nth_error (children button) 0
      /\ handler button = Some (setOpen (negb (open s))))
  /\ click s path = (if on_toggle path then activate_toggle s else s)
  /\ (on_toggle path = true <->
      path = TOGGLE_PATH \/ path = TOGGLE_LABEL_PATH)
  /\ (forall href className cs,
        node_at path (render s) = Some (Link href className cs) ->
        click s path = s)
  /\ (forall n,
        node_at path (render s) = Some n -> handler n = None ->
        path <> TOGGLE_LABEL_PATH -> click s path = s)
  /\ (forall i rest, open (click s (1 :: i :: rest)) = open s).
Proof.
  split; [|split; [|split; [|split; [|split]]]].
  - destruct s as [[|] m]; eexists; repeat split.
  - destruct (on_toggle path) eqn:E.
    + rewrite (click_toggle s path E). destruct s as [[|] m]; reflexivity.
    + now apply click_elsewhere.
  - split; [apply on_toggle_true | now intros [->| ->]].
  - intros href className cs H. apply click_elsewhere.
    destruct (on_toggle path) eqn:E; [|reflexivity].
    apply on_toggle_true in E as [->| ->];
      destruct s as [[|] m]; discriminate H.
  - intros n H Hn L. apply click_elsewhere.
    destruct (on_toggle path) eqn:E; [|reflexivity].
    apply on_toggle_true in E as [->| ->]; [|now elim L].
    destruct s as [[|] m]; cbn in H; injection H as <-; discriminate Hn.
  - intros i rest. now rewrite click_elsewhere.
Qed.

(** X10.  After any sequence of clicks and effect runs on a freshly
    mounted Navbar, the menu is open exactly when the number of clicks
    that hit the toggle is odd, and [isMounted] is true exactly when the
    mount effect has run.  The rendered tree depends on that parity alone
    ([isMounted] is never read), and the toggle announces what is shown:
    [aria-expanded] is [true] and the label [Close menu] exactly when the
    mobile panel is in the tree. *)
Theorem navbar_after_events (events : list Event) :
  let s := run events initial in
  let hits := List.length (filter hits_toggle events) in
  open s = Nat.odd hits
  /\ isMounted s = existsb is_effect events
  /\ render s = render (mkState (Nat.odd hits) false)
  /\ List.length (mobile_panel s) = (if Nat.odd hits then 1 else 0)
  /\ exists button,
       by_class TOGGLE_CLASS (render s) = [button]
       /\ attribute "aria-expanded" button
          = Some match mobile_panel s with [] => "false" | _ :: _ => "true" end
       /\ attribute "aria-label" button
          = Some match mobile_panel s with
                 | [] => "Open menu"
                 | _ :: _ => "Close menu"
                 end.
Proof.
  intros s hits. subst s. rewrite run_state. fold hits.
  cbn [initial open isMounted xorb orb].
  destruct (Nat.odd hits), (existsb is_effect events);
    (split; [reflexivity|]); (split; [reflexivity|]);
    (split; [reflexivity|]); (split; [reflexivity|]);
    eexists; repeat split.
Qed.

End NavbarExtras.

(** ** More on the header rules and the matcher *)

Module PatternFacts.
Import JsString Occurrence RouteShape RouteTests.
Import JsStringFacts SlashWords PathToRegexp RegexFacts RouteFacts RuleFacts.
Import NextConfig Framework Base64Facts.

Lemma take_drop (n : nat) (s : string) : take n s ++ drop n s = s.
Proof.
  revert s. induction n as [|n IH]; intros [|c s]; try reflexivity.
  cbn [take drop append]. now rewrite IH.
Qed.

Lemma lang_lit_string_ci (s t : string) :
  toLowerCase t = toLowerCase s -> lang (lit_string true s) t.
Proof.
  revert t. induction s as [|c s IH]; intros [|d t] H; try discriminate H.
  - reflexivity.
  - cbn [toLowerCase] in H. injection H as Hc Hs.
    change (String d t) with (String d "" ++ t).
    apply (lang_cat (Lit true c) (lit_string true s)); [|now apply IH].
    exists d. split; [reflexivity|]. cbn [lit_accepts].
    rewrite Hc. apply Ascii.eqb_refl.
Qed.

Lemma no_slash_includes (seg x : string) :
  no_slash seg = true -> includes (seg ++ x) "//" = includes x "//".
Proof.
  induction seg as [|c seg IH]; intros N; [reflexivity|].
  apply no_slash_head in N as [Nc N].
  cbn [append]. rewrite includes_cons, (IH N).
  cbn [startsWith]. destruct (seg ++ x) as [|d r].
  - assert (E : Ascii.eqb "/" c = false) by (apply Ascii.eqb_neq; congruence).
    now rewrite E.
  - assert (E : Ascii.eqb "/" c = false) by (apply Ascii.eqb_neq; congruence).
    now rewrite E.
Qed.

(** A run of segments, with or without one last slash, is rooted. *)
Lemma segments_rooted (body t : string) :
  segments body -> t = "" \/ t = "/" -> rooted (body ++ t) = true.
Proof.
  intros B T. unfold rooted. apply andb_true_iff. split.
  - destruct B; [destruct T as [->| ->]; reflexivity | reflexivity].
  - apply negb_true_iff.
    induction B as [|seg rest Hne N B IH];
      [destruct T as [->| ->]; reflexivity|].
    cbn [append]. rewrite includes_cons, append_assoc,
      (no_slash_includes seg (rest ++ t) N), IH, orb_false_r.
    destruct seg as [|c seg]; [contradiction|].
    apply no_slash_head in N as [Nc _].
    cbn [append startsWith].
    assert (E : Ascii.eqb "/" c = false) by (apply Ascii.eqb_neq; congruence).
    now rewrite E, andb_false_r.
Qed.

Lemma lang_sl_inv (s : string) : lang SL s -> s = "/".
Proof.
  intros (s1 & s2 & -> & (d & -> & A) & H2). cbn [lang lit_string] in H2.
  subst s2.
  assert (K : forall d, implb (lit_accepts true "/" d) (Ascii.eqb d "/") = true)
    by by_bytes.
  specialize (K d). rewrite A in K. apply Ascii.eqb_eq in K. now subst d.
Qed.

Lemma mem_slash (d : ascii) :
  mem_ascii d ["/"%char] = false -> d <> "/"%char.
Proof.
  unfold mem_ascii. cbn [existsb]. rewrite orb_false_r.
  intros H. now apply Ascii.eqb_neq.
Qed.

Lemma lang_seg_inv (seg : string) :
  lang SEG seg -> seg <> "" /\ no_slash seg = true.
Proof.
  intros (s1 & s2 & -> & (d & -> & A) & H2). split; [discriminate|].
  cbn [append no_slash]. apply mem_slash in A.
  assert (E : Ascii.eqb d "/" = false) by now apply Ascii.eqb_neq.
  rewrite E. cbn [negb andb].
  cbn [lang] in H2. induction H2 as [|u v (e & -> & Ae) _ IH]; [reflexivity|].
  cbn [append no_slash]. apply mem_slash in Ae.
  assert (E' : Ascii.eqb e "/" = false) by now apply Ascii.eqb_neq.
  now rewrite E', IH.
Qed.

Lemma lang_segments_inv (body : string) :
  lang (Star (Cat SL SEG)) body -> segments body.
Proof.
  cbn [lang]. intros H.
  induction H as [|u v (s1 & s2 & -> & H1 & H2) _ IH]; [constructor|].
  apply lang_sl_inv in H1. subst s1. apply lang_seg_inv in H2 as [Hne N].
  change (("/" ++ s2) ++ v) with (String "/" (s2 ++ v)).
  now constructor.
Qed.

Lemma lang_path_key_inv (k : string) : lang PATH_KEY k -> segments k.
Proof.
  intros [(s1 & s2 & -> & H1 & (seg & rest & -> & Hs & Hr))| ->];
    [|constructor].
  apply lang_sl_inv in H1. subst s1. apply lang_seg_inv in Hs as [Hne N].
  apply lang_segments_inv in Hr.
  change ("/" ++ seg ++ rest) with (String "/" (seg ++ rest)).
  now constructor.
Qed.

Lemma rooted_parts (u : string) :
  rooted u = true ->
  includes u "//" = false /\ (u = "" \/ startsWith u "/" = true).
Proof.
  unfold rooted. intros H. apply andb_true_iff in H as [H1 H2].
  apply negb_true_iff in H2. split; [assumption|].
  apply orb_true_iff in H1 as [H1|H1]; [left | now right].
  now apply String.eqb_eq.
Qed.

(** [/:path*] and the ending accept the rooted strings and no other. *)
Lemma lang_rooted_iff (u : string) :
  lang (Cat PATH_KEY TAIL) u <-> rooted u = true.
Proof.
  split.
  - intros (k & t & -> & Hk & Ht).
    apply segments_rooted; [now apply lang_path_key_inv|].
    now apply lang_tail_inv.
  - intros H. apply rooted_parts in H as [D R]. now apply lang_rooted.
Qed.

Lemma bool_eq_iff (a b : bool) : (a = true <-> b = true) -> a = b.
Proof. destruct a, b; intros [H1 H2]; auto; symmetry; auto. Qed.

Lemma all_test (p : string) : route_matches "/:path*" p = rooted p.
Proof.
  apply bool_eq_iff. unfold route_matches. rewrite route_regex_all.
  rewrite matchb_lang. apply lang_rooted_iff.
Qed.

Lemma prefixed_test (lit p : string) :
  lit = "/api" \/ lit = "/category" \/ lit = "/blog" \/ lit = "/products" ->
  route_matches (lit ++ "/:path*") p = under_ci lit p.
Proof.
  intros L. assert (Low : toLowerCase lit = lit)
    by (destruct L as [->|[->|[->| ->]]]; reflexivity).
  apply bool_eq_iff. unfold route_matches.
  rewrite (route_regex_prefixed lit L), matchb_lang. unfold under_ci. split.
  - intros (l & u & -> & Hl & Hu).
    apply lang_lit_string_inv in Hl. rewrite Low in Hl.
    assert (Len : String.length lit = String.length l)
      by now rewrite <- Hl, toLowerCase_length.
    rewrite (take_app_length l u _ Len), Len, drop_app, Hl, String.eqb_refl.
    now apply lang_rooted_iff.
  - intros H. apply andb_true_iff in H as [H1 H2].
    apply String.eqb_eq in H1.
    rewrite <- (take_drop (String.length lit) p).
    apply lang_cat; [|now apply lang_rooted_iff].
    apply lang_lit_string_ci. now rewrite Low.
Qed.

Lemma home_test (p : string) :
  route_matches "/" p = String.eqb p "/" || String.eqb p "//".
Proof.
  apply bool_eq_iff. unfold route_matches.
  change (route_regex "/") with (Some (Cat SL TAIL)).
  rewrite matchb_lang. split.
  - intros (s1 & t & -> & H1 & Ht). apply lang_sl_inv in H1. subst s1.
    apply lang_tail_inv in Ht as [->| ->]; reflexivity.
  - intros H. apply orb_true_iff in H as [H|H]; apply String.eqb_eq in H;
      subst p; apply matchb_lang; reflexivity.
Qed.

End PatternFacts.


Module MatcherFacts.
Import JsString Occurrence RouteShape RouteTests.
Import JsStringFacts SlashWords PathToRegexp RegexFacts RouteFacts RuleFacts.
Import NextConfig Framework PatternFacts.

Lemma lit_step (c : ascii) (r : regex) (s : string) :
  lang (Cat (Lit false c) r) s <-> exists t, s = String c t /\ lang r t.
Proof.
  split.
  - intros (s1 & s2 & -> & (d & -> & A) & H2).
    apply Ascii.eqb_eq in A. subst d. now exists s2.
  - intros (t & -> & H). exists (String c ""), t.
    split; [reflexivity|]. split; [|assumption].
    exists c. split; [reflexivity | apply Ascii.eqb_refl].
Qed.

Lemma dot_step (r : regex) (s : string) :
  lang (Cat Dot r) s
  <-> exists d t, s = String d t /\ one_line (String d "") = true /\ lang r t.
Proof.
  split.
  - intros (s1 & s2 & -> & (d & -> & A) & H2). exists d, s2.
    split; [reflexivity|]. split; [|assumption].
    cbn [one_line]. now rewrite A.
  - intros (d & t & -> & A & H). exists (String d ""), t.
    split; [reflexivity|]. split; [|assumption].
    exists d. split; [reflexivity|]. cbn [one_line] in A.
    rewrite andb_true_r in A. now apply negb_true_iff in A.
Qed.

(** A word followed by anything is the prefix test. *)
Lemma word_prefix (w s : string) :
  lang (Cat (lit_string false w) (Star AnyChar)) s <-> startsWith s w = true.
Proof.
  rewrite startsWith_iff. split.
  - intros (s1 & s2 & -> & H1 & _).
    apply lang_lit_string_sensitive in H1. subst s1. now exists s2.
  - intros (t & ->). apply lang_cat; [apply lang_lit_string|].
    apply lang_any_star.
Qed.

Lemma EXCLUDED_alternatives :
  EXCLUDED = Alt (lit_string false "api")
            (Alt (lit_string false "_next/static")
            (Alt (lit_string false "_next/image") FAVICON)).
Proof. reflexivity. Qed.

Lemma lang_favicon (s : string) :
  lang FAVICON s
  <-> exists d, s = "favicon" ++ String d "ico"
                /\ one_line (String d "") = true.
Proof.
  change FAVICON with
    (Cat (Lit false "f") (Cat (Lit false "a") (Cat (Lit false "v")
      (Cat (Lit false "i") (Cat (Lit false "c") (Cat (Lit false "o")
        (Cat (Lit false "n") (Cat Dot (lit_string false "ico"))))))))).
  split.
  - intros H.
    do 7 (apply lit_step in H as (? & -> & H)).
    apply dot_step in H as (d & t & -> & A & H).
    apply lang_lit_string_sensitive in H. subst t. now exists d.
  - intros (d & -> & A). cbn [append].
    do 7 (apply lit_step; eexists; split; [reflexivity|]).
    apply dot_step. exists d, "ico".
    split; [reflexivity|]. split; [assumption | apply lang_lit_string].
Qed.

Lemma favicon_prefix (s : string) :
  lang (Cat FAVICON (Star AnyChar)) s <-> favicon_ico s = true.
Proof.
  unfold favicon_ico. split.
  - intros (s1 & s2 & -> & H1 & _).
    apply lang_favicon in H1 as (d & -> & A).
    cbn [append startsWith drop Ascii.eqb Bool.eqb andb].
    rewrite A. apply (startsWith_app "ico" s2).
  - intros H. apply andb_true_iff in H as [H1 H2].
    apply startsWith_iff in H1 as [t ->].
    change (drop 7 ("favicon" ++ t)) with t in H2.
    destruct t as [|d r]; [discriminate|].
    apply andb_true_iff in H2 as [A R].
    apply startsWith_iff in R as [u ->].
    change ("favicon" ++ String d ("ico" ++ u))
      with (("favicon" ++ String d "ico") ++ u).
    apply lang_cat; [|apply lang_any_star].
    apply lang_favicon. now exists d.
Qed.

Lemma cat_alt (a b x : regex) (s : string) :
  lang (Cat (Alt a b) x) s <-> lang (Cat a x) s \/ lang (Cat b x) s.
Proof.
  split.
  - intros (s1 & s2 & -> & [H|H] & Hx); [left | right]; now exists s1, s2.
  - intros [(s1 & s2 & -> & H & Hx)|(s1 & s2 & -> & H & Hx)];
      exists s1, s2; (split; [reflexivity|]); (split; [|assumption]);
      [now left | now right].
Qed.

(** The lookahead of the matcher is the test [excluded]. *)
Lemma excluded_lang (rest : string) :
  lang (Cat EXCLUDED (Star AnyChar)) rest <-> excluded rest = true.
Proof.
  rewrite EXCLUDED_alternatives, !cat_alt, !word_prefix, favicon_prefix.
  unfold excluded. rewrite !orb_true_iff. tauto.
Qed.

Lemma one_line_app (a b : string) :
  one_line (a ++ b) = one_line a && one_line b.
Proof.
  induction a as [|c a IH]; [reflexivity|].
  cbn [append one_line]. rewrite IH. apply andb_assoc.
Qed.

Lemma star_dot (s : string) : lang (Star Dot) s <-> one_line s = true.
Proof.
  cbn [lang]. split.
  - induction 1 as [|u v (d & -> & A) _ IH]; [reflexivity|].
    cbn [append one_line]. now rewrite A, IH.
  - induction s as [|c s IH]; [constructor|].
    cbn [one_line]. intros H. apply andb_true_iff in H as [A H].
    apply negb_true_iff in A.
    apply (@star_app _ (String c "") s); [|now apply IH].
    exists c. now split.
Qed.

(** What follows the lookahead accepts the strings of one line. *)
Lemma body_lang (s : string) :
  lang (Cat (Star Dot) (Cat (Opt (one_of ["/"; "#"; "?"]%char)) Eps)) s
  <-> one_line s = true.
Proof.
  split.
  - intros (s1 & s2 & -> & H1 & (s3 & s4 & -> & H3 & ->)).
    apply star_dot in H1. rewrite !one_line_app, H1, andb_true_r.
    destruct H3 as [H3| ->]; [|reflexivity].
    destruct H3 as [(d & -> & A)|[(d & -> & A)|[(d & -> & A)|[]]]];
      apply Ascii.eqb_eq in A; subst d; reflexivity.
  - intros H. rewrite <- (append_nil_r s).
    apply lang_cat; [now apply star_dot|].
    apply (lang_cat _ _ "" ""); [apply lang_opt_nil | reflexivity].
Qed.

Lemma matcher_test (p : string) :
  middleware_runs p
  = match p with
    | String "/" rest => one_line rest && negb (excluded rest)
    | _ => false
    end.
Proof.
  unfold middleware_runs, Middleware.matcher. cbn [existsb].
  rewrite matcher_regex_eq, orb_false_r.
  apply bool_eq_iff. rewrite matchb_lang. split.
  - intros (s1 & s2 & -> & H1 & (H2 & H3)).
    apply lang_lit_string_sensitive in H1. subst s1. cbn [append].
    apply body_lang in H3. rewrite H3. cbn [andb].
    destruct (excluded s2) eqn:E; [|reflexivity].
    exfalso. apply H2. now apply excluded_lang.
  - intros H. destruct p as [|c rest]; [discriminate|].
    destruct (Ascii.eqb c "/") eqn:Ec.
    + apply Ascii.eqb_eq in Ec. subst c.
      apply andb_true_iff in H as [H1 H2]. apply negb_true_iff in H2.
      exists "/", rest. split; [reflexivity|].
      split; [apply lang_lit_string|]. split.
      * intros K. apply excluded_lang in K. congruence.
      * now apply body_lang.
    + exfalso. revert H Ec.
      destruct c as [[] [] [] [] [] [] [] []]; try discriminate;
        intros _ Ec; discriminate Ec.
Qed.

End MatcherFacts.


Module LayerFacts.
Import JsString Occurrence PathClass RouteShape RouteTests Fixture.
Import JsStringFacts SlashWords PathToRegexp RegexFacts RouteFacts RuleFacts.
Import Http Middleware NextConfig Framework HeaderFacts.
Import Base64Facts PatternFacts MatcherFacts.

(** The last matching rule that writes [Cache-Control] decides. *)
Lemma config_cache_control (p : string) :
  get (config_headers p) "Cache-Control"
  = if route_matches "/api/:path*" p
    then Some "private, no-cache, no-store, must-revalidate"
    else if route_matches STATIC_SOURCE p
    then Some "public, max-age=31536000, immutable"
    else if route_matches "/category/:path*" p
    then Some "public, s-maxage=3600, stale-while-revalidate=86400, stale-if-error=604800"
    else if route_matches "/products/:path*" p
    then Some "public, s-maxage=1800, stale-while-revalidate=86400, stale-if-error=604800"
    else if route_matches "/blog/:path*" p
    then Some "public, s-maxage=3600, stale-while-revalidate=86400, stale-if-error=604800"
    else if route_matches "/" p
    then Some "public, s-maxage=60, stale-while-revalidate=300, stale-if-error=86400"
    else None.
Proof.
  unfold config_headers, headers_config.
  cbn [fold_left source NextConfig.headers]. fold STATIC_SOURCE.
  split_rules p; vm_compute; reflexivity.
Qed.

Lemma filter_names (f : string * string -> bool) (hs : Headers) :
  NoDup (map fst hs) -> NoDup (map fst (filter f hs)).
Proof.
  induction hs as [|h hs IH]; intros H; [constructor|].
  cbn [map] in H. apply NoDup_cons_iff in H as [H1 H2].
  cbn [filter]. destruct (f h); [|now apply IH].
  cbn [map]. constructor; [|now apply IH].
  intros K. apply H1. apply in_map_iff in K as (x & E & K).
  apply filter_In in K as [K _]. apply in_map_iff. now exists x.
Qed.

(** [headers.set] keeps header names apart. *)
Lemma set_names (hs : Headers) (name value : string) :
  NoDup (map fst hs) -> NoDup (map fst (set hs name value)).
Proof.
  intros H. unfold set. rewrite map_app. cbn [map fst].
  apply NoDup_app.
  - now apply filter_names.
  - repeat constructor. intros [].
  - intros x K [<-|[]].
    apply in_map_iff in K as (h & E & K). apply filter_In in K as [_ K].
    unfold name_is in K. apply negb_true_iff, String.eqb_neq in K.
    now apply K.
Qed.

Lemma add_headers_names (kvs : list (string * string)) (hs : Headers) :
  NoDup (map fst hs) -> NoDup (map fst (add_headers hs kvs)).
Proof.
  unfold add_headers. revert hs.
  induction kvs as [|kv kvs IH]; intros hs H; [assumption|].
  cbn [fold_left]. apply IH. now apply set_names.
Qed.

Lemma config_names (p : string) : NoDup (map fst (config_headers p)).
Proof.
  unfold config_headers.
  assert (G : forall rules hs,
             NoDup (map fst hs) ->
             NoDup (map fst
               (fold_left
                  (fun hs r => if route_matches (source r) p
                               then add_headers hs (NextConfig.headers r)
                               else hs) rules hs))).
  { induction rules as [|r rules IH]; intros hs H; [assumption|].
    cbn [fold_left]. apply IH.
    destruct (route_matches (source r) p); [|assumption].
    now apply add_headers_names. }
  apply G. constructor.
Qed.

Lemma count_names (hs : Headers) (name : string) :
  NoDup (map fst hs) -> count hs name <= 1.
Proof.
  unfold count. induction hs as [|h hs IH]; intros H; [cbn; lia|].
  cbn [map] in H. apply NoDup_cons_iff in H as [H1 H2].
  cbn [filter]. destruct (name_is name h) eqn:E; [|now apply IH].
  cbn [List.length].
  assert (Z : filter (name_is name) hs = []).
  { clear IH H2. induction hs as [|k hs IH]; [reflexivity|].
    cbn [filter]. destruct (name_is name k) eqn:K.
    - exfalso. apply H1. left.
      unfold name_is in *. apply String.eqb_eq in E, K. congruence.
    - apply IH. intros J. apply H1. now right. }
  rewrite Z. cbn. lia.
Qed.

Lemma middleware_names (request : NextRequest) :
  NoDup (map fst (Http.headers (middleware request))).
Proof.
  unfold middleware. destruct (is_malformed _).
  - repeat constructor. intros [].
  - assert (N : NoDup (map fst (Http.headers NextResponse_next)))
      by (repeat constructor; intros []).
    destruct (String.eqb _ "/"); destruct (startsWith _ "/blog");
      destruct (startsWith _ "/products" || startsWith _ "/category");
      cbn [set_header Http.headers]; repeat apply set_names; exact N.
Qed.

Lemma path_safe_one_line (s : string) :
  path_safe s = true -> one_line s = true.
Proof.
  induction s as [|c s IH]; [reflexivity|].
  cbn [path_safe one_line]. intros H. apply andb_true_iff in H as [A H].
  rewrite (IH H), andb_true_r.
  assert (K : forall c,
             implb (negb (needs_escape c))
                   (negb (mem_ascii c [ascii_of_nat 10; ascii_of_nat 13]))
             = true) by by_bytes.
  specialize (K c). now rewrite A in K.
Qed.

Lemma toLowerCase_take (n : nat) (s : string) :
  toLowerCase (take n s) = take n (toLowerCase s).
Proof.
  revert s. induction n as [|n IH]; intros [|c s]; try reflexivity.
  cbn [take toLowerCase]. now rewrite IH.
Qed.

Lemma take_take_app (n : nat) (l u : string) :
  n <= String.length l -> take n (l ++ u) = take n l.
Proof.
  revert l. induction n as [|n IH]; intros [|c l] H; try reflexivity.
  - cbn in H. lia.
  - cbn [append take]. rewrite IH; [reflexivity|]. cbn in H. lia.
Qed.

Lemma startsWith_take (s q : string) :
  startsWith s q = true -> take (String.length q) s = q.
Proof.
  intros H. apply startsWith_iff in H as [t ->].
  now apply take_app_length.
Qed.

End LayerFacts.


Module LayerLemmas.
Import JsString Occurrence PathClass RouteShape RouteTests Fixture.
Import JsStringFacts SlashWords PathToRegexp RegexFacts RouteFacts RuleFacts.
Import Http Middleware NextConfig Framework HeaderFacts.
Import Base64Facts PatternFacts MatcherFacts LayerFacts.

Lemma lang_ext_ci (w : string) :
  In (toLowerCase w) STATIC_EXTENSIONS -> lang EXT w.
Proof.
  intros H. rewrite EXT_alternatives. cbn [lang].
  repeat (destruct H as [H|H];
          [solve [repeat first
                    [ apply lang_lit_string_ci; rewrite <- H; reflexivity
                    | left; apply lang_lit_string_ci; rewrite <- H; reflexivity
                    | right ]]|]).
  destruct H.
Qed.

Lemma take_take (n m : nat) (s : string) :
  n <= m -> take n (take m s) = take n s.
Proof.
  revert m s. induction n as [|n IH]; intros [|m] [|c s] H;
    try reflexivity; try lia.
  cbn [take]. rewrite IH; [reflexivity | lia].
Qed.

(** The first two characters of what a class test or a rule accepts. *)
Lemma class_head (l u q : string) :
  startsWith (l ++ u) q = true ->
  2 <= String.length q -> 2 <= String.length l ->
  take 2 (toLowerCase l) = take 2 (toLowerCase q).
Proof.
  intros H Lq Ll. apply startsWith_iff in H as [t E].
  apply (f_equal (take 2)) in E.
  rewrite !take_take_app in E by assumption.
  now rewrite <- !toLowerCase_take, E.
Qed.

Lemma rule_head (l u q : string) :
  under_ci q (l ++ u) = true ->
  2 <= String.length q -> 2 <= String.length l ->
  take 2 (toLowerCase l) = take 2 q.
Proof.
  unfold under_ci. intros H Lq Ll. apply andb_true_iff in H as [H _].
  apply String.eqb_eq in H. apply (f_equal (take 2)) in H.
  rewrite <- toLowerCase_take, take_take, take_take_app in H by assumption.
  now rewrite <- toLowerCase_take.
Qed.

Lemma other_rule (q l u : string) :
  q = "/api" \/ q = "/category" \/ q = "/blog" \/ q = "/products" ->
  2 <= String.length l ->
  take 2 (toLowerCase l) <> take 2 q ->
  route_matches (q ++ "/:path*") (l ++ u) = false.
Proof.
  intros Q Ll N. rewrite (prefixed_test q _ Q).
  destruct (under_ci q (l ++ u)) eqn:E; [|reflexivity].
  exfalso. apply N. apply (rule_head l u q E); [|assumption].
  destruct Q as [->|[->|[->| ->]]]; cbn; lia.
Qed.

Lemma other_class (q l u : string) :
  2 <= String.length q -> 2 <= String.length l ->
  take 2 (toLowerCase l) <> take 2 (toLowerCase q) ->
  startsWith (l ++ u) q = false.
Proof.
  intros Lq Ll N. destruct (startsWith (l ++ u) q) eqn:E; [|reflexivity].
  exfalso. apply N. now apply (class_head l u q E).
Qed.

Lemma own_rule (lit l u : string) :
  lit = "/api" \/ lit = "/category" \/ lit = "/blog" \/ lit = "/products" ->
  toLowerCase l = lit ->
  route_matches (lit ++ "/:path*") (l ++ u) = rooted u.
Proof.
  intros L H. rewrite (prefixed_test lit _ L). unfold under_ci.
  assert (Len : String.length lit = String.length l)
    by now rewrite <- H, toLowerCase_length.
  now rewrite (take_app_length l u _ Len), Len, drop_app, H, String.eqb_refl.
Qed.

Lemma own_class (lit l u : string) :
  String.length l = String.length lit -> l <> lit ->
  startsWith (l ++ u) lit = false.
Proof.
  intros Len N. destruct (startsWith (l ++ u) lit) eqn:E; [|reflexivity].
  exfalso. apply N. apply startsWith_take in E.
  now rewrite (take_app_length l u _ (eq_sym Len)) in E.
Qed.

Lemma long_not_home (p : string) :
  3 <= String.length p ->
  String.eqb p "/" = false /\ route_matches "/" p = false.
Proof.
  intros L. assert (A : String.eqb p "/" = false).
  { apply String.eqb_neq. intros ->. cbn in L. lia. }
  assert (B : String.eqb p "//" = false).
  { apply String.eqb_neq. intros ->. cbn in L. lia. }
  split; [assumption|]. now rewrite home_test, A, B.
Qed.

Lemma unrooted (t : string) :
  t <> "" -> startsWith t "/" = false -> rooted t = false.
Proof.
  intros N S. unfold rooted. rewrite S.
  assert (E : String.eqb t "" = false) by now apply String.eqb_neq.
  now rewrite E.
Qed.

End LayerLemmas.

(** ** The rules, the matcher and the middleware side by side *)

Module RuleExtras.
Import JsString Occurrence PathClass RouteShape RouteTests Fixture.
Import JsStringFacts SlashWords PathToRegexp RegexFacts RouteFacts RuleFacts.
Import Http Middleware Caching NextConfig Framework HeaderFacts.
Import Base64Facts PatternFacts MatcherFacts LayerFacts LayerLemmas.

(** X11.  What each header rule of the configuration matches, as a test
    on the path: the home rule matches [/] (and [//]) only; a rule
    [lit/:path*] matches a path that starts with [lit], letter case
    apart, and goes on with nothing or with a slash-led rest that has no
    empty segment; the catch-all rule matches every path that is empty or
    slash-led and has no empty segment. *)
Theorem header_rule_tests (p : string) :
  route_matches "/" p = String.eqb p "/" || String.eqb p "//"
  /\ route_matches "/blog/:path*" p = under_ci "/blog" p
  /\ route_matches "/products/:path*" p = under_ci "/products" p
  /\ route_matches "/category/:path*" p = under_ci "/category" p
  /\ route_matches "/api/:path*" p = under_ci "/api" p
  /\ route_matches "/:path*" p = rooted p.
Proof.
  split; [apply home_test|].
  split; [apply (prefixed_test "/blog"); tauto|].
  split; [apply (prefixed_test "/products"); tauto|].
  split; [apply (prefixed_test "/category"); tauto|].
  split; [apply (prefixed_test "/api"); tauto|].
  apply all_test.
Qed.

(** X12.  The static-asset rule matches exactly the paths made of a run
    of slash-led non-empty segments, then one of the twelve listed words
    in any letter case, then at most one slash.  No dot is asked for, and
    the word cannot stand right after a slash. *)
Theorem static_rule_exact (p : string) :
  route_matches
    "/:path*(css|jpg|jpeg|png|gif|ico|webp|svg|woff|woff2|ttf|otf)" p = true
  <-> exists k w t,
        p = k ++ w ++ t
        /\ segments k
        /\ In (toLowerCase w)
              ["css"; "jpg"; "jpeg"; "png"; "gif"; "ico"; "webp"; "svg";
               "woff"; "woff2"; "ttf"; "otf"]
        /\ (t = "" \/ t = "/").
Proof.
  change "/:path*(css|jpg|jpeg|png|gif|ico|webp|svg|woff|woff2|ttf|otf)"
    with STATIC_SOURCE.
  unfold route_matches. rewrite route_regex_static, matchb_lang. split.
  - intros (k & rest & -> & Hk & (w & t & -> & Hw & Ht)).
    exists k, w, t. split; [reflexivity|].
    split; [now apply lang_path_key_inv|].
    split; [now apply lang_ext_inv | now apply lang_tail_inv].
  - intros (k & w & t & -> & Hk & Hw & Ht).
    apply lang_cat; [now apply lang_path_key|].
    apply lang_cat; [now apply lang_ext_ci|].
    destruct Ht as [->| ->]; [apply lang_tail_nil | apply lang_tail_slash].
Qed.

(** X13.  The [Cache-Control] value the configuration gives a path is
    decided by the last rule of the list that matches and writes one: the
    API rule before the static-asset rule, that before the category, the
    product, the blog and the home rule, in this order; a path that
    matches none of them gets no [Cache-Control] from the configuration. *)
Theorem config_cache_control_precedence (p : string) :
  get (config_headers p) "Cache-Control"
  = if under_ci "/api" p
    then Some "private, no-cache, no-store, must-revalidate"
    else if route_matches
              "/:path*(css|jpg|jpeg|png|gif|ico|webp|svg|woff|woff2|ttf|otf)" p
    then Some "public, max-age=31536000, immutable"
    else if under_ci "/category" p
    then Some "public, s-maxage=3600, stale-while-revalidate=86400, stale-if-error=604800"
    else if under_ci "/products" p
    then Some "public, s-maxage=1800, stale-while-revalidate=86400, stale-if-error=604800"
    else if under_ci "/blog" p
    then Some "public, s-maxage=3600, stale-while-revalidate=86400, stale-if-error=604800"
    else if String.eqb p "/" || String.eqb p "//"
    then Some "public, s-maxage=60, stale-while-revalidate=300, stale-if-error=86400"
    else None.
Proof.
  rewrite config_cache_control.
  rewrite (prefixed_test "/api") by tauto.
  rewrite (prefixed_test "/category") by tauto.
  rewrite (prefixed_test "/products") by tauto.
  rewrite (prefixed_test "/blog") by tauto.
  now rewrite home_test.
Qed.

(** X14.  The matcher of the middleware, as a test on the path: the
    middleware runs exactly on the paths that start with a slash, have no
    line break after it, and do not go on with [api], [_next/static],
    [_next/image] or [favicon], one character and [ico].  The excluded
    words are prefixes with no boundary after them, so on a path such as
    [/api-docs/...] or [/apiary] the middleware stage gives no answer:
    no redirect, even for a malformed path, and no header. *)
Theorem matcher_exact (p : string) :
  middleware_runs p
  = match p with
    | String "/" rest =>
        one_line rest
        && negb (startsWith rest "api" || startsWith rest "_next/static"
                 || startsWith rest "_next/image" || favicon_ico rest)
    | _ => false
    end
  /\ (forall request rest,
        pathname (nextUrl request) = "/" ++ rest ->
        startsWith rest "api" || startsWith rest "_next/static"
        || startsWith rest "_next/image" || favicon_ico rest = true ->
        middleware_stage request = None
        /\ middleware_cache_control request = None)
  /\ (forall request,
        path_safe (pathname (nextUrl request)) = true ->
        startsWith (pathname (nextUrl request)) "/" = true ->
        excluded (drop 1 (pathname (nextUrl request))) = false ->
        middleware_stage request = Some (middleware request)).
Proof.
  split; [apply matcher_test|]. split.
  - intros request rest E X. unfold middleware_stage, middleware_cache_control.
    rewrite E, matcher_test. cbn [append].
    change (excluded rest = true) in X.
    now rewrite X, andb_false_r.
  - intros request S R X. unfold middleware_stage.
    apply startsWith_iff in R as [rest R]. rewrite R in *.
    cbn [append drop] in *. rewrite matcher_test.
    cbn [path_safe] in S. apply andb_true_iff in S as [_ S].
    now rewrite (path_safe_one_line rest S), X.
Qed.

(** X15.  Where the three layers agree.  For a pathname in URL form
    with a leading slash and no empty segment, which is not redirected and
    does not match the static-asset rule: on [/], under [/blog] and under
    [/products] the middleware runs and writes the same [Cache-Control]
    value as the configuration, and it is the directive of the policy
    table of the caching helpers for [homepage], [blog] and [productList]. *)
Theorem layers_agree (request : NextRequest) :
  let p := pathname (nextUrl request) in
  wf_pathname p = true -> path_safe p = true -> is_malformed p = false ->
  route_matches
    "/:path*(css|jpg|jpeg|png|gif|ico|webp|svg|woff|woff2|ttf|otf)" p = false ->
  (p = "/" ->
     middleware_cache_control request
     = Some (cacheControl (CACHE_POLICIES homepage))
     /\ get (config_headers p) "Cache-Control"
        = Some (cacheControl (CACHE_POLICIES homepage)))
  /\ (under "/blog" p ->
      middleware_cache_control request
      = Some (cacheControl (CACHE_POLICIES blog))
      /\ get (config_headers p) "Cache-Control"
         = Some (cacheControl (CACHE_POLICIES blog)))
  /\ (under "/products" p ->
      middleware_cache_control request
      = Some (cacheControl (CACHE_POLICIES productList))
      /\ get (config_headers p) "Cache-Control"
         = Some (cacheControl (CACHE_POLICIES productList))).
Proof.
  intros p W S M St.
  change "/:path*(css|jpg|jpeg|png|gif|ico|webp|svg|woff|woff2|ttf|otf)"
    with STATIC_SOURCE in St.
  assert (Runs : forall t, p = "/" ++ t -> excluded t = false ->
                           middleware_runs p = true).
  { intros t E X. rewrite matcher_test, E. cbn [append].
    rewrite E in S. cbn [append path_safe] in S.
    apply andb_true_iff in S as [_ S].
    now rewrite (path_safe_one_line t S), X. }
  unfold middleware_cache_control. fold p.
  split; [|split].
  - intros E. rewrite (Runs "" E eq_refl).
    unfold middleware. fold p. rewrite M, E. split; reflexivity.
  - intros U.
    assert (R : middleware_runs p = true)
      by (destruct U as [E|[t E]];
          [apply (Runs "blog" E) | apply (Runs ("blog/" ++ t) E)];
          reflexivity).
    rewrite R. split.
    + unfold middleware. fold p. rewrite M.
      destruct U as [->|[t ->]]; reflexivity.
    + rewrite config_cache_control, St.
      assert (A : route_matches "/api/:path*" p = false)
        by (destruct U as [->|[t ->]];
            apply (prefixed_rejects "/api"); try tauto;
            vm_compute; discriminate).
      assert (C : route_matches "/category/:path*" p = false)
        by (destruct U as [->|[t ->]];
            apply (prefixed_rejects "/category"); try tauto;
            cbn; discriminate).
      assert (P : route_matches "/products/:path*" p = false)
        by (destruct U as [->|[t ->]];
            apply (prefixed_rejects "/products"); try tauto;
            cbn; discriminate).
      assert (B : route_matches "/blog/:path*" p = true).
      { destruct U as [E|[t E]]; rewrite E in *.
        - reflexivity.
        - apply (prefixed_matches "/blog" ("/" ++ t));
            [tauto | exact W | now right]. }
      now rewrite A, C, P, B.
  - intros U.
    assert (R : middleware_runs p = true)
      by (destruct U as [E|[t E]];
          [apply (Runs "products" E) | apply (Runs ("products/" ++ t) E)];
          reflexivity).
    rewrite R. split.
    + unfold middleware. fold p. rewrite M.
      destruct U as [->|[t ->]]; reflexivity.
    + rewrite config_cache_control, St.
      assert (A : route_matches "/api/:path*" p = false)
        by (destruct U as [->|[t ->]];
            apply (prefixed_rejects "/api"); try tauto;
            vm_compute; discriminate).
      assert (C : route_matches "/category/:path*" p = false)
        by (destruct U as [->|[t ->]];
            apply (prefixed_rejects "/category"); try tauto;
            cbn; discriminate).
      assert (P : route_matches "/products/:path*" p = true).
      { destruct U as [E|[t E]]; rewrite E in *.
        - reflexivity.
        - apply (prefixed_matches "/products" ("/" ++ t));
            [tauto | exact W | now right]. }
      now rewrite A, C, P.
Qed.

Lemma layers_agree_witness :
  middleware_cache_control (request_for "/blog/how-to-pick-a-screw")
  = Some "public, s-maxage=3600, stale-while-revalidate=86400, stale-if-error=604800"
  /\ get (config_headers "/blog/how-to-pick-a-screw") "Cache-Control"
     = Some "public, s-maxage=3600, stale-while-revalidate=86400, stale-if-error=604800".
Proof.
  apply (layers_agree (request_for "/blog/how-to-pick-a-screw")
           eq_refl eq_refl eq_refl eq_refl).
  right. now exists "how-to-pick-a-screw".
Defined.

(** X16.  Where the middleware and the configuration part.  The
    middleware tests a prefix of the path, letter for letter; the rules of
    the configuration ask for a whole first segment, letter case apart.
    So for [lit] one of [/blog], [/products], [/category], on a path that
    is not redirected and does not match the static-asset rule:
    a path that continues [lit] inside the segment ([/blogger],
    [/products-old]) gets the directive of [lit] from the middleware and
    no [Cache-Control] from the configuration; a path whose first segment
    is [lit] in another letter case ([/Blog/post]) gets the directive of
    the rule from the configuration and none from the middleware. *)
Theorem layers_part (request : NextRequest) (lit : string) :
  let p := pathname (nextUrl request) in
  lit = "/blog" \/ lit = "/products" \/ lit = "/category" ->
  is_malformed p = false ->
  route_matches
    "/:path*(css|jpg|jpeg|png|gif|ico|webp|svg|woff|woff2|ttf|otf)" p = false ->
  (forall t,
      p = lit ++ t -> t <> "" -> startsWith t "/" = false ->
      get (Http.headers (middleware request)) "Cache-Control"
      = Some (if String.eqb lit "/blog"
              then "public, s-maxage=3600, stale-while-revalidate=86400, stale-if-error=604800"
              else "public, s-maxage=1800, stale-while-revalidate=86400, stale-if-error=604800")
      /\ route_matches (lit ++ "/:path*") p = false
      /\ get (config_headers p) "Cache-Control" = None)
  /\ (forall l u,
        p = l ++ u -> toLowerCase l = lit -> l <> lit -> rooted u = true ->
        get (Http.headers (middleware request)) "Cache-Control" = None
        /\ route_matches (lit ++ "/:path*") p = true
        /\ get (config_headers p) "Cache-Control"
           = Some (if String.eqb lit "/products"
                   then "public, s-maxage=1800, stale-while-revalidate=86400, stale-if-error=604800"
                   else "public, s-maxage=3600, stale-while-revalidate=86400, stale-if-error=604800")).
Proof.
  intros p L M St.
  change "/:path*(css|jpg|jpeg|png|gif|ico|webp|svg|woff|woff2|ttf|otf)"
    with STATIC_SOURCE in St.
  assert (Rest : forall l u,
             p = l ++ u -> toLowerCase l = lit ->
             route_matches "/api/:path*" p = false
             /\ String.eqb p "/" = false
             /\ route_matches "/" p = false
             /\ (lit <> "/blog" ->
                 route_matches "/blog/:path*" p = false
                 /\ startsWith p "/blog" = false)
             /\ (lit <> "/products" ->
                 route_matches "/products/:path*" p = false
                 /\ startsWith p "/products" = false)
             /\ (lit <> "/category" ->
                 route_matches "/category/:path*" p = false
                 /\ startsWith p "/category" = false)).
  { intros l u E H.
    assert (Len : 5 <= String.length l)
      by (rewrite <- (toLowerCase_length l), H;
          destruct L as [->|[->| ->]]; cbn; lia).
    assert (Lp : 3 <= String.length p)
      by (rewrite E, length_append; lia).
    destruct (long_not_home p Lp) as [H1 H2].
    split.
    { rewrite E. apply (other_rule "/api"); [tauto | lia |]. rewrite H.
      destruct L as [->|[->| ->]]; discriminate. }
    split; [assumption|]. split; [assumption|].
    split; [|split]; intros N.
    - split; [rewrite E; apply (other_rule "/blog"); [tauto | lia |]
             | rewrite E; apply (other_class "/blog"); [cbn; lia | lia |]];
        rewrite H; destruct L as [->|[->| ->]]; try congruence;
        vm_compute; discriminate.
    - split; [rewrite E; apply (other_rule "/products"); [tauto | lia |]
             | rewrite E; apply (other_class "/products"); [cbn; lia | lia |]];
        rewrite H; destruct L as [->|[->| ->]]; try congruence;
        vm_compute; discriminate.
    - split; [rewrite E; apply (other_rule "/category"); [tauto | lia |]
             | rewrite E; apply (other_class "/category"); [cbn; lia | lia |]];
        rewrite H; destruct L as [->|[->| ->]]; try congruence;
        vm_compute; discriminate. }
  split.
  - intros t E Ht St'.
    assert (Low : toLowerCase lit = lit)
      by (destruct L as [->|[->| ->]]; reflexivity).
    destruct (Rest lit t E Low) as (A & H1 & H2 & B & P & C).
    assert (Own : route_matches (lit ++ "/:path*") p = false).
    { rewrite E, (own_rule lit lit t); [now apply unrooted | | assumption].
      destruct L as [->|[->| ->]]; tauto. }
    assert (Cl : startsWith p lit = true)
      by (rewrite E; apply startsWith_app).
    split; [|split; [assumption|]].
    + unfold middleware. fold p. rewrite M, H1.
      destruct L as [->|[->| ->]].
      * rewrite Cl.
        destruct (P ltac:(discriminate)) as [_ ->].
        destruct (C ltac:(discriminate)) as [_ ->]. reflexivity.
      * rewrite Cl.
        destruct (B ltac:(discriminate)) as [_ ->]. reflexivity.
      * rewrite Cl, orb_true_r.
        destruct (B ltac:(discriminate)) as [_ ->]. reflexivity.
    + rewrite config_cache_control, A, St, H2.
      destruct L as [->|[->| ->]]; cbn [append] in Own.
      * destruct (P ltac:(discriminate)) as [-> _].
        destruct (C ltac:(discriminate)) as [-> _]. now rewrite Own.
      * destruct (B ltac:(discriminate)) as [-> _].
        destruct (C ltac:(discriminate)) as [-> _]. now rewrite Own.
      * destruct (B ltac:(discriminate)) as [-> _].
        destruct (P ltac:(discriminate)) as [-> _]. now rewrite Own.
  - intros l u E H N R.
    destruct (Rest l u E H) as (A & H1 & H2 & B & P & C).
    assert (Own : route_matches (lit ++ "/:path*") p = true).
    { rewrite E, (own_rule lit l u); [assumption | | assumption].
      destruct L as [->|[->| ->]]; tauto. }
    assert (Cl : startsWith p lit = false).
    { rewrite E. apply own_class; [|assumption].
      now rewrite <- (toLowerCase_length l), H. }
    split; [|split; [assumption|]].
    + unfold middleware. fold p. rewrite M, H1.
      destruct L as [->|[->| ->]].
      * rewrite Cl.
        destruct (P ltac:(discriminate)) as [_ ->].
        destruct (C ltac:(discriminate)) as [_ ->]. reflexivity.
      * rewrite Cl.
        destruct (B ltac:(discriminate)) as [_ ->].
        destruct (C ltac:(discriminate)) as [_ ->]. reflexivity.
      * rewrite Cl.
        destruct (B ltac:(discriminate)) as [_ ->].
        destruct (P ltac:(discriminate)) as [_ ->]. reflexivity.
    + rewrite config_cache_control, A, St.
      destruct L as [->|[->| ->]]; cbn [append] in Own.
      * destruct (P ltac:(discriminate)) as [-> _].
        destruct (C ltac:(discriminate)) as [-> _]. now rewrite Own.
      * destruct (C ltac:(discriminate)) as [-> _]. now rewrite Own.
      * now rewrite Own.
Qed.

Lemma layers_part_witness :
  (get (Http.headers (middleware (request_for "/blogger"))) "Cache-Control"
   = Some "public, s-maxage=3600, stale-while-revalidate=86400, stale-if-error=604800"
   /\ get (config_headers "/blogger") "Cache-Control" = None)
  /\ (get (Http.headers (middleware (request_for "/Blog/post")))
          "Cache-Control" = None
      /\ get (config_headers "/Blog/post") "Cache-Control"
         = Some "public, s-maxage=3600, stale-while-revalidate=86400, stale-if-error=604800").
Proof.
  split.
  - destruct (layers_part (request_for "/blogger") "/blog"
                (or_introl eq_refl) eq_refl eq_refl) as [Inside _].
    destruct (Inside "ger" eq_refl) as (A & _ & B);
      [discriminate | reflexivity |].
    split; [exact A | exact B].
  - destruct (layers_part (request_for "/Blog/post") "/blog"
                (or_introl eq_refl) eq_refl eq_refl) as [_ Case].
    destruct (Case "/Blog" "/post" eq_refl eq_refl) as (A & _ & B);
      [discriminate | reflexivity |].
    split; [exact A | exact B].
Defined.

(** X17.  No response of the three layers carries two values for one
    header name, however many [if]s of the middleware fire and however
    many rules of the configuration match a path. *)
Theorem one_value_per_header (name : string) :
  (forall request : NextRequest,
      count (Http.headers (middleware request)) name <= 1)
  /\ (forall p : string, count (config_headers p) name <= 1)
  /\ (forall (Num : Type) (toJSON : Num -> string) (data : Js.Json Num)
             (policy : option PolicyName),
        count (Http.headers (createCachedResponse toJSON data policy)) name
        <= 1).
Proof.
  split; [|split].
  - intros request. apply count_names, middleware_names.
  - intros p. apply count_names, config_names.
  - intros Num toJSON data policy. apply count_names.
    rewrite CachingClaims.cached_response_headers. cbn [map fst].
    repeat constructor; cbn; intuition discriminate.
Qed.

End RuleExtras.
